(** * Career Hero: interview practice engine and client auth session

    A shallow embedding of the interview page (session lifecycle engine,
    session store, fallback generators) and of the client auth module
    (credential record, refresh-and-retry orchestration).

    Conventions of the embedding:
    - A JavaScript string is the [string] of the bytes of its UTF-8
      encoding (a surrogate that stands alone is written with the three
      bytes of its code point).  [length] and [slice] count UTF-16 code
      units and [trim] strips the white space and line terminators of
      ECMAScript, as in JavaScript.  [toLowerCase] lowers the letters A to
      Z: its result is only ever compared with the literals custom, remote,
      paused, finished, completed and done and tested for the prefix http,
      and no other character is lowered to a letter of these.
    - JavaScript numbers carried by payloads and records are integers ([Z]).
    - A value of TypeScript type [unknown] is a [jsval]; reading a property
      that is absent gives [VUndef].
    - [Record<string, string>] is a [gmap string string].
    - A number inside a template literal is printed by [pretty].
    - The code runs in the browser ([typeof window !== "undefined"]) and
      a write to [localStorage] succeeds.
    - A component function reads the state of the render it was called in
      and its updates are applied in order; as the page does not serialise
      overlapping calls, one transition runs to its end before the next.
      The effects that React runs after a render (the current session put
      into the list of records, the list written to [localStorage]) are
      not part of the embedded functions.
    - Asynchronous code is a computation over the [World] that may throw;
      time passes only while a request is on the wire. *)

From Stdlib Require Import ZArith List String Ascii Bool Lia.
From stdpp Require Import gmap strings list fin_maps pretty.

Local Open Scope string_scope.
Local Open Scope Z_scope.

(** ** JavaScript values and string helpers *)

Module Js.

#[warnings="-register-all"]
Inductive jsval : Type :=
| VUndef
| VNull
| VBool (b : bool)
| VNum (n : Z)
| VStr (s : string)
| VArr (items : list jsval)
| VObj (fields : list (string * jsval)).

Fixpoint assoc (k : string) (fs : list (string * jsval)) : jsval :=
  match fs with
  | [] => VUndef
  | (k', v) :: rest => if String.eqb k k' then v else assoc k rest
  end.

(** [value.k] *)
Definition prop (v : jsval) (k : string) : jsval :=
  match v with
  | VObj fs => assoc k fs
  | _ => VUndef
  end.

(** [typeof value === "object" && value !== null] *)
Definition isRecord (v : jsval) : bool :=
  match v with
  | VArr _ | VObj _ => true
  | _ => false
  end.

Definition truthy (v : jsval) : bool :=
  match v with
  | VUndef | VNull => false
  | VBool b => b
  | VNum n => negb (n =? 0)
  | VStr s => negb (String.eqb s "")
  | VArr _ | VObj _ => true
  end.

(** [a || b] *)
Definition orJs (a b : jsval) : jsval := if truthy a then a else b.

(** [a ?? b] *)
Definition nullish (a b : jsval) : jsval :=
  match a with
  | VUndef | VNull => b
  | _ => a
  end.

Definition isBlank (s : string) : bool := String.eqb s "".

(** [s || fallback] on strings *)
Definition orStr (s fallback : string) : string :=
  if isBlank s then fallback else s.

(** A string is held as the bytes of its UTF-8 encoding. A byte
    [10xxxxxx] continues a character; any other byte opens one, is followed
    by 0 to 3 continuing bytes and stands for one UTF-16 code unit, or for
    the two of a surrogate pair when the character lies past U+FFFF. *)
Definition isContinuation (c : ascii) : bool :=
  let n := nat_of_ascii c in ((128 <=? n) && (n <=? 191))%nat.

Definition followers (c : ascii) : nat :=
  let n := nat_of_ascii c in
  if (n <? 192)%nat then 0%nat
  else if (n <? 224)%nat then 1%nat
  else if (n <? 240)%nat then 2%nat
  else if (n <? 248)%nat then 3%nat
  else 0%nat.

Definition unitsOf (c : ascii) : nat :=
  let n := nat_of_ascii c in
  if ((240 <=? n) && (n <? 248))%nat then 2%nat else 1%nat.

(** The white space and the line terminators of ECMAScript: U+0009 to
    U+000D, U+0020, U+00A0, U+1680, U+2000 to U+200A, U+2028, U+2029,
    U+202F, U+205F, U+3000 and U+FEFF, by the bytes of their encodings. *)
Definition isSpace1 (b0 : nat) : bool :=
  (((9 <=? b0) && (b0 <=? 13)) || (b0 =? 32))%nat.

Definition isSpace2 (b0 b1 : nat) : bool :=
  ((b0 =? 194) && (b1 =? 160))%nat.

Definition isSpace3 (b0 b1 b2 : nat) : bool :=
  (((b0 =? 225) && (b1 =? 154) && (b2 =? 128))
   || ((b0 =? 226) && (b1 =? 128)
       && (((128 <=? b2) && (b2 <=? 138))
           || (b2 =? 168) || (b2 =? 169) || (b2 =? 175)))
   || ((b0 =? 226) && (b1 =? 129) && (b2 =? 159))
   || ((b0 =? 227) && (b1 =? 128) && (b2 =? 128))
   || ((b0 =? 239) && (b1 =? 187) && (b2 =? 191)))%nat.

(** What follows the white space character that opens [s], if one does. *)
Definition afterWhiteSpace (s : string) : option string :=
  match s with
  | String c0 r0 =>
      if isSpace1 (nat_of_ascii c0) then Some r0
      else
        match r0 with
        | String c1 r1 =>
            if isSpace2 (nat_of_ascii c0) (nat_of_ascii c1) then Some r1
            else
              match r1 with
              | String c2 r2 =>
                  if isSpace3 (nat_of_ascii c0) (nat_of_ascii c1)
                              (nat_of_ascii c2)
                  then Some r2 else None
              | EmptyString => None
              end
        | EmptyString => None
        end
  | EmptyString => None
  end.

(** [s.trimStart()]; a character has at least one byte, so the length of
    [s] bounds the number of characters to strip. *)
Fixpoint trimStartGo (fuel : nat) (s : string) : string :=
  match fuel with
  | O => s
  | S f =>
      match afterWhiteSpace s with
      | Some rest => trimStartGo f rest
      | None => s
      end
  end.

Definition trimStart (s : string) : string :=
  trimStartGo (String.length s) s.

(** [s.trimEnd()]: the text is cut where only white space follows. *)
Fixpoint trimEnd (s : string) : string :=
  match s with
  | EmptyString => EmptyString
  | String c rest =>
      if isBlank (trimStart s) then EmptyString
      else String c (trimEnd rest)
  end.

Definition trim (s : string) : string := trimEnd (trimStart s).

(** U+00A0, U+3000, U+2028 and U+FEFF, which are white space, and U+200B,
    which is not. *)
Definition noBreakSpace : string := String "194" (String "160" "").
Definition ideographicSpace : string :=
  String "227" (String "128" (String "128" "")).
Definition lineSeparator : string :=
  String "226" (String "128" (String "168" "")).
Definition byteOrderMark : string :=
  String "239" (String "187" (String "191" "")).
Definition zeroWidthSpace : string :=
  String "226" (String "128" (String "139" "")).

(** [s.toLowerCase()] on the letters A to Z; every other byte is kept. *)
Definition lowerAscii (c : ascii) : ascii :=
  let n := nat_of_ascii c in
  if ((65 <=? n) && (n <=? 90))%nat then ascii_of_nat (n + 32) else c.

Fixpoint toLowerCase (s : string) : string :=
  match s with
  | EmptyString => EmptyString
  | String c rest => String (lowerAscii c) (toLowerCase rest)
  end.

(** [s.length], in UTF-16 code units; [pending] counts the continuing bytes
    still owed to the character being read, and a continuing byte that no
    character owns counts as one unit. *)
Fixpoint unitsGo (pending : nat) (s : string) : nat :=
  match s with
  | EmptyString => 0%nat
  | String c rest =>
      if isContinuation c then
        match pending with
        | S p => unitsGo p rest
        | O => S (unitsGo 0 rest)
        end
      else (unitsOf c + unitsGo (followers c) rest)%nat
  end.

Definition strlen (s : string) : Z := Z.of_nat (unitsGo 0 s).

(** The first code unit of the surrogate pair of the character written
    with the four bytes [c0 c1 c2 c3]: [0xD800 + ((cp - 0x10000) >> 10)],
    held as the three bytes of that code point. *)
Definition leadSurrogate (c0 c1 c2 c3 : ascii) : string :=
  let cp := ((N_of_ascii c0 mod 8) * 262144 + (N_of_ascii c1 mod 64) * 4096
             + (N_of_ascii c2 mod 64) * 64 + N_of_ascii c3 mod 64)%N in
  let hs := (55296 + (cp - 65536) / 1024)%N in
  String (ascii_of_N 237)
    (String (ascii_of_N (128 + (hs / 64) mod 64))
       (String (ascii_of_N (128 + hs mod 64)) EmptyString)).

(** [s.slice(0, n)]: the first [n] code units; a cut between the two units
    of a surrogate pair keeps the first one. *)
Fixpoint sliceGo (n pending : nat) (s : string) : string :=
  match s with
  | EmptyString => EmptyString
  | String c rest =>
      if isContinuation c then
        match pending, n with
        | S p, _ => String c (sliceGo n p rest)
        | O, S m => String c (sliceGo m 0 rest)
        | O, O => EmptyString
        end
      else
        match n with
        | O => EmptyString
        | S m =>
            if (unitsOf c =? 1)%nat
            then String c (sliceGo m (followers c) rest)
            else
              match m with
              | S m' => String c (sliceGo m' (followers c) rest)
              | O =>
                  match rest with
                  | String c1 (String c2 (String c3 _)) =>
                      leadSurrogate c c1 c2 c3
                  | _ => EmptyString
                  end
              end
        end
  end.

Definition sliceTo (n : nat) (s : string) : string := sliceGo n 0 s.

(** [s.split(/\r?\n/)]: the pieces are trimmed by every caller, so a
    carriage return left before the line feed is removed there. *)
Fixpoint splitLinesGo (cur : string) (s : string) : list string :=
  match s with
  | EmptyString => [String.rev cur]
  | String c rest =>
      if Ascii.eqb c "010"%char
      then String.rev cur :: splitLinesGo EmptyString rest
      else splitLinesGo (String c cur) rest
  end.

Definition splitLines (s : string) : list string := splitLinesGo EmptyString s.

(** [Math.round(a / b)] for [0 <= a], [0 < b]: the quotient rounded to the
    nearest integer, halves upwards. *)
Definition roundDiv (a b : Z) : Z := (2 * a + b) / (2 * b).

End Js.

Import Js.

(** ** Data model of the interview page *)

Record InterviewQuestion : Type := mkQuestion {
  qid : string;
  qtext : string;
  tips : list string;
  qindex : option Z;
  category : option string;
  focus : option string
}.

Record InterviewFeedback : Type := mkFeedback {
  summary : string;
  strengths : list string;
  improvements : list string;
  score : option Z
}.

Inductive InterviewMode : Type := remote | local.
Inductive InterviewStatus : Type := active | paused | finished.

Record InterviewSessionRecord : Type := mkRecord {
  key : string;
  sessionId : string;
  mode : InterviewMode;
  status : InterviewStatus;
  position : string;
  jdText : string;
  resumeText : string;
  resumeContextKey : option string;
  createdAt : string;
  updatedAt : string;
  questionCount : Z;
  answeredCount : Z;
  currentIndex : Z;
  questions : list InterviewQuestion;
  answers : gmap string string;
  feedback : option InterviewFeedback;
  remoteNumericId : option Z
}.

#[global] Instance InterviewMode_eq_dec : EqDecision InterviewMode.
Proof. solve_decision. Defined.

#[global] Instance InterviewStatus_eq_dec : EqDecision InterviewStatus.
Proof. solve_decision. Defined.

(** ** Fallback generators *)

Definition toSafeString (v : jsval) (fallback : string) : string :=
  match v with
  | VStr s => s
  | _ => fallback
  end.

Definition toSafeNumber (v : jsval) : option Z :=
  match v with
  | VNum n => Some n
  | _ => None
  end.

Definition jsString (v : jsval) : option string :=
  match v with
  | VStr s => Some s
  | _ => None
  end.

Definition toStringArray (v : jsval) : list string :=
  match v with
  | VArr items =>
      filter (fun s => isBlank s = false) (trim <$> omap jsString items)
  | _ => []
  end.

Definition inferPositionFromJd (jd : string) : string :=
  match filter (fun s => isBlank s = false) (trim <$> splitLines jd) with
  | [] => ""
  | firstLine :: _ =>
      if strlen firstLine <=? 30 then firstLine
      else sliceTo 30 firstLine +:+ "…"
  end.

Definition buildLocalQuestions (pos : string) : list InterviewQuestion :=
  let role := orStr (trim pos) "目标岗位" in
  [ mkQuestion "q-1"
      ("请你用 90 秒做一个与「" +:+ role +:+ "」相关的自我介绍。")
      ["突出与岗位最相关的经历"; "给出 1-2 个量化结果"]
      None (Some "self_intro") (Some "岗位匹配");
    mkQuestion "q-2"
      "描述一个你解决复杂问题的案例：背景、动作、结果分别是什么？"
      ["建议使用“情境-任务-行动-结果”结构"; "结果尽量给出数字"]
      None (Some "project_depth") (Some "项目深挖");
    mkQuestion "q-3"
      "如果你加入团队，前 30 天会如何快速创造价值？"
      ["拆分为学习、交付、协同三个维度"]
      None (Some "onboarding") (Some "落地计划") ].

(** [Object.values(answers).filter((value) => value.trim().length > 0)];
    only the number of these values and the sum of their trimmed lengths are
    used, so the enumeration order of the object does not matter. *)
Definition answerList (ans : gmap string string) : list string :=
  filter (fun v => 0 < strlen (trim v)) ((map_to_list ans).*2).

Definition sumTrimmed (l : list string) : Z :=
  foldr (fun item acc => strlen (trim item) + acc) 0 l.

Definition avgLength (ans : gmap string string) : Z :=
  let l := answerList ans in
  if 0 <? Z.of_nat (length l)
  then roundDiv (sumTrimmed l) (Z.of_nat (length l))
  else 0.

Definition localScore (count avg : Z) : Z :=
  Z.min 95 (45 + count * 12 + (if 80 <=? avg then 12 else 0)
                             + (if 140 <=? avg then 6 else 0)).

Definition buildLocalFeedback (ans : gmap string string) (totalQuestions : Z)
    (pos : string) : InterviewFeedback :=
  let count := Z.of_nat (length (answerList ans)) in
  let avg := avgLength ans in
  let strengths1 :=
    if Z.min 3 totalQuestions <=? count
    then ["回答完整度较好，覆盖了主要问题"] else [] in
  let strengths2 :=
    if 80 <=? avg then ["表述细节较充分，具备一定说服力"] else [] in
  let improvements1 :=
    if avg <? 80 then ["答案偏短，建议补充具体背景与结果数据"] else [] in
  {| summary := "已完成 " +:+ orStr (trim pos) "目标岗位"
                 +:+ " 的模拟面试，建议继续打磨高频问题表达。";
     strengths := strengths1 ++ strengths2;
     improvements := improvements1
       ++ ["每个回答都可补充“你做了什么、带来什么变化”来增强说服力"];
     score := Some (localScore count avg) |}.

(** ** Data model of the client auth module *)

Module Auth.

Inductive ClientAuthMode : Type := local | custom.
Inductive AuthFailureReason : Type := expired | unauthorized | refresh_failed.

Record ClientAuthState : Type := mkAuth {
  sessionId : string;
  accessToken : string;
  refreshToken : option string;
  mode : ClientAuthMode;
  updatedAt : string;
  userName : option string;
  expiresAt : option string
}.

#[global] Instance ClientAuthMode_eq_dec : EqDecision ClientAuthMode.
Proof. solve_decision. Defined.

#[global] Instance AuthFailureReason_eq_dec : EqDecision AuthFailureReason.
Proof. solve_decision. Defined.

#[global] Instance ClientAuthState_eq_dec : EqDecision ClientAuthState.
Proof. solve_decision. Defined.

Definition STORAGE_KEY : string := "career_hero.client_auth.v3".
Definition LEGACY_STORAGE_KEY : string := "career_hero.client_auth.v2".

End Auth.

(** ** The browser, the network and the page state *)

Inductive Method : Type := GET | POST.

(** What [fetch] is called with.  [authorization] is the bearer token that
    [buildInitWithAuth] attaches; the refresh calls carry none. *)
Record Request : Type := mkRequest {
  url : string;
  method : Method;
  body : jsval;
  xSessionId : option string;
  authorization : option string;
  xClientAuthMode : option Auth.ClientAuthMode;
  xUserName : option string
}.

(** What the callers read of a [Response]: the status, the [x-session-id]
    header and the result of [readJsonSafe] ([VNull] when the body is not
    JSON). *)
Record Response : Type := mkResponse {
  rstatus : Z;
  rsessionHeader : option string;
  rjson : jsval
}.

Definition rok (r : Response) : bool :=
  (200 <=? rstatus r) && (rstatus r <=? 299).

Inductive NetOutcome : Type :=
| NetError
| NetReply (r : Response).

(** What [JSON.parse] makes of an item of [localStorage]. *)
Inductive StoredItem : Type :=
| Unparsable
| Json (v : jsval).

(** The functions of the platform the code calls and the remote side. *)
Class Platform : Type := {
  (** the remote authority: earlier requests, time of sending and request
      give the time of completion and the outcome *)
  network : list Request -> Z -> Request -> Z * NetOutcome;
  (** [new Date(s).getTime()], [None] when it is not finite *)
  parseDate : string -> option Z;
  (** [new Date(ms).toISOString()] *)
  toISOString : Z -> string;
  (** [randomHex(length)], drawn from the n-th state of the generator *)
  randomHex : nat -> Z -> string;
  (** [n.toString(36)] *)
  base36 : Z -> string;
  (** [Number.parseInt(s, 10)], [None] when it is not finite *)
  parseInt : string -> option Z;
  (** [process.env.NEXT_PUBLIC_API_BASE_URL?.trim() || "http://127.0.0.1:8000"] *)
  API_BASE_URL : string
}.

Record Browser : Type := mkBrowser {
  now : Z;
  entropy : nat;
  storage : gmap string StoredItem;
  netlog : list Request;
  pathname : string;
  search : string;
  (** target of [window.location.replace]: return path and reason *)
  replacedWith : option (string * Auth.AuthFailureReason)
}.

(** State of [useClientAuth]. *)
Record AuthHook : Type := mkAuthHook {
  authRef : option Auth.ClientAuthState;
  authState : option Auth.ClientAuthState;
  tokenDraft : string;
  authFailureReason : option Auth.AuthFailureReason
}.

(** State of [InterviewContent]. *)
Record Page : Type := mkPage {
  pageContextKey : string;
  formPosition : string;
  formJdText : string;
  formResumeText : string;
  records : list InterviewSessionRecord;
  selectedRecordKey : string;
  currentSession : option InterviewSessionRecord;
  answerInput : string;
  loading : bool;
  error : string;
  notice : string
}.

Record World : Type := mkWorld {
  browser : Browser;
  auth : AuthHook;
  page : Page
}.

(** A computation that reads and writes the world and may throw.  The
    error value is never inspected by a handler of this code, so it is not
    carried. *)
Inductive Result (A : Type) : Type :=
| Ok (a : A)
| Throw.

Arguments Ok {A} a.
Arguments Throw {A}.

Definition M (A : Type) : Type := World -> Result A * World.

Definition ret {A} (a : A) : M A := fun w => (Ok a, w).

Definition bind {A B} (m : M A) (k : A -> M B) : M B :=
  fun w =>
    match m w with
    | (Ok a, w') => k a w'
    | (Throw, w') => (Throw, w')
    end.

Definition throw {A} : M A := fun w => (Throw, w).

(** [try { m } catch { handler }] *)
Definition tryCatch {A} (m : M A) (handler : M A) : M A :=
  fun w =>
    match m w with
    | (Ok a, w') => (Ok a, w')
    | (Throw, w') => handler w'
    end.

(** [try { m } finally { cleanup }] *)
Definition tryFinally {A} (m : M A) (cleanup : M unit) : M A :=
  fun w =>
    match m w with
    | (r, w') => (r, snd (cleanup w'))
    end.

(** The result of [m] as a value: [Throw] is caught. *)
Definition attempt {A} (m : M A) : M (Result A) :=
  fun w => match m w with (r, w') => (Ok r, w') end.

Declare Scope js_scope.
Delimit Scope js_scope with js.
Notation "x <- m ;; k" := (bind m (fun x => k))
  (at level 100, m at next level, right associativity) : js_scope.
Notation "m ;;; k" := (bind m (fun _ => k))
  (at level 100, right associativity) : js_scope.
Local Open Scope js_scope.

Definition get : M World := fun w => (Ok w, w).
Definition modify (f : World -> World) : M unit := fun w => (Ok tt, f w).

Definition withBrowser (f : Browser -> Browser) (w : World) : World :=
  mkWorld (f (browser w)) (auth w) (page w).
Definition withAuth (f : AuthHook -> AuthHook) (w : World) : World :=
  mkWorld (browser w) (f (auth w)) (page w).
Definition withPage (f : Page -> Page) (w : World) : World :=
  mkWorld (browser w) (auth w) (f (page w)).

Definition dateNow : M Z := fun w => (Ok (now (browser w)), w).

Section WithPlatform.
Context `{Platform}.

(** [fetch(request)]: the request is logged, the clock moves to the time
    of completion, a network failure throws. *)
Definition fetch (rq : Request) : M Response :=
  fun w =>
    let b := browser w in
    let '(t, out) := network (netlog b) (now b) rq in
    let w' := withBrowser (fun b =>
      mkBrowser t (entropy b) (storage b) (netlog b ++ [rq])
                (pathname b) (search b) (replacedWith b)) w in
    match out with
    | NetError => (Throw, w')
    | NetReply r => (Ok r, w')
    end.

(** One call of [randomHex]. *)
Definition drawHex (len : Z) : M string :=
  fun w =>
    let b := browser w in
    (Ok (randomHex (entropy b) len),
     withBrowser (fun b =>
       mkBrowser (now b) (S (entropy b)) (storage b) (netlog b)
                 (pathname b) (search b) (replacedWith b)) w).

Definition isoNow : M string :=
  t <- dateNow ;; ret (toISOString t).

End WithPlatform.

(** ** The client auth module *)

Module AuthClient.
Import Auth.

Record RequestInit : Type := mkInit {
  imethod : Method;
  ibody : jsval
}.

Record UseClientAuthOptions : Type := mkOptions {
  autoRedirectOnUnauthorized : option bool;
  loginPath : option string
}.

(** [typeof value.k === "string" ? value.k.trim() : ""] *)
Definition trimmedField (v : jsval) (k : string) : string :=
  match prop v k with
  | VStr s => trim s
  | _ => ""
  end.

(** [s || null] *)
Definition orNull (s : string) : option string :=
  if isBlank s then None else Some s.

(** [Boolean(state.refreshToken)] *)
Definition hasRefreshToken (s : ClientAuthState) : bool :=
  match refreshToken s with
  | Some r => negb (isBlank r)
  | None => false
  end.

Definition modeText (m : ClientAuthMode) : string :=
  match m with
  | local => "local"
  | custom => "custom"
  end.

Definition optStr (o : option string) : jsval :=
  match o with
  | Some s => VStr s
  | None => VNull
  end.

(** The value [JSON.parse] reads back from [JSON.stringify(state)]. *)
Definition encodeAuth (s : ClientAuthState) : jsval :=
  VObj [ ("sessionId", VStr (sessionId s));
         ("accessToken", VStr (accessToken s));
         ("refreshToken", optStr (refreshToken s));
         ("mode", VStr (modeText (mode s)));
         ("updatedAt", VStr (updatedAt s));
         ("userName", optStr (userName s));
         ("expiresAt", optStr (expiresAt s)) ].

Definition toSafeReturnTo (value : string) : string :=
  if isBlank value then "/"
  else if negb (String.prefix "/" value) then "/"
  else if String.prefix "//" value then "/"
  else value.

(** [/^https?:\/\//i.test(input)] *)
Definition isHttpUrl (input : string) : bool :=
  let l := toLowerCase input in
  String.prefix "http://" l || String.prefix "https://" l.

Definition toAbsoluteInput (apiBaseUrl input : string) : string :=
  if isHttpUrl input then input
  else
    let normalizedPath :=
      if String.prefix "/" input then input else "/" +:+ input in
    apiBaseUrl +:+ normalizedPath.

(** The first of [keys] under which [fs] holds a string that is not blank
    once trimmed. *)
Fixpoint directString (keys : list string) (fs : list (string * jsval))
    : option string :=
  match keys with
  | [] => None
  | k :: rest =>
      match assoc k fs with
      | VStr s =>
          if isBlank (trim s) then directString rest fs else Some (trim s)
      | _ => directString rest fs
      end
  end.

Definition orElseOpt {A} (a b : option A) : option A :=
  match a with
  | Some _ => a
  | None => b
  end.

Fixpoint extractTokenFromPayload (payload : jsval) : option string :=
  match payload with
  | VObj fs =>
      match directString
              ["accessToken"; "access_token"; "token"; "jwt"; "sessionToken"]
              fs with
      | Some t => Some t
      | None =>
          let nested :=
            fix nested (k : string) (l : list (string * jsval))
                : option string :=
              match l with
              | [] => None
              | (k', v) :: rest =>
                  if String.eqb k k' then extractTokenFromPayload v
                  else nested k rest
              end in
          orElseOpt (nested "data" fs)
            (orElseOpt (nested "item" fs)
               (orElseOpt (nested "session" fs) (nested "auth" fs)))
      end
  | _ => None
  end.

Fixpoint extractRefreshTokenFromPayload (payload : jsval) : option string :=
  match payload with
  | VObj fs =>
      match directString ["refreshToken"; "refresh_token"; "refresh"] fs with
      | Some t => Some t
      | None =>
          let nested :=
            fix nested (k : string) (l : list (string * jsval))
                : option string :=
              match l with
              | [] => None
              | (k', v) :: rest =>
                  if String.eqb k k' then extractRefreshTokenFromPayload v
                  else nested k rest
              end in
          orElseOpt (nested "data" fs)
            (orElseOpt (nested "item" fs)
               (orElseOpt (nested "session" fs) (nested "auth" fs)))
      end
  | _ => None
  end.

Fixpoint extractUserNameFromPayload (payload : jsval) : option string :=
  match payload with
  | VObj fs =>
      match directString ["userName"; "username"; "name"] fs with
      | Some t => Some t
      | None =>
          (fix user (l : list (string * jsval)) : option string :=
             match l with
             | [] => None
             | (k', v) :: rest =>
                 if String.eqb "user" k' then extractUserNameFromPayload v
                 else user rest
             end) fs
      end
  | _ => None
  end.

Section WithPlatform.
Context `{Platform}.
Variable options : UseClientAuthOptions.

(** [isAuthExpired(state)] when [Date.now()] is [t] *)
Definition isAuthExpiredAt (t : Z) (s : ClientAuthState) : bool :=
  match expiresAt s with
  | None => false
  | Some e =>
      if isBlank e then false
      else match parseDate e with
           | None => false
           | Some expiresAtMs => expiresAtMs <=? t
           end
  end.

Definition isAuthExpired (s : ClientAuthState) : M bool :=
  t <- dateNow ;; ret (isAuthExpiredAt t s).

(** [state.mode === "custom" && isAuthExpired(state) && !state.refreshToken] *)
Definition expiredWithoutRefreshAt (t : Z) (s : ClientAuthState) : bool :=
  bool_decide (mode s = custom) && isAuthExpiredAt t s
  && negb (hasRefreshToken s).

Definition extractExpiresAtFromPayload (payload : jsval) : M (option string) :=
  match payload with
  | VObj fs =>
      match directString ["expiresAt"; "expires_at"; "expiry"; "expiredAt"] fs
      with
      | Some t => ret (Some t)
      | None =>
          match nullish (assoc "expiresIn" fs)
                  (nullish (assoc "expires_in" fs) (assoc "ttlSeconds" fs)) with
          | VNum expiresIn =>
              if 0 <? expiresIn
              then t <- dateNow ;; ret (Some (toISOString (t + expiresIn * 1000)))
              else ret None
          | _ => ret None
          end
      end
  | _ => ret None
  end.

Definition generateSessionId : M string :=
  t <- dateNow ;;
  h <- drawHex 12 ;;
  ret ("sess_" +:+ base36 t +:+ "_" +:+ h).

Definition generateAccessToken : M string :=
  h <- drawHex 28 ;; ret ("local_" +:+ h).

Definition createGuestAuthState : M ClientAuthState :=
  sid <- generateSessionId ;;
  tok <- generateAccessToken ;;
  iso <- isoNow ;;
  ret (mkAuth sid tok None local iso None None).

Definition normalizeClientAuthState (value : jsval)
    : M (option ClientAuthState) :=
  if negb (isRecord value) then ret None
  else
    let sessionId := trimmedField value "sessionId" in
    let accessToken := trimmedField value "accessToken" in
    let modeRaw :=
      match prop value "mode" with
      | VStr s => toLowerCase (trim s)
      | _ => ""
      end in
    let mode := if String.eqb modeRaw "custom" then custom else local in
    if isBlank sessionId || isBlank accessToken then ret None
    else
      let userNameRaw := trimmedField value "userName" in
      let expiresAtRaw := trimmedField value "expiresAt" in
      let refreshTokenRaw := trimmedField value "refreshToken" in
      updatedAt <-
        match prop value "updatedAt" with
        | VStr s => if isBlank s then isoNow else ret s
        | _ => isoNow
        end ;;
      let normalized :=
        mkAuth sessionId accessToken (orNull refreshTokenRaw) mode updatedAt
               (orNull userNameRaw) (orNull expiresAtRaw) in
      t <- dateNow ;;
      if expiredWithoutRefreshAt t normalized then ret None
      else ret (Some normalized).

Definition setStorage (f : gmap string StoredItem -> gmap string StoredItem)
    : M unit :=
  modify (withBrowser (fun b =>
    mkBrowser (now b) (entropy b) (f (storage b)) (netlog b)
              (pathname b) (search b) (replacedWith b))).

Definition clearClientAuthState : M unit :=
  setStorage (fun st => delete LEGACY_STORAGE_KEY (delete STORAGE_KEY st)).

Definition loadClientAuthState : M (option ClientAuthState) :=
  w <- get ;;
  let st := storage (browser w) in
  match orElseOpt (st !! STORAGE_KEY) (st !! LEGACY_STORAGE_KEY) with
  | None => ret None
  | Some Unparsable => ret None
  | Some (Json parsed) =>
      normalized <- normalizeClientAuthState parsed ;;
      match normalized with
      | None => clearClientAuthState ;;; ret None
      | Some s => ret (Some s)
      end
  end.

(** The write is taken to succeed; when it throws the code keeps the value
    in memory only. *)
Definition saveClientAuthState (s : ClientAuthState) : M ClientAuthState :=
  setStorage (fun st => <[STORAGE_KEY := Json (encodeAuth s)]> st) ;;;
  ret s.

Definition getOrCreateClientAuthState : M ClientAuthState :=
  current <- loadClientAuthState ;;
  match current with
  | Some s => ret s
  | None => guest <- createGuestAuthState ;; saveClientAuthState guest
  end.

Definition buildInitWithAuth (input : string) (init : option RequestInit)
    (s : ClientAuthState) : Request :=
  {| url := input;
     method := match init with Some i => imethod i | None => GET end;
     body := match init with Some i => ibody i | None => VUndef end;
     xSessionId := Some (sessionId s);
     authorization := Some (accessToken s);
     xClientAuthMode := Some (mode s);
     xUserName := match userName s with
                  | Some u => if isBlank u then None else Some u
                  | None => None
                  end |}.

Definition syncAuthStateFromResponse (current : ClientAuthState)
    (response : Response) : M ClientAuthState :=
  match rsessionHeader response with
  | None => ret current
  | Some h =>
      let responseSessionId := trim h in
      if isBlank responseSessionId
         || String.eqb responseSessionId (sessionId current)
      then ret current
      else
        iso <- isoNow ;;
        saveClientAuthState
          (mkAuth responseSessionId (accessToken current)
                  (refreshToken current) (mode current) iso
                  (userName current) (expiresAt current))
  end.

Definition authFetch (input : string) (init : option RequestInit)
    (authState : option ClientAuthState) : M (Response * ClientAuthState) :=
  current <- match authState with
             | Some s => ret s
             | None => getOrCreateClientAuthState
             end ;;
  response <- fetch (buildInitWithAuth input init current) ;;
  next <- syncAuthStateFromResponse current response ;;
  ret (response, next).

Definition refreshEndpoints : list string :=
  [ "/api/auth/refresh"; "/api/auth/token/refresh";
    "/api/auth/session/refresh"; "/api/auth/login/refresh" ].

Definition refreshPayloads (current : ClientAuthState) : list jsval :=
  [ VObj [("refreshToken", optStr (refreshToken current));
          ("sessionId", VStr (sessionId current))];
    VObj [("refresh_token", optStr (refreshToken current));
          ("session_id", VStr (sessionId current))];
    VObj [("token", optStr (refreshToken current));
          ("sessionId", VStr (sessionId current))] ].

Definition refreshRequest (apiBaseUrl endpoint : string)
    (current : ClientAuthState) (payload : jsval) : Request :=
  {| url := apiBaseUrl +:+ endpoint;
     method := POST;
     body := payload;
     xSessionId := Some (sessionId current);
     authorization := None;
     xClientAuthMode := None;
     xUserName := None |}.

(** The inner loop of [tryAutoRefreshAuth] over the payload shapes of one
    endpoint: [Some] is the [return] of the function, [None] is reached by
    [break] or at the end of the shapes. *)
Fixpoint refreshAtEndpoint (apiBaseUrl endpoint : string)
    (current : ClientAuthState) (payloads : list jsval)
    : M (option ClientAuthState) :=
  match payloads with
  | [] => ret None
  | payload :: rest =>
      r <- attempt (fetch (refreshRequest apiBaseUrl endpoint current payload)) ;;
      match r with
      | Throw => refreshAtEndpoint apiBaseUrl endpoint current rest
      | Ok response =>
          if (rstatus response =? 404) || (rstatus response =? 405)
          then ret None
          else if negb (rok response)
          then refreshAtEndpoint apiBaseUrl endpoint current rest
          else
            let data := rjson response in
            match extractTokenFromPayload data with
            | None => refreshAtEndpoint apiBaseUrl endpoint current rest
            | Some nextAccessToken =>
                let nextRefreshToken :=
                  orElseOpt (extractRefreshTokenFromPayload data)
                            (refreshToken current) in
                extracted <- extractExpiresAtFromPayload data ;;
                let nextExpiresAt :=
                  orElseOpt extracted (expiresAt current) in
                let nextUserName :=
                  orElseOpt (extractUserNameFromPayload data)
                            (userName current) in
                let nextSessionId :=
                  match rsessionHeader response with
                  | Some h => orStr (trim h) (sessionId current)
                  | None => sessionId current
                  end in
                iso <- isoNow ;;
                ret (Some (mkAuth nextSessionId nextAccessToken
                                  nextRefreshToken custom iso nextUserName
                                  nextExpiresAt))
            end
      end
  end.

Fixpoint refreshOverEndpoints (apiBaseUrl : string) (endpoints : list string)
    (current : ClientAuthState) : M (option ClientAuthState) :=
  match endpoints with
  | [] => ret None
  | endpoint :: rest =>
      r <- refreshAtEndpoint apiBaseUrl endpoint current
             (refreshPayloads current) ;;
      match r with
      | Some s => ret (Some s)
      | None => refreshOverEndpoints apiBaseUrl rest current
      end
  end.

Definition tryAutoRefreshAuth (apiBaseUrl : string)
    (current : ClientAuthState) : M (option ClientAuthState) :=
  if negb (hasRefreshToken current) then ret None
  else refreshOverEndpoints apiBaseUrl refreshEndpoints current.

Definition setAuthFailureReason (r : option AuthFailureReason) : M unit :=
  modify (withAuth (fun a =>
    mkAuthHook (authRef a) (authState a) (tokenDraft a) r)).

(** [authRef.current = s; setAuthState(s); setTokenDraft(s.accessToken)] *)
Definition adopt (s : ClientAuthState) : M unit :=
  modify (withAuth (fun a =>
    mkAuthHook (Some s) (Some s) (accessToken s) (authFailureReason a))).

Definition persistState (next : ClientAuthState) : M ClientAuthState :=
  t <- dateNow ;;
  fallbackToGuest <-
    (if expiredWithoutRefreshAt t next then createGuestAuthState
     else ret next) ;;
  saved <- saveClientAuthState fallbackToGuest ;;
  adopt saved ;;;
  ret saved.

Definition ensureAuthState : M ClientAuthState :=
  w <- get ;;
  match authRef (auth w) with
  | Some current =>
      t <- dateNow ;;
      if expiredWithoutRefreshAt t current
      then guest <- createGuestAuthState ;; persistState guest
      else ret current
  | None =>
      fallback <- getOrCreateClientAuthState ;;
      adopt fallback ;;;
      ret fallback
  end.

Definition shouldSkipAutoRedirect (loginPath : string) : M bool :=
  w <- get ;;
  let p := orStr (pathname (browser w)) "/" in
  ret (String.eqb p loginPath || String.prefix (loginPath +:+ "/") p).

Definition getCurrentReturnToPath : M string :=
  w <- get ;;
  ret (toSafeReturnTo (pathname (browser w) +:+ search (browser w))).

(** [window.location.replace(buildLoginHref(returnTo, reason))] *)
Definition locationReplace (returnTo : string) (reason : AuthFailureReason)
    : M unit :=
  modify (withBrowser (fun b =>
    mkBrowser (now b) (entropy b) (storage b) (netlog b)
              (pathname b) (search b)
              (Some (toSafeReturnTo returnTo, reason)))).

Definition authChanged (a b : ClientAuthState) : bool :=
  negb (String.eqb (sessionId a) (sessionId b))
  || negb (String.eqb (accessToken a) (accessToken b))
  || negb (bool_decide (mode a = mode b))
  || negb (String.eqb (updatedAt a) (updatedAt b))
  || negb (bool_decide (refreshToken a = refreshToken b)).

(** The part of [apiFetch] after a 401 under an authenticated credential
    whose refresh did not save the call: the reason is set, the credential
    is downgraded and the page may be redirected. *)
Definition downgrade (hadRefreshToken : bool) (current : ClientAuthState)
    (response : Response) : M Response :=
  reason <-
    (if hadRefreshToken then ret refresh_failed
     else
       e <- isAuthExpired current ;;
       ret (if e then expired else unauthorized)) ;;
  setAuthFailureReason (Some reason) ;;;
  guest <- createGuestAuthState ;;
  persistState guest ;;;
  skip <- shouldSkipAutoRedirect
            (match loginPath options with
             | Some p => orStr (trim p) "/login"
             | None => "/login"
             end) ;;
  (if match autoRedirectOnUnauthorized options with
      | Some b => b
      | None => false
      end && negb skip
   then
     returnTo <- getCurrentReturnToPath ;;
     locationReplace returnTo reason
   else ret tt) ;;;
  ret response.

Definition apiFetch (apiBaseUrl : string) (input : string)
    (init : option RequestInit) : M Response :=
  let requestInput := toAbsoluteInput apiBaseUrl input in
  current <- ensureAuthState ;;
  result <- authFetch requestInput init (Some current) ;;
  (if authChanged (snd result) current
   then persistState (snd result) ;;; ret tt
   else ret tt) ;;;
  if negb (rstatus (fst result) =? 401)
     || negb (bool_decide (mode current = custom))
  then ret (fst result)
  else
    let hadRefreshToken := hasRefreshToken current in
    refreshCandidate <-
      (if hadRefreshToken then tryAutoRefreshAuth apiBaseUrl current
       else ret None) ;;
    match refreshCandidate with
    | Some candidate =>
        refreshedState <- persistState candidate ;;
        setAuthFailureReason None ;;;
        retry <- authFetch requestInput init (Some refreshedState) ;;
        if rok (fst retry) || negb (rstatus (fst retry) =? 401)
        then persistState (snd retry) ;;; ret (fst retry)
        else downgrade hadRefreshToken current (fst retry)
    | None => downgrade hadRefreshToken current (fst result)
    end.

End WithPlatform.
End AuthClient.

(** ** The interview page: decoding of payloads and stored records *)

Module Interview.

Record EndpointCandidate : Type := mkCandidate {
  path : string;
  cmethod : Method
}.

Record StartOptions : Type := mkStartOptions {
  optPosition : option string;
  optJdText : option string;
  optResumeText : option string;
  silent : option bool
}.

Definition toInterviewQuestion (value : jsval) (fallbackId : string)
    : option InterviewQuestion :=
  match value with
  | VStr s =>
      let text := trim s in
      if isBlank text then None
      else Some (mkQuestion fallbackId text [] None None None)
  | _ =>
      if negb (isRecord value) then None
      else
        let text :=
          trim (toSafeString
                  (orJs (orJs (orJs (prop value "text") (prop value "question"))
                              (prop value "questionText"))
                        (prop value "prompt")) "") in
        if isBlank text then None
        else
          let id :=
            orStr (trim (toSafeString
                           (orJs (orJs (orJs (prop value "id")
                                             (prop value "questionId"))
                                       (prop value "qid"))
                                 (prop value "index")) fallbackId))
                  fallbackId in
          let tips :=
            toStringArray
              (nullish (nullish (prop value "tips") (prop value "hints"))
                       (prop value "keyPoints")) in
          Some (mkQuestion id text tips
                  (toSafeNumber (prop value "index"))
                  (Some (toSafeString (prop value "category") ""))
                  (Some (toSafeString (prop value "focus") "")))
  end.

(** [raw.map((item, index) => toInterviewQuestion(item, `q-${index + 1}`))
        .filter((item) => item !== null)] *)
Definition mapQuestions (raw : list jsval) : list InterviewQuestion :=
  omap id
    (imap (fun index item =>
             toInterviewQuestion item ("q-" +:+ pretty (index + 1)%nat)) raw).

Fixpoint firstQuestionList (listCandidates : list jsval)
    : option (list InterviewQuestion) :=
  match listCandidates with
  | [] => None
  | VArr raw :: rest =>
      match mapQuestions raw with
      | [] => firstQuestionList rest
      | mapped => Some mapped
      end
  | _ :: rest => firstQuestionList rest
  end.

Definition toQuestionList (payload : jsval) : list InterviewQuestion :=
  if negb (isRecord payload) then []
  else
    match firstQuestionList
            [prop payload "questions"; prop payload "questionList";
             prop payload "items"; prop payload "bank"] with
    | Some mapped => mapped
    | None =>
        match toInterviewQuestion
                (nullish (nullish (prop payload "currentQuestion")
                                  (prop payload "question"))
                         (prop payload "nextQuestion")) "q-1" with
        | Some single => [single]
        | None => []
        end
    end.

Definition toInterviewFeedback (payload : jsval) : option InterviewFeedback :=
  if negb (isRecord payload) then None
  else
    let maybeFeedback :=
      if isRecord (prop payload "feedback") then prop payload "feedback"
      else if isRecord (prop payload "feedbackDraft")
      then prop payload "feedbackDraft"
      else payload in
    let summary :=
      trim (toSafeString
              (orJs (orJs (prop maybeFeedback "summary")
                          (prop maybeFeedback "overall"))
                    (prop maybeFeedback "comment")) "") in
    let strengths :=
      toStringArray
        (nullish (nullish (prop maybeFeedback "strengths")
                          (prop maybeFeedback "highlights"))
                 (prop maybeFeedback "goodPoints")) in
    let improvements :=
      toStringArray
        (nullish (nullish (nullish (prop maybeFeedback "improvements")
                                   (prop maybeFeedback "suggestions"))
                          (prop maybeFeedback "gaps"))
                 (prop maybeFeedback "improvementPlan")) in
    let score :=
      toSafeNumber (nullish (prop maybeFeedback "score")
                            (prop maybeFeedback "overallScore")) in
    match summary, strengths, improvements, score with
    | EmptyString, [], [], None => None
    | _, _, _, _ =>
        Some (mkFeedback
                (orStr summary "本次练习已完成，继续打磨表达会更好。")
                strengths improvements score)
    end.

Definition extractSessionId (payload : jsval) : string :=
  if negb (isRecord payload) then ""
  else
    let direct :=
      toSafeString
        (orJs (orJs (prop payload "sessionId") (prop payload "session_id"))
              (prop payload "id")) "" in
    if negb (isBlank direct) then direct
    else
      let session := prop payload "session" in
      if isRecord session
      then toSafeString
             (orJs (orJs (orJs (prop session "id") (prop session "sessionId"))
                         (prop session "session_id"))
                   (prop session "sessionToken")) ""
      else "".

Definition normalizeStatus (value : jsval) : InterviewStatus :=
  let raw := toLowerCase (toSafeString value "") in
  if String.eqb raw "paused" then paused
  else if String.eqb raw "finished" || String.eqb raw "completed"
          || String.eqb raw "done"
  then finished
  else active.

Definition orZero (o : option Z) : Z :=
  match o with
  | Some n => n
  | None => 0
  end.

(** [normalizeRemoteSession(value)] when [new Date().toISOString()] is
    [nowIso] *)
Definition normalizeRemoteSessionAt (nowIso : string) (value : jsval)
    : option InterviewSessionRecord :=
  if negb (isRecord value) then None
  else
    let id := toSafeNumber (prop value "id") in
    let sessionToken :=
      trim (toSafeString
              (orJs (orJs (prop value "sessionToken") (prop value "session_id"))
                    (prop value "sessionId")) "") in
    match id with
    | None => None
    | Some idn =>
        if (idn =? 0) || isBlank sessionToken then None
        else
          let createdAt :=
            orStr (toSafeString (prop value "createdAt") "") nowIso in
          let updatedAt :=
            orStr (toSafeString (prop value "updatedAt") "") createdAt in
          Some {| key := "remote-history-" +:+ pretty idn;
                  sessionId := sessionToken;
                  mode := remote;
                  status := normalizeStatus (prop value "status");
                  position := "";
                  jdText := "";
                  resumeText := "";
                  resumeContextKey :=
                    Some (toSafeString (prop value "resumeContextKey") "");
                  createdAt := createdAt;
                  updatedAt := updatedAt;
                  questionCount :=
                    orZero (toSafeNumber (prop value "questionCount"));
                  answeredCount :=
                    orZero (toSafeNumber (prop value "answeredCount"));
                  currentIndex :=
                    Z.max 0 (orZero (toSafeNumber (prop value "currentIndex")));
                  questions := [];
                  answers := ∅;
                  feedback := None;
                  remoteNumericId := Some idn |}
    end.

(** [Object.entries(value)] of a record *)
Definition entries (v : jsval) : list (string * jsval) :=
  match v with
  | VObj fs => fs
  | VArr items => imap (fun i item => (pretty i, item)) items
  | _ => []
  end.

(** The string-valued entries as a map; as in [assoc], the first entry of
    a name is the one the object holds. *)
Definition stringEntries (v : jsval) : gmap string string :=
  list_to_map
    (omap (fun kv => match snd kv with
                     | VStr s => Some (fst kv, s)
                     | _ => None
                     end) (entries v)).

Definition normalizeRecord (value : jsval) : option InterviewSessionRecord :=
  if negb (isRecord value) then None
  else
    let key := toSafeString (prop value "key") "" in
    let sessionId := toSafeString (prop value "sessionId") "" in
    if isBlank key || isBlank sessionId then None
    else
      let modeRaw := toLowerCase (toSafeString (prop value "mode") "") in
      let mode := if String.eqb modeRaw "remote" then remote else local in
      let rawQuestions :=
        match prop value "questions" with
        | VArr l => l
        | _ => []
        end in
      let questions := mapQuestions rawQuestions in
      let answersRaw :=
        if isRecord (prop value "answers") then prop value "answers"
        else VObj [] in
      let answers := stringEntries answersRaw in
      Some {| key := key;
              sessionId := sessionId;
              mode := mode;
              status := normalizeStatus (prop value "status");
              position := toSafeString (prop value "position") "";
              jdText := toSafeString (prop value "jdText") "";
              resumeText := toSafeString (prop value "resumeText") "";
              resumeContextKey :=
                Some (toSafeString (prop value "resumeContextKey") "");
              createdAt := toSafeString (prop value "createdAt") "";
              updatedAt := toSafeString (prop value "updatedAt") "";
              questionCount :=
                match toSafeNumber (prop value "questionCount") with
                | Some n => n
                | None => Z.of_nat (length questions)
                end;
              answeredCount :=
                match toSafeNumber (prop value "answeredCount") with
                | Some n => n
                | None => Z.of_nat (size answers)
                end;
              currentIndex :=
                orZero (toSafeNumber (prop value "currentIndex"));
              questions := questions;
              answers := answers;
              feedback := toInterviewFeedback (prop value "feedback");
              remoteNumericId := toSafeNumber (prop value "remoteNumericId") |}.

(** ** The session store *)

Definition findIndex {A} (f : A -> bool) (l : list A) : option nat :=
  fst <$> list_find (fun x => f x = true) l.

(** [list.slice(0, 50)] *)
Definition cap50 {A} (l : list A) : list A := take 50 l.

(** The body of [scopedRemoteItems.forEach] in [syncRemoteSessions]. *)
Definition mergeRemoteItem (ctx : string)
    (merged : list InterviewSessionRecord) (record : InterviewSessionRecord)
    : list InterviewSessionRecord :=
  match findIndex (fun item =>
          bool_decide (remoteNumericId item = remoteNumericId record)
          || String.eqb (sessionId item) (sessionId record)) merged with
  | Some existsIndex =>
      match merged !! existsIndex with
      | None => merged
      | Some existing =>
          <[existsIndex :=
              {| key := key existing;
                 sessionId := sessionId record;
                 mode := mode record;
                 status := status record;
                 position := position record;
                 jdText := jdText record;
                 resumeText := resumeText record;
                 resumeContextKey :=
                   match resumeContextKey existing with
                   | Some e => if isBlank e
                               then match resumeContextKey record with
                                    | Some r => Some (orStr r ctx)
                                    | None => Some ctx
                                    end
                               else Some e
                   | None => match resumeContextKey record with
                             | Some r => Some (orStr r ctx)
                             | None => Some ctx
                             end
                   end;
                 createdAt := createdAt record;
                 updatedAt := updatedAt record;
                 questionCount := questionCount record;
                 answeredCount := answeredCount record;
                 currentIndex := currentIndex record;
                 questions := match questions existing with
                              | [] => questions record
                              | qs => qs
                              end;
                 answers := answers record;
                 feedback := match feedback existing with
                             | Some f => Some f
                             | None => feedback record
                             end;
                 remoteNumericId := remoteNumericId record |}]> merged
      end
  | None => merged ++ [record]
  end.

Definition mergeRemoteSessions (ctx : string)
    (prev scopedRemoteItems : list InterviewSessionRecord)
    : list InterviewSessionRecord :=
  cap50 (foldl (mergeRemoteItem ctx) prev scopedRemoteItems).

(** ** The session lifecycle engine *)

Definition withMode (r : InterviewSessionRecord) (m : InterviewMode)
    : InterviewSessionRecord :=
  mkRecord (key r) (sessionId r) m (status r) (position r) (jdText r)
    (resumeText r) (resumeContextKey r) (createdAt r) (updatedAt r)
    (questionCount r) (answeredCount r) (currentIndex r) (questions r)
    (answers r) (feedback r) (remoteNumericId r).

Definition withStatus (r : InterviewSessionRecord) (s : InterviewStatus)
    : InterviewSessionRecord :=
  mkRecord (key r) (sessionId r) (mode r) s (position r) (jdText r)
    (resumeText r) (resumeContextKey r) (createdAt r) (updatedAt r)
    (questionCount r) (answeredCount r) (currentIndex r) (questions r)
    (answers r) (feedback r) (remoteNumericId r).

Definition withAnswers (r : InterviewSessionRecord) (a : gmap string string)
    : InterviewSessionRecord :=
  mkRecord (key r) (sessionId r) (mode r) (status r) (position r) (jdText r)
    (resumeText r) (resumeContextKey r) (createdAt r) (updatedAt r)
    (questionCount r) (answeredCount r) (currentIndex r) (questions r)
    a (feedback r) (remoteNumericId r).

Definition withCurrentIndex (r : InterviewSessionRecord) (i : Z)
    : InterviewSessionRecord :=
  mkRecord (key r) (sessionId r) (mode r) (status r) (position r) (jdText r)
    (resumeText r) (resumeContextKey r) (createdAt r) (updatedAt r)
    (questionCount r) (answeredCount r) i (questions r)
    (answers r) (feedback r) (remoteNumericId r).

Definition withQuestions (r : InterviewSessionRecord)
    (qs : list InterviewQuestion) : InterviewSessionRecord :=
  mkRecord (key r) (sessionId r) (mode r) (status r) (position r) (jdText r)
    (resumeText r) (resumeContextKey r) (createdAt r) (updatedAt r)
    (questionCount r) (answeredCount r) (currentIndex r) qs
    (answers r) (feedback r) (remoteNumericId r).

Definition withFeedback (r : InterviewSessionRecord)
    (f : option InterviewFeedback) : InterviewSessionRecord :=
  mkRecord (key r) (sessionId r) (mode r) (status r) (position r) (jdText r)
    (resumeText r) (resumeContextKey r) (createdAt r) (updatedAt r)
    (questionCount r) (answeredCount r) (currentIndex r) (questions r)
    (answers r) f (remoteNumericId r).

(** What [applySessionPatch] lays over the updated record. *)
Definition stamp (next : InterviewSessionRecord) (nowIso : string)
    : InterviewSessionRecord :=
  mkRecord (key next) (sessionId next) (mode next) (status next)
    (position next) (jdText next) (resumeText next) (resumeContextKey next)
    (createdAt next) nowIso
    (Z.max (questionCount next) (Z.of_nat (length (questions next))))
    (Z.of_nat (size (answers next)))
    (currentIndex next) (questions next) (answers next) (feedback next)
    (remoteNumericId next).

(** [questions[index] ?? null] *)
Definition questionAt (qs : list InterviewQuestion) (index : Z)
    : option InterviewQuestion :=
  if index <? 0 then None else qs !! Z.to_nat index.

Definition currentQuestion (s : option InterviewSessionRecord)
    : option InterviewQuestion :=
  match s with
  | Some cur => questionAt (questions cur) (currentIndex cur)
  | None => None
  end.

Definition hasQuestion (qs : list InterviewQuestion) (id : string) : bool :=
  existsb (fun item => String.eqb (qid item) id) qs.

(** The updater that [submitAnswer] and [nextQuestion] apply after a
    reply: the question list with the reported question appended when its
    id is new, and the index before it is clamped. *)
Definition adoptQuestions (prev : InterviewSessionRecord)
    (maybeNext : option InterviewQuestion) : list InterviewQuestion :=
  match maybeNext with
  | Some nq =>
      if negb (hasQuestion (questions prev) (qid nq))
      then questions prev ++ [nq]
      else questions prev
  | None => questions prev
  end.

Definition adoptIndex (prev : InterviewSessionRecord)
    (qs : list InterviewQuestion) (maybeNext : option InterviewQuestion)
    (remoteIndex : option Z) : Z :=
  match remoteIndex with
  | Some n => Z.max 0 n
  | None =>
      match maybeNext with
      | Some nq =>
          match findIndex (fun item => String.eqb (qid item) (qid nq)) qs with
          | Some idx => Z.of_nat idx
          | None => currentIndex prev
          end
      | None => currentIndex prev
      end
  end.

Definition clampIndex (nextIndex : Z) (qs : list InterviewQuestion) : Z :=
  Z.min nextIndex (Z.max (Z.of_nat (length qs) - 1) 0).

(** The updaters handed to [applySessionPatch], in the order of the
    source: the optimistic write of [submitAnswer], its reconciliation with
    the reply, the reconciliation of [nextQuestion], the local step of
    [nextQuestion] and the completion of [endSession].  The remaining ones
    ([mode: "local"], [status: ...]) are [withMode] and [withStatus]. *)
Definition answerPatch (questionId trimmed : string)
    (prev : InterviewSessionRecord) : InterviewSessionRecord :=
  withAnswers prev (<[questionId := trimmed]> (answers prev)).

Definition submitReplyPatch (maybeNext : option InterviewQuestion)
    (remoteIndex : option Z) (remoteStatus : InterviewStatus)
    (prev : InterviewSessionRecord) : InterviewSessionRecord :=
  let qs := adoptQuestions prev maybeNext in
  let nextIndex := adoptIndex prev qs maybeNext remoteIndex in
  withQuestions
    (withCurrentIndex (withStatus prev remoteStatus) (clampIndex nextIndex qs))
    qs.

(** [statusValue] is [sessionPayload.status]. *)
Definition nextReplyPatch (maybeNext : option InterviewQuestion)
    (remoteIndex : option Z) (statusValue : jsval)
    (prev : InterviewSessionRecord) : InterviewSessionRecord :=
  let qs := adoptQuestions prev maybeNext in
  let nextIndex := adoptIndex prev qs maybeNext remoteIndex in
  withQuestions
    (withStatus
       (withCurrentIndex prev (clampIndex nextIndex qs))
       (if truthy statusValue then normalizeStatus statusValue
        else status prev))
    qs.

Definition advanceLocally (prev : InterviewSessionRecord)
    : InterviewSessionRecord :=
  if Z.of_nat (length (questions prev)) - 1 <=? currentIndex prev
  then prev
  else withCurrentIndex prev (currentIndex prev + 1).

Definition finishLocally (prev : InterviewSessionRecord)
    (parsed : option InterviewFeedback) : InterviewSessionRecord :=
  withFeedback (withStatus prev finished)
    (Some match parsed with
          | Some f => f
          | None => buildLocalFeedback (answers prev)
                      (Z.of_nat (length (questions prev))) (position prev)
          end).

Section WithPlatform.
Context `{Platform}.

Definition setPage (f : Page -> Page) : M unit := modify (withPage f).

Definition setCurrentSession (s : option InterviewSessionRecord) : M unit :=
  setPage (fun p =>
    mkPage (pageContextKey p) (formPosition p) (formJdText p)
           (formResumeText p) (records p) (selectedRecordKey p) s
           (answerInput p) (loading p) (error p) (notice p)).

Definition setRecords
    (f : list InterviewSessionRecord -> list InterviewSessionRecord)
    : M unit :=
  setPage (fun p =>
    mkPage (pageContextKey p) (formPosition p) (formJdText p)
           (formResumeText p) (f (records p)) (selectedRecordKey p)
           (currentSession p) (answerInput p) (loading p) (error p)
           (notice p)).

Definition setSelectedRecordKey (k : string) : M unit :=
  setPage (fun p =>
    mkPage (pageContextKey p) (formPosition p) (formJdText p)
           (formResumeText p) (records p) k (currentSession p)
           (answerInput p) (loading p) (error p) (notice p)).

Definition setAnswerInput (a : string) : M unit :=
  setPage (fun p =>
    mkPage (pageContextKey p) (formPosition p) (formJdText p)
           (formResumeText p) (records p) (selectedRecordKey p)
           (currentSession p) a (loading p) (error p) (notice p)).

Definition setLoading (b : bool) : M unit :=
  setPage (fun p =>
    mkPage (pageContextKey p) (formPosition p) (formJdText p)
           (formResumeText p) (records p) (selectedRecordKey p)
           (currentSession p) (answerInput p) b (error p) (notice p)).

Definition setError (e : string) : M unit :=
  setPage (fun p =>
    mkPage (pageContextKey p) (formPosition p) (formJdText p)
           (formResumeText p) (records p) (selectedRecordKey p)
           (currentSession p) (answerInput p) (loading p) e (notice p)).

Definition setNotice (n : string) : M unit :=
  setPage (fun p =>
    mkPage (pageContextKey p) (formPosition p) (formJdText p)
           (formResumeText p) (records p) (selectedRecordKey p)
           (currentSession p) (answerInput p) (loading p) (error p) n).

(** [setPosition], [setJdText], [setResumeText] *)
Definition setForm (pos jd res : string) : M unit :=
  setPage (fun p =>
    mkPage (pageContextKey p) pos jd res (records p) (selectedRecordKey p)
           (currentSession p) (answerInput p) (loading p) (error p)
           (notice p)).

(** The page's [fetch]: [apiFetch] of
    [useClientAuth(API_BASE_URL, { autoRedirectOnUnauthorized: true })]. *)
Definition pageFetch (input : string) (init : option AuthClient.RequestInit)
    : M Response :=
  AuthClient.apiFetch (AuthClient.mkOptions (Some true) None)
    API_BASE_URL input init.

(** [callInterviewApi]: the first candidate whose reply is [ok] gives its
    data; a candidate that throws or replies otherwise (404 and 405
    included) is passed over, and after the last one the call throws. *)
Fixpoint callInterviewApi
    (fetcher : string -> option AuthClient.RequestInit -> M Response)
    (candidates : list EndpointCandidate) (payload : option jsval)
    : M jsval :=
  match candidates with
  | [] => throw
  | candidate :: rest =>
      r <- attempt
             (fetcher (API_BASE_URL +:+ path candidate)
                (Some (AuthClient.mkInit (cmethod candidate)
                         match cmethod candidate with
                         | POST => match payload with
                                   | Some pl => pl
                                   | None => VObj []
                                   end
                         | GET => VUndef
                         end))) ;;
      match r with
      | Ok response =>
          if rok response then ret (rjson response)
          else callInterviewApi fetcher rest payload
      | Throw => callInterviewApi fetcher rest payload
      end
  end.

Definition applySessionPatch
    (updater : InterviewSessionRecord -> InterviewSessionRecord) : M unit :=
  w <- get ;;
  match currentSession (page w) with
  | None => ret tt
  | Some prev =>
      iso <- isoNow ;;
      setCurrentSession (Some (stamp (updater prev) iso))
  end.

Definition orDefault (o : option string) (d : string) : string :=
  match o with
  | Some s => s
  | None => d
  end.

(** [(options?.position ?? position).trim()] *)
Definition startPosition (options : option StartOptions) (p : Page) : string :=
  trim (orDefault (match options with Some o => optPosition o | None => None end)
                  (formPosition p)).

(** [(options?.jdText ?? jdText).trim()] *)
Definition startJdText (options : option StartOptions) (p : Page) : string :=
  trim (orDefault (match options with Some o => optJdText o | None => None end)
                  (formJdText p)).

(** [jdValue || positionValue] *)
Definition startJob (options : option StartOptions) (p : Page) : string :=
  orStr (startJdText options p) (startPosition options p).

Definition startSession (options : option StartOptions) : M unit :=
  setLoading true ;;;
  setError "" ;;;
  (if match options with
      | Some o => match silent o with Some b => b | None => false end
      | None => false
      end
   then ret tt else setNotice "") ;;;
  setAnswerInput "" ;;;
  w <- get ;;
  let optPos := match options with Some o => optPosition o | None => None end in
  let optJd := match options with Some o => optJdText o | None => None end in
  let optRes :=
    match options with Some o => optResumeText o | None => None end in
  let positionValue := startPosition options (page w) in
  let jdValue := startJdText options (page w) in
  let resumeValue := trim (orDefault optRes (formResumeText (page w))) in
  let jd := startJob options (page w) in
  if isBlank jd
  then setLoading false ;;; setError "请先填写岗位方向或岗位描述。"
  else
    setForm (match optPos with
             | Some _ => positionValue
             | None => formPosition (page w)
             end)
            (match optJd with
             | Some _ => jdValue
             | None => formJdText (page w)
             end)
            (match optRes with
             | Some _ => resumeValue
             | None => formResumeText (page w)
             end) ;;;
    now <- isoNow ;;
    let ctx := pageContextKey (page w) in
    let pos := orStr positionValue (inferPositionFromJd jd) in
    tryFinally
      (tryCatch
         (let payload :=
            VObj ([("jdText", VStr jd)]
                  ++ (if isBlank resumeValue then []
                      else [("resumeText", VStr resumeValue)])
                  ++ [("questionCount", VNum 5);
                      ("resumeContextKey", VStr ctx)]) in
          data <- callInterviewApi pageFetch
                    [ mkCandidate "/api/interview/session/create" POST;
                      mkCandidate "/api/interview/session/start" POST;
                      mkCandidate "/api/interview/start" POST;
                      mkCandidate "/api/interview/session" POST ]
                    (Some payload) ;;
          let body := if isRecord data then data else VObj [] in
          let sessionPayload :=
            if isRecord (prop body "session") then prop body "session"
            else body in
          let remoteSessionId :=
            orStr (extractSessionId body) (extractSessionId sessionPayload) in
          if isBlank remoteSessionId then throw
          else
            let remoteQuestions := toQuestionList body in
            let questionList :=
              match remoteQuestions with
              | [] => buildLocalQuestions pos
              | _ => remoteQuestions
              end in
            t <- dateNow ;;
            let nextRecord :=
              {| key := "remote-" +:+ remoteSessionId +:+ "-" +:+ pretty t;
                 sessionId := remoteSessionId;
                 mode := remote;
                 status := normalizeStatus (prop sessionPayload "status");
                 position := pos;
                 jdText := jd;
                 resumeText := resumeValue;
                 resumeContextKey := Some ctx;
                 createdAt := now;
                 updatedAt := now;
                 questionCount :=
                   match toSafeNumber (prop sessionPayload "questionCount")
                   with
                   | Some n => n
                   | None => Z.of_nat (length questionList)
                   end;
                 answeredCount :=
                   orZero (toSafeNumber (prop sessionPayload "answeredCount"));
                 currentIndex :=
                   Z.max 0
                     (orZero (toSafeNumber (prop sessionPayload "currentIndex")));
                 questions := questionList;
                 answers := ∅;
                 feedback := None;
                 remoteNumericId := parseInt remoteSessionId |} in
            setCurrentSession (Some nextRecord) ;;;
            setSelectedRecordKey (key nextRecord) ;;;
            setNotice "已进入面试练习页，可直接开始作答。")
         (let localQuestions := buildLocalQuestions pos in
          t <- dateNow ;;
          let localId := "local-" +:+ pretty t in
          let fallbackRecord :=
            {| key := localId;
               sessionId := localId;
               mode := local;
               status := active;
               position := pos;
               jdText := jd;
               resumeText := resumeValue;
               resumeContextKey := Some ctx;
               createdAt := now;
               updatedAt := now;
               questionCount := Z.of_nat (length localQuestions);
               answeredCount := 0;
               currentIndex := 0;
               questions := localQuestions;
               answers := ∅;
               feedback := None;
               remoteNumericId := None |} in
          setCurrentSession (Some fallbackRecord) ;;;
          setSelectedRecordKey (key fallbackRecord) ;;;
          setNotice "在线恢复失败，已自动降级到本地练习模式。你现在可以继续完整流程。"))
      (setLoading false).

(** What the reply to [answer] or [next] is read as. *)
Definition replySession (data : jsval) : jsval :=
  let body := if isRecord data then data else VObj [] in
  if isRecord (prop body "session") then prop body "session" else VObj [].

Definition replyQuestion (data : jsval) (t : Z) : option InterviewQuestion :=
  let body := if isRecord data then data else VObj [] in
  toInterviewQuestion
    (nullish (nullish (prop body "nextQuestion") (prop body "question"))
             (prop body "currentQuestion"))
    ("q-" +:+ pretty t).

Definition sessionPayloadOf (cur : InterviewSessionRecord) : option jsval :=
  Some (VObj [("sessionId", VStr (sessionId cur))]).

Definition answerCandidates (cur : InterviewSessionRecord)
    : list EndpointCandidate :=
  [ mkCandidate ("/api/interview/session/" +:+ sessionId cur +:+ "/answer")
                POST;
    mkCandidate ("/api/interview/" +:+ sessionId cur +:+ "/answer") POST ].

Definition nextCandidates (cur : InterviewSessionRecord)
    : list EndpointCandidate :=
  [ mkCandidate ("/api/interview/session/" +:+ sessionId cur +:+ "/next") POST;
    mkCandidate ("/api/interview/" +:+ sessionId cur +:+ "/next") POST ].

Definition finishCandidates (cur : InterviewSessionRecord)
    : list EndpointCandidate :=
  [ mkCandidate ("/api/interview/session/" +:+ sessionId cur +:+ "/finish")
                POST;
    mkCandidate ("/api/interview/" +:+ sessionId cur +:+ "/end") POST;
    mkCandidate ("/api/interview/session/" +:+ sessionId cur +:+ "/feedback")
                GET ].

Definition submitAnswer : M unit :=
  w <- get ;;
  match currentSession (page w), currentQuestion (currentSession (page w)) with
  | Some cur, Some question =>
      if negb (bool_decide (status cur = active))
      then setError "当前练习已暂停，请先继续后再提交回答。"
      else
        let trimmed := trim (answerInput (page w)) in
        if isBlank trimmed
        then setError "请先输入你的回答。"
        else
          setError "" ;;;
          setAnswerInput "" ;;;
          applySessionPatch (answerPatch (qid question) trimmed) ;;;
          if negb (bool_decide (mode cur = remote))
          then setNotice "回答已保存，继续下一题即可。"
          else
            tryCatch
              (data <- callInterviewApi pageFetch (answerCandidates cur)
                         (Some (VObj [ ("sessionId", VStr (sessionId cur));
                                       ("questionId", VStr (qid question));
                                       ("questionIndex", VNum (currentIndex cur));
                                       ("answerText", VStr trimmed);
                                       ("answer", VStr trimmed) ])) ;;
               t <- dateNow ;;
               let sessionPayload := replySession data in
               let maybeNext := replyQuestion data t in
               let remoteIndex :=
                 toSafeNumber (prop sessionPayload "currentIndex") in
               let remoteStatus :=
                 normalizeStatus (prop sessionPayload "status") in
               applySessionPatch
                 (submitReplyPatch maybeNext remoteIndex remoteStatus) ;;;
               setNotice "回答已提交，继续保持这个节奏。")
              (applySessionPatch (fun prev => withMode prev local) ;;;
               setNotice "网络波动，已切换本地模式继续保存你的练习。")
  | _, _ => ret tt
  end.

Definition nextQuestion : M unit :=
  w <- get ;;
  match currentSession (page w) with
  | None => ret tt
  | Some cur =>
      if negb (bool_decide (status cur = active))
      then setError "当前练习已暂停，请先继续后再切题。"
      else
        setError "" ;;;
        returned <-
          (if bool_decide (mode cur = remote)
           then
             tryCatch
               (data <- callInterviewApi pageFetch (nextCandidates cur)
                          (sessionPayloadOf cur) ;;
                t <- dateNow ;;
                let sessionPayload := replySession data in
                let maybeNext := replyQuestion data t in
                let remoteIndex :=
                  toSafeNumber (prop sessionPayload "currentIndex") in
                applySessionPatch
                  (nextReplyPatch maybeNext remoteIndex
                     (prop sessionPayload "status")) ;;;
                setNotice "已进入下一题。" ;;;
                ret true)
               (applySessionPatch (fun prev => withMode prev local) ;;;
                setNotice "网络波动，已切换本地模式继续练习。" ;;;
                ret false)
           else ret false) ;;
        if returned then ret tt
        else
          applySessionPatch advanceLocally ;;;
          if Z.of_nat (length (questions cur)) - 1 <=? currentIndex cur
          then setNotice "已是最后一题，完成后可直接生成总结。"
          else setNotice "已进入下一题。"
  end.

(** The candidates of [pauseSession] and [resumeSession]; [verb] is
    ["/pause"] or ["/resume"]. *)
Definition lifecycleCandidates (cur : InterviewSessionRecord) (verb : string)
    : list EndpointCandidate :=
  [ mkCandidate ("/api/interview/session/" +:+ sessionId cur +:+ verb) POST;
    mkCandidate ("/api/interview/" +:+ sessionId cur +:+ verb) POST ].

Definition pauseSession : M unit :=
  w <- get ;;
  match currentSession (page w) with
  | None => ret tt
  | Some cur =>
      if negb (bool_decide (status cur = active)) then ret tt
      else
        (if bool_decide (mode cur = remote)
         then
           tryCatch
             (callInterviewApi pageFetch (lifecycleCandidates cur "/pause")
                (sessionPayloadOf cur) ;;;
              ret tt)
             (ret tt)
         else ret tt) ;;;
        applySessionPatch (fun prev => withStatus prev paused) ;;;
        setNotice "练习已暂停，你可以随时继续。"
  end.

Definition resumeSession : M unit :=
  w <- get ;;
  match currentSession (page w) with
  | None => ret tt
  | Some cur =>
      if negb (bool_decide (status cur = paused)) then ret tt
      else
        (if bool_decide (mode cur = remote)
         then
           tryCatch
             (callInterviewApi pageFetch (lifecycleCandidates cur "/resume")
                (sessionPayloadOf cur) ;;;
              ret tt)
             (ret tt)
         else ret tt) ;;;
        applySessionPatch (fun prev => withStatus prev active) ;;;
        setNotice "已继续练习，加油！"
  end.

Definition endSession : M unit :=
  w <- get ;;
  match currentSession (page w) with
  | None => ret tt
  | Some cur =>
      setError "" ;;;
      returned <-
        (if bool_decide (mode cur = remote)
         then
           tryCatch
             (data <- callInterviewApi pageFetch (finishCandidates cur)
                        (sessionPayloadOf cur) ;;
              let parsed := toInterviewFeedback data in
              applySessionPatch (fun prev => finishLocally prev parsed) ;;;
              setNotice (match parsed with
                         | Some _ => "练习完成！已生成总结。"
                         | None => "练习完成！已使用本地规则生成总结。"
                         end) ;;;
              ret true)
             (applySessionPatch (fun prev => withMode prev local) ;;;
              setNotice "网络波动，已改用本地规则生成总结。" ;;;
              ret false)
         else ret false) ;;
      if returned then ret tt
      else
        applySessionPatch (fun prev => finishLocally prev None) ;;;
        setNotice "练习完成！已生成总结。"
  end.

Definition inScope (ctx : string) (record : InterviewSessionRecord) : bool :=
  match resumeContextKey record with
  | Some k => if isBlank k then String.eqb ctx "manual" else String.eqb k ctx
  | None => String.eqb ctx "manual"
  end.

Definition syncRemoteSessions : M unit :=
  tryCatch
    (response <- pageFetch (API_BASE_URL +:+ "/api/interview/sessions?limit=20")
                   None ;;
     if negb (rok response) then ret tt
     else
       let data := rjson response in
       let payload := if isRecord data then data else VObj [] in
       iso <- isoNow ;;
       let remoteItems :=
         match prop payload "items" with
         | VArr items => omap (normalizeRemoteSessionAt iso) items
         | _ => []
         end in
       w <- get ;;
       let ctx := pageContextKey (page w) in
       let scopedRemoteItems := filter (fun r => inScope ctx r = true) remoteItems in
       match scopedRemoteItems with
       | [] => ret tt
       | _ =>
           setRecords (fun prev => mergeRemoteSessions ctx prev scopedRemoteItems) ;;;
           setNotice "已更新练习历史。"
       end)
    (ret tt).

(** The transitions a caller can ask of the current session. *)
Inductive Operation : Type :=
| OpSubmitAnswer (text : string)
| OpAdvance
| OpPause
| OpResume
| OpFinish.

(** [OpSubmitAnswer text] types [text] into the answer box and submits. *)
Definition perform (op : Operation) : M unit :=
  match op with
  | OpSubmitAnswer text => setAnswerInput text ;;; submitAnswer
  | OpAdvance => nextQuestion
  | OpPause => pauseSession
  | OpResume => resumeSession
  | OpFinish => endSession
  end.

End WithPlatform.
End Interview.


(** ** The client auth hook: the operations it hands out *)

Module AuthHookOps.
Import Auth AuthClient.

Record LoginPayload : Type := mkLogin {
  token : option string;
  refreshToken : option string;
  userName : option string;
  expiresInHours : option Z;
  expiresAt : option string;
  sessionId : option string
}.

(** [value?.trim() || null] *)
Definition trimmedOpt (o : option string) : option string :=
  match o with
  | Some s => orNull (trim s)
  | None => None
  end.

Section WithPlatform.
Context `{Platform}.

(** [isClientAuthenticated(state)] when [Date.now()] is [t] *)
Definition isClientAuthenticatedAt (t : Z) (state : option ClientAuthState)
    : bool :=
  match state with
  | None => false
  | Some s =>
      if negb (bool_decide (Auth.mode s = custom)) then false
      else negb (isAuthExpiredAt t s)
  end.

Definition isClientAuthenticated (state : option ClientAuthState) : M bool :=
  t <- dateNow ;; ret (isClientAuthenticatedAt t state).

Definition toFutureTimeIso (hours : option Z) : M (option string) :=
  match hours with
  | Some h =>
      if h <=? 0 then ret None
      else t <- dateNow ;; ret (Some (toISOString (t + h * 60 * 60 * 1000)))
  | None => ret None
  end.

Definition normalizeExpiresAt (payload : LoginPayload) : M (option string) :=
  match trimmedOpt (expiresAt payload) with
  | Some e => ret (Some e)
  | None => toFutureTimeIso (expiresInHours payload)
  end.

Definition createAuthenticatedAuthState (payload : LoginPayload)
    : M ClientAuthState :=
  tok <- match trimmedOpt (token payload) with
         | Some t => ret t
         | None => generateAccessToken
         end ;;
  let refresh := trimmedOpt (refreshToken payload) in
  sid <- match trimmedOpt (sessionId payload) with
         | Some s => ret s
         | None => generateSessionId
         end ;;
  iso <- isoNow ;;
  e <- normalizeExpiresAt payload ;;
  ret (mkAuth sid tok refresh custom iso
              (Some match trimmedOpt (userName payload) with
                    | Some u => u
                    | None => "候选人"
                    end)
              e).

Definition login (payload : LoginPayload) : M ClientAuthState :=
  setAuthFailureReason None ;;;
  next <- createAuthenticatedAuthState payload ;;
  persistState next.

Definition logout : M ClientAuthState :=
  setAuthFailureReason None ;;;
  next <- createGuestAuthState ;;
  persistState next.

Definition applyAccessToken (tokenText : string) : M ClientAuthState :=
  let normalized := trim tokenText in
  if isBlank normalized then logout
  else
    current <- ensureAuthState ;;
    iso <- isoNow ;;
    let next :=
      mkAuth (Auth.sessionId current) normalized (Auth.refreshToken current)
             custom iso
             (Some match Auth.userName current with
                   | Some u => orStr u "候选人"
                   | None => "候选人"
                   end)
             (Auth.expiresAt current) in
    setAuthFailureReason None ;;;
    persistState next.

Definition rotateSession : M ClientAuthState :=
  current <- ensureAuthState ;;
  sid <- generateSessionId ;;
  iso <- isoNow ;;
  persistState
    (mkAuth sid (accessToken current) (Auth.refreshToken current)
            (Auth.mode current) iso (Auth.userName current)
            (Auth.expiresAt current)).

Definition resetAuthState : M ClientAuthState :=
  setAuthFailureReason None ;;;
  logout.

End WithPlatform.
End AuthHookOps.

(** ** The interview page: stored records and loading one *)

Module InterviewStore.
Import Interview.

Definition SESSION_STORAGE_KEY : string := "career_hero.interview.sessions.v2".

Definition modeText (m : InterviewMode) : string :=
  match m with
  | remote => "remote"
  | local => "local"
  end.

Definition statusText (s : InterviewStatus) : string :=
  match s with
  | active => "active"
  | paused => "paused"
  | finished => "finished"
  end.

(** A property that [JSON.stringify] leaves out when it is [undefined]. *)
Definition optField (k : string) (o : option jsval) : list (string * jsval) :=
  match o with
  | Some v => [(k, v)]
  | None => []
  end.

(** The values [JSON.parse] reads back from [JSON.stringify]. *)
Definition encodeQuestion (q : InterviewQuestion) : jsval :=
  VObj ([ ("id", VStr (qid q)); ("text", VStr (qtext q));
          ("tips", VArr (VStr <$> tips q)) ]
        ++ optField "index" (VNum <$> qindex q)
        ++ optField "category" (VStr <$> category q)
        ++ optField "focus" (VStr <$> focus q)).

Definition encodeFeedback (f : InterviewFeedback) : jsval :=
  VObj ([ ("summary", VStr (summary f));
          ("strengths", VArr (VStr <$> strengths f));
          ("improvements", VArr (VStr <$> improvements f)) ]
        ++ optField "score" (VNum <$> score f)).

Definition encodeRecord (r : InterviewSessionRecord) : jsval :=
  VObj ([ ("key", VStr (key r)); ("sessionId", VStr (sessionId r));
          ("mode", VStr (modeText (mode r)));
          ("status", VStr (statusText (status r)));
          ("position", VStr (position r)); ("jdText", VStr (jdText r));
          ("resumeText", VStr (resumeText r)) ]
        ++ optField "resumeContextKey" (VStr <$> resumeContextKey r)
        ++ [ ("createdAt", VStr (createdAt r));
             ("updatedAt", VStr (updatedAt r));
             ("questionCount", VNum (questionCount r));
             ("answeredCount", VNum (answeredCount r));
             ("currentIndex", VNum (currentIndex r));
             ("questions", VArr (encodeQuestion <$> questions r));
             ("answers",
              VObj (map_to_list (VStr <$> answers r)));
             ("feedback", match feedback r with
                          | Some f => encodeFeedback f
                          | None => VNull
                          end) ]
        ++ optField "remoteNumericId" (VNum <$> remoteNumericId r)).

Section WithPlatform.
Context `{Platform}.

Definition loadSessionRecords : M (list InterviewSessionRecord) :=
  w <- get ;;
  match storage (browser w) !! SESSION_STORAGE_KEY with
  | Some (Json (VArr parsed)) => ret (cap50 (omap normalizeRecord parsed))
  | _ => ret []
  end.

(** The write is taken to succeed. *)
Definition saveSessionRecords (l : list InterviewSessionRecord) : M unit :=
  AuthClient.setStorage (fun st =>
    <[SESSION_STORAGE_KEY := Json (VArr (encodeRecord <$> cap50 l))]> st).

Definition hydrateRemoteRecord (record : InterviewSessionRecord)
    : M InterviewSessionRecord :=
  match remoteNumericId record with
  | None => ret record
  | Some n =>
      if n =? 0 then ret record
      else
        response <- pageFetch (API_BASE_URL +:+ "/api/interview/sessions/"
                               +:+ pretty n) None ;;
        if negb (rok response) then ret record
        else
          let data := rjson response in
          let payload := if isRecord data then data else VObj [] in
          let session :=
            if isRecord (prop payload "session") then prop payload "session"
            else VObj [] in
          let nextQuestion :=
            toInterviewQuestion (prop payload "nextQuestion")
              ("q-" +:+ pretty (currentIndex record + 1)) in
          let parsed := toInterviewFeedback (prop payload "feedbackDraft") in
          ret {| key := key record;
                 sessionId := sessionId record;
                 mode := mode record;
                 status :=
                   normalizeStatus
                     (orJs (prop session "status")
                           (VStr (statusText (status record))));
                 position := position record;
                 jdText := jdText record;
                 resumeText := resumeText record;
                 resumeContextKey := resumeContextKey record;
                 createdAt :=
                   orStr (toSafeString (prop session "createdAt") "")
                         (createdAt record);
                 updatedAt :=
                   orStr (toSafeString (prop session "updatedAt") "")
                         (updatedAt record);
                 questionCount :=
                   match toSafeNumber (prop session "questionCount") with
                   | Some c => c
                   | None => questionCount record
                   end;
                 answeredCount :=
                   match toSafeNumber (prop session "answeredCount") with
                   | Some c => c
                   | None => answeredCount record
                   end;
                 currentIndex :=
                   Z.max 0
                     match toSafeNumber (prop session "currentIndex") with
                     | Some i => i
                     | None => currentIndex record
                     end;
                 questions :=
                   match nextQuestion, questions record with
                   | Some nq, [] => [nq]
                   | _, _ => questions record
                   end;
                 answers := answers record;
                 feedback := AuthClient.orElseOpt parsed (feedback record);
                 remoteNumericId := remoteNumericId record |}
  end.

Definition onLoadRecord (record : InterviewSessionRecord) : M unit :=
  tryCatch
    (hydrated <- (if bool_decide (mode record = remote)
                  then hydrateRemoteRecord record
                  else ret record) ;;
     setCurrentSession (Some hydrated) ;;;
     setSelectedRecordKey (key record) ;;;
     setAnswerInput "" ;;;
     setError "" ;;;
     setRecords (fun prev =>
       match findIndex (fun item => String.eqb (key item) (key record)) prev
       with
       | Some index => <[index := hydrated]> prev
       | None => prev
       end) ;;;
     setNotice "已载入该练习记录。")
    (setError "加载记录失败，请稍后重试。").

End WithPlatform.
End InterviewStore.

(** ** The summary page: the reader of the stored records *)

Module SummaryPage.

Record SummaryFeedback : Type := mkSummaryFeedback {
  summary : string;
  strengths : list string;
  improvements : list string;
  score : option Z
}.

Record SessionSummaryItem : Type := mkItem {
  key : string;
  sessionId : string;
  status : string;
  mode : string;
  createdAt : string;
  updatedAt : string;
  questionCount : Z;
  answeredCount : Z;
  feedback : option SummaryFeedback;
  position : string;
  resumeContextKey : string
}.

Definition STORAGE_KEY : string := "career_hero.interview.sessions.v2".

(** [toSafeNumber] of the summary page: 0 when the value is no number. *)
Definition toSafeNumber (v : jsval) : Z :=
  match v with
  | VNum n => n
  | _ => 0
  end.

Definition toStringArray (v : jsval) : list string :=
  match v with
  | VArr items =>
      filter (fun s => isBlank s = false)
        ((fun item => match item with
                      | VStr s => trim s
                      | _ => ""
                      end) <$> items)
  | _ => []
  end.

Definition normalizeSession (value : jsval) : option SessionSummaryItem :=
  if negb (isRecord value) then None
  else
    let key := trim (toSafeString (prop value "key") "") in
    let sessionId := trim (toSafeString (prop value "sessionId") "") in
    if isBlank key || isBlank sessionId then None
    else
      let feedback :=
        if isRecord (prop value "feedback")
        then
          let feedbackRaw := prop value "feedback" in
          Some {| summary := toSafeString (prop feedbackRaw "summary") "";
                  strengths := toStringArray (prop feedbackRaw "strengths");
                  improvements :=
                    toStringArray (prop feedbackRaw "improvements");
                  score :=
                    let n := toSafeNumber (prop feedbackRaw "score") in
                    if n =? 0 then None else Some n |}
        else None in
      Some {| key := key;
              sessionId := sessionId;
              status := orStr (toSafeString (prop value "status") "") "active";
              mode := orStr (toSafeString (prop value "mode") "") "local";
              createdAt := toSafeString (prop value "createdAt") "";
              updatedAt := toSafeString (prop value "updatedAt") "";
              questionCount := toSafeNumber (prop value "questionCount");
              answeredCount := toSafeNumber (prop value "answeredCount");
              feedback := feedback;
              position := toSafeString (prop value "position") "";
              resumeContextKey :=
                toSafeString (prop value "resumeContextKey") "" |}.

Definition loadSessionsFromStorage : M (list SessionSummaryItem) :=
  w <- get ;;
  match storage (browser w) !! STORAGE_KEY with
  | Some (Json (VArr parsed)) => ret (take 80 (omap normalizeSession parsed))
  | _ => ret []
  end.

(** The filter of the page's effect: the records of the context
    [resumeContextKey] that have a review or are finished. *)
Definition offered (contextKey : string) (item : SessionSummaryItem) : bool :=
  if negb (isBlank contextKey
           || String.eqb (resumeContextKey item) contextKey)
  then false
  else match feedback item with
       | Some _ => true
       | None => String.eqb (status item) "finished"
       end.

End SummaryPage.


(** * Vocabulary of the statements *)

Import Interview.

(** The world after running [m]. *)
Definition after {A} (m : M A) (w : World) : World := snd (m w).

Fixpoint runAll (ms : list (M unit)) (w : World) : World :=
  match ms with
  | [] => w
  | m :: rest => runAll rest (after m w)
  end.

(** The scenario of the fallback review: start, answer the three questions
    in turn, finish. *)
Definition scenario `{Platform} (options : option StartOptions)
    (t1 t2 t3 : string) : list (M unit) :=
  [ startSession options;
    perform (OpSubmitAnswer t1); perform OpAdvance;
    perform (OpSubmitAnswer t2); perform OpAdvance;
    perform (OpSubmitAnswer t3); perform OpFinish ].

(** The current session of the page. *)
Definition session (w : World) : option InterviewSessionRecord :=
  currentSession (page w).

(** [wp m w Q]: running [m] in [w] ends in a result and a world that
    satisfy [Q]. *)
Definition wp {A} (m : M A) (w : World) (Q : Result A -> World -> Prop) : Prop :=
  Q (fst (m w)) (snd (m w)).

(** [m] does not touch the state of the interview page. *)
Definition keepsPage {A} (m : M A) : Prop :=
  forall w, page (snd (m w)) = page w.

(** [m] never throws. *)
Definition returns {A} (m : M A) : Prop :=
  forall w, exists a, fst (m w) = Ok a.

(** The updaters that the transitions hand to [applySessionPatch]. *)
Inductive Updater : (InterviewSessionRecord -> InterviewSessionRecord) -> Prop :=
| U_answer questionId trimmed :
    isBlank trimmed = false -> Updater (answerPatch questionId trimmed)
| U_submitReply maybeNext remoteIndex remoteStatus :
    Updater (submitReplyPatch maybeNext remoteIndex remoteStatus)
| U_nextReply maybeNext remoteIndex statusValue :
    Updater (nextReplyPatch maybeNext remoteIndex statusValue)
| U_local : Updater (fun prev => withMode prev local)
| U_advance : Updater advanceLocally
| U_status s : Updater (fun prev => withStatus prev s)
| U_finish parsed : Updater (fun prev => finishLocally prev parsed).

(** [Patched a b]: [b] comes from [a] by a sequence of session patches. *)
Inductive Patched (a : InterviewSessionRecord)
    : InterviewSessionRecord -> Prop :=
| Patched_refl : Patched a a
| Patched_step b u nowIso :
    Patched a b -> Updater u -> Patched a (stamp (u b) nowIso).

(** The page holds a session that comes from [cur] by patches. *)
Definition tracks (cur : InterviewSessionRecord) (w : World) : Prop :=
  exists r, session w = Some r /\ Patched cur r.

Definition steady {A} (m : M A) : Prop :=
  forall cur w, tracks cur w -> tracks cur (snd (m w)).

(** The number of question ids whose stored answer is not empty. *)
Definition nonEmptyAnswers (a : gmap string string) : Z :=
  Z.of_nat (size (filter (fun kv : string * string => snd kv <> "") a)).

(** Every stored answer is non-empty and [answeredCount] is their number. *)
Definition answersCounted (r : InterviewSessionRecord) : Prop :=
  map_Forall (fun _ v => v <> "") (answers r)
  /\ answeredCount r = Z.of_nat (size (answers r)).

Definition indexInRange (r : InterviewSessionRecord) : Prop :=
  currentIndex r < Z.max 1 (Z.of_nat (length (questions r))).

(** The messages of the rejections of [submitAnswer]. *)
Definition pausedMessage : string := "当前练习已暂停，请先继续后再提交回答。".
Definition emptyMessage : string := "请先输入你的回答。".

(** A local, active session at index [i] of the questions [qs] with the
    answers [a]. *)
Definition localAt (r : InterviewSessionRecord) (qs : list InterviewQuestion)
    (i : Z) (a : gmap string string) : Prop :=
  mode r = local /\ status r = active /\ questions r = qs
  /\ currentIndex r = i /\ answers r = a.

(** The guest credential made in browser [b], and the browser after it. *)
Definition guestAt `{Platform} (b : Browser) : Auth.ClientAuthState :=
  Auth.mkAuth
    ("sess_" +:+ base36 (now b) +:+ "_" +:+ randomHex (entropy b) 12)
    ("local_" +:+ randomHex (S (entropy b)) 28)
    None Auth.local (toISOString (now b)) None None.

Definition drawnTwice (b : Browser) : Browser :=
  mkBrowser (now b) (S (S (entropy b))) (storage b) (netlog b)
            (pathname b) (search b) (replacedWith b).

(** The browser with [s] saved and the hook with [s] adopted. *)
Definition savedIn (s : Auth.ClientAuthState) (b : Browser) : Browser :=
  mkBrowser (now b) (entropy b)
            (<[Auth.STORAGE_KEY := Json (AuthClient.encodeAuth s)]> (storage b))
            (netlog b) (pathname b) (search b) (replacedWith b).

Definition adoptedBy (s : Auth.ClientAuthState) (a : AuthHook) : AuthHook :=
  mkAuthHook (Some s) (Some s) (Auth.accessToken s) (authFailureReason a).

(** The world after [persistState s]. *)
Definition persisted `{Platform} (s : Auth.ClientAuthState) (w : World)
    : Auth.ClientAuthState * World :=
  if AuthClient.expiredWithoutRefreshAt (now (browser w)) s
  then (guestAt (browser w),
        withAuth (adoptedBy (guestAt (browser w)))
          (withBrowser (savedIn (guestAt (browser w)))
             (withBrowser drawnTwice w)))
  else (s, withAuth (adoptedBy s) (withBrowser (savedIn s) w)).

(** [m] sends no request and does not let time pass. *)
Definition keepsWire {A} (m : M A) : Prop :=
  forall w, netlog (browser (snd (m w))) = netlog (browser w)
            /\ now (browser (snd (m w))) = now (browser w).

(** From [w] to [w'] at most [n] requests were sent, all satisfying [P]. *)
Definition sent (n : nat) (P : Request -> Prop) (w w' : World) : Prop :=
  exists rs, netlog (browser w') = (netlog (browser w) ++ rs)%list
             /\ (length rs <= n)%nat /\ Forall P rs.

(** [s] is a guest credential as [createGuestAuthState] makes them. *)
Definition freshGuest `{Platform} (s : Auth.ClientAuthState) : Prop :=
  exists w, fst (AuthClient.createGuestAuthState w) = Ok s.

(** [s] is a guest credential made at time [t]: local mode, a session id
    and an access token of the generated form, and neither refresh
    credential nor expiry nor user name. *)
Definition guestMadeAt `{Platform} (t : Z) (s : Auth.ClientAuthState)
    : Prop :=
  exists draw : nat,
    s = Auth.mkAuth
          ("sess_" +:+ base36 t +:+ "_" +:+ randomHex draw 12)
          ("local_" +:+ randomHex (S draw) 28)
          None Auth.local (toISOString t) None None.

(** The credential was downgraded: the reason is surfaced and a guest
    credential made at that time is the current one, in memory and in
    storage. *)
Definition downgradedTo `{Platform} (w : World)
    (reason : Auth.AuthFailureReason) : Prop :=
  authFailureReason (auth w) = Some reason
  /\ exists g,
       guestMadeAt (now (browser w)) g
       /\ authRef (auth w) = Some g /\ authState (auth w) = Some g
       /\ storage (browser w) !! Auth.STORAGE_KEY
          = Some (Json (AuthClient.encodeAuth g)).

(** [rq] is one of the requests [tryAutoRefreshAuth] sends for [current]. *)
Definition isRefreshRequest `{Platform} (base : string)
    (current : Auth.ClientAuthState) (rq : Request) : Prop :=
  exists endpoint payload,
    In endpoint AuthClient.refreshEndpoints
    /\ In payload (AuthClient.refreshPayloads current)
    /\ rq = AuthClient.refreshRequest base endpoint current payload.

(** The first request a refresh sends to an endpoint: the first shape of
    payload, the session id in a header and no bearer token; and the first
    request of all, to the first endpoint. *)
Definition openingRequest (base endpoint : string)
    (current : Auth.ClientAuthState) : Request :=
  {| url := base +:+ endpoint;
     method := POST;
     body := VObj [("refreshToken",
                    AuthClient.optStr (Auth.refreshToken current));
                   ("sessionId", VStr (Auth.sessionId current))];
     xSessionId := Some (Auth.sessionId current);
     authorization := None;
     xClientAuthMode := None;
     xUserName := None |}.

Definition firstRefreshRequest (base : string)
    (current : Auth.ClientAuthState) : Request :=
  openingRequest base "/api/auth/refresh" current.

(** The twelve requests of a refresh in the order of the loops: every
    endpoint with every shape of payload. *)
Definition allRefreshRequests (base : string)
    (current : Auth.ClientAuthState) : list Request :=
  flat_map (fun endpoint =>
              map (AuthClient.refreshRequest base endpoint current)
                  (AuthClient.refreshPayloads current))
           AuthClient.refreshEndpoints.

(** The outcomes of the requests [rs] sent one after the other from the
    log [log] at time [t], and the time when the last one completes. *)
Fixpoint replies `{Platform} (log : list Request) (t : Z)
    (rs : list Request) : list NetOutcome :=
  match rs with
  | [] => []
  | rq :: rest =>
      snd (network log t rq)
      :: replies (log ++ [rq]) (fst (network log t rq)) rest
  end.

Fixpoint clockAfter `{Platform} (log : list Request) (t : Z)
    (rs : list Request) : Z :=
  match rs with
  | [] => t
  | rq :: rest => clockAfter (log ++ [rq]) (fst (network log t rq)) rest
  end.

(** The outcome renews the credential with access token [tok]: it is a
    reply that is ok and carries [tok]. *)
Definition renews (out : NetOutcome) (tok : string) : Prop :=
  exists r, out = NetReply r /\ rok r = true
            /\ AuthClient.extractTokenFromPayload (rjson r) = Some tok.

Definition unusable (out : NetOutcome) : Prop := forall tok, ~ renews out tok.

(** The outcome tells that the endpoint is missing: a reply 404 or 405. *)
Definition missing (out : NetOutcome) : Prop :=
  exists r, out = NetReply r /\ (rstatus r = 404 \/ rstatus r = 405).

(** What a refresh returns, by the outcomes of its requests: nothing when
    none of them renews the credential, and else a credential in
    authenticated mode whose access token is the one of the last reply,
    the only one that renews. *)
Definition refreshVerdict (candidate : option Auth.ClientAuthState)
    (outs : list NetOutcome) : Prop :=
  match candidate with
  | None => Forall unusable outs
  | Some c =>
      exists before out,
        outs = (before ++ [out])%list /\ Forall unusable before
        /\ renews out (Auth.accessToken c) /\ Auth.mode c = Auth.custom
  end.

(** From [w] to [w'] a refresh for [current] ran and returned [candidate]:
    it sent at least one request, the first being [firstRefreshRequest],
    all of them among the twelve and in their order, and what it returned
    follows the outcomes as [refreshVerdict] says; it gave up only after it
    had tried every endpoint, and every shape of payload as well when no
    endpoint was missing. *)
Definition refreshTrace `{Platform} (base : string)
    (current : Auth.ClientAuthState) (w w' : World)
    (candidate : option Auth.ClientAuthState) : Prop :=
  exists rs,
    let outs := replies (netlog (browser w)) (now (browser w)) rs in
    netlog (browser w') = (netlog (browser w) ++ rs)%list
    /\ head rs = Some (firstRefreshRequest base current)
    /\ rs `sublist_of` allRefreshRequests base current
    /\ now (browser w') = clockAfter (netlog (browser w)) (now (browser w)) rs
    /\ refreshVerdict candidate outs
    /\ (candidate = None ->
        (forall endpoint,
           In endpoint AuthClient.refreshEndpoints ->
           In (openingRequest base endpoint current) rs)
        /\ (Forall (fun out => ~ missing out) outs ->
            rs = allRefreshRequests base current)).

(** Every remote call fails: the transport fails or the reply is not ok. *)
Definition remoteFails `{Platform} : Prop :=
  forall log t rq r, snd (network log t rq) = NetReply r -> rok r = false.

(** What [m] returns, when it returns, satisfies [P]. *)
Definition yields {A} (P : A -> Prop) (m : M A) : Prop :=
  forall w, match fst (m w) with
            | Ok a => P a
            | Throw => True
            end.

(** * Fixtures: platforms, worlds and sessions to run the code on *)

Module Fixtures.

(** Dates are written as decimal milliseconds in the fixtures. *)
Fixpoint parseDigits (acc : Z) (s : string) : option Z :=
  match s with
  | EmptyString => Some acc
  | String c rest =>
      match Ascii.is_nat c with
      | Some d => parseDigits (10 * acc + Z.of_nat d) rest
      | None => None
      end
  end.

Definition parseMillis (s : string) : option Z :=
  if isBlank s then None else parseDigits 0 s.

Definition hexOf (n : nat) (len : Z) : string := pretty n +:+ "h" +:+ pretty len.

(** Every request fails at the transport. *)
Definition offline : Platform :=
  {| network := fun _ t _ => (t + 1, NetError);
     parseDate := parseMillis;
     toISOString := pretty;
     randomHex := hexOf;
     base36 := pretty;
     parseInt := fun _ => None;
     API_BASE_URL := "http://127.0.0.1:8000" |}.

(** The n-th request (counted from 0) gets the n-th reply of the script;
    past the script the transport fails. *)
Definition scripted (script : list Response) : Platform :=
  {| network := fun log t _ =>
       (t + 1, match script !! length log with
               | Some r => NetReply r
               | None => NetError
               end);
     parseDate := parseMillis;
     toISOString := pretty;
     randomHex := hexOf;
     base36 := pretty;
     parseInt := parseMillis;
     API_BASE_URL := "http://127.0.0.1:8000" |}.

Definition browser0 : Browser :=
  mkBrowser 1000 0 ∅ [] "/interview" "" None.

Definition guest0 : Auth.ClientAuthState :=
  Auth.mkAuth "sess_0" "local_0" None Auth.local "1000" None None.

Definition auth0 : AuthHook := mkAuthHook (Some guest0) (Some guest0) "local_0" None.

Definition page0 : Page :=
  mkPage "manual" "" "" "" [] "" None "" false "" "".

Definition world0 : World := mkWorld browser0 auth0 page0.

Fixpoint letters (n : nat) : string :=
  match n with
  | O => EmptyString
  | S m => String "a" (letters m)
  end.


Definition emptyRecord : InterviewSessionRecord :=
  mkRecord "" "" local active "" "" "" None "" "" 0 0 0 [] ∅ None None.

Definition the (o : option InterviewSessionRecord) : InterviewSessionRecord :=
  match o with
  | Some r => r
  | None => emptyRecord
  end.

Definition startOptions : option StartOptions :=
  Some (mkStartOptions None (Some "Backend Engineer, must know caching")
                       None None).

Definition json200 (v : jsval) : Response := mkResponse 200 None v.

Definition withRecords (l : list InterviewSessionRecord) (w : World) : World :=
  withPage (fun p =>
    mkPage (pageContextKey p) (formPosition p) (formJdText p)
           (formResumeText p) l (selectedRecordKey p) (currentSession p)
           (answerInput p) (loading p) (error p) (notice p)) w.

Definition withSession (r : InterviewSessionRecord) (w : World) : World :=
  withPage (fun p =>
    mkPage (pageContextKey p) (formPosition p) (formJdText p)
           (formResumeText p) (records p) (selectedRecordKey p) (Some r)
           (answerInput p) (loading p) (error p) (notice p)) w.

(** The local fallback session started while the remote side is
    unreachable, and the same session paused. *)
Definition wLocal : World := after (@startSession offline startOptions) world0.

Definition wPaused : World := after (@perform offline OpPause) wLocal.

(** A remote side that creates session 42 with three questions, answers
    the first [next] with index 7 and the second with a new question. *)
Definition remoteScript : list Response :=
  [ json200 (VObj [("sessionId", VStr "42");
                   ("questions", VArr [VStr "Q1"; VStr "Q2"; VStr "Q3"])]);
    json200 (VObj [("session", VObj [("currentIndex", VNum 7);
                                     ("status", VStr "active")])]);
    json200 (VObj [("nextQuestion", VObj [("id", VStr "q-9");
                                          ("text", VStr "Q9")])]) ].

Definition wRemote : World :=
  after (@startSession (scripted remoteScript) startOptions) world0.

Definition wRemoteNext : World :=
  after (@perform (scripted remoteScript) OpAdvance) wRemote.

Definition wRemoteNextAgain : World :=
  after (@perform (scripted remoteScript) OpAdvance) wRemoteNext.

(** A remote side that creates session 42, fails both [answer] calls and
    later lists session 42 in the history. *)
Definition downgradeScript : list Response :=
  [ json200 (VObj [("sessionId", VStr "42");
                   ("questions", VArr [VStr "Q1"; VStr "Q2"; VStr "Q3"])]);
    mkResponse 500 None VNull;
    mkResponse 500 None VNull;
    json200 (VObj [("items",
                    VArr [VObj [("id", VNum 42);
                                ("sessionToken", VStr "42");
                                ("answeredCount", VNum 2);
                                ("currentIndex", VNum 2)]])]) ].

(** The session downgraded to local mode by the failed [answer], held by
    the page and by the store. *)
Definition wDowngraded : World :=
  let w := runAll [ @startSession (scripted downgradeScript) startOptions;
                    @perform (scripted downgradeScript)
                             (OpSubmitAnswer "hello") ] world0 in
  withRecords [the (session w)] w.

Definition wSynced : World :=
  after (@syncRemoteSessions (scripted downgradeScript)) wDowngraded.

(** An entry of the remote history: paused, two answers, index 2. *)
Definition historyItem : jsval :=
  VObj [("id", VNum 7); ("sessionToken", VStr "abc");
        ("status", VStr "paused"); ("answeredCount", VNum 2);
        ("currentIndex", VNum 2)].

(** The page after the history entry was loaded as the current session. *)
Definition wHistory : World :=
  withSession (the (normalizeRemoteSessionAt "1000" historyItem)) world0.

(** Every request is answered 401. *)
Definition always401 : Platform :=
  {| network := fun _ t _ => (t + 1, NetReply (mkResponse 401 None VNull));
     parseDate := parseMillis;
     toISOString := pretty;
     randomHex := hexOf;
     base36 := pretty;
     parseInt := parseMillis;
     API_BASE_URL := "http://127.0.0.1:8000" |}.

(** An authenticated credential with a refresh credential, and the world
    that holds it. *)
Definition member : Auth.ClientAuthState :=
  Auth.mkAuth "sess_m" "token_m" (Some "refresh_m") Auth.custom "900"
              (Some "member") None.

Definition wMember : World :=
  mkWorld browser0 (mkAuthHook (Some member) (Some member) "token_m" None)
          page0.

(** An authenticated credential past its expiry (500 < 1000) without
    refresh credential. *)
Definition lapsed : Auth.ClientAuthState :=
  Auth.mkAuth "sess_x" "token_x" None Auth.custom "400" (Some "member")
              (Some "500").

Definition noOptions : AuthClient.UseClientAuthOptions :=
  AuthClient.mkOptions None None.

Definition sessionsUrl : string :=
  "http://127.0.0.1:8000/api/interview/sessions".

End Fixtures.

(** * Vocabulary of the further properties *)

(** A path on this origin: it starts with one slash, not two. *)
Definition sameOriginPath (p : string) : Prop :=
  String.prefix "/" p = true /\ String.prefix "//" p = false.

(** A text that is not empty and has no white space around it. *)
Definition tidy (s : string) : Prop := s <> "" /\ trim s = s.

Definition wellFormedQuestion (q : InterviewQuestion) : Prop :=
  tidy (qtext q) /\ qid q <> "" /\ Forall tidy (tips q).

(** A credential that can be refreshed: authenticated mode, an access
    token that is not blank, a refresh token, hence never an expired
    credential without refresh token. *)
Definition refreshable `{Platform} (s : Auth.ClientAuthState) : Prop :=
  Auth.mode s = Auth.custom
  /\ tidy (Auth.accessToken s)
  /\ AuthClient.hasRefreshToken s = true
  /\ forall t, AuthClient.expiredWithoutRefreshAt t s = false.

(** Where the browser is and where it was sent. *)
Definition locationOf (w : World)
    : string * string * option (string * Auth.AuthFailureReason) :=
  (pathname (browser w), search (browser w), replacedWith (browser w)).

(** [m] neither navigates nor redirects. *)
Definition keepsLocation {A} (m : M A) : Prop :=
  forall w, locationOf (snd (m w)) = locationOf w.

(** The login path of the hook, and whether the browser is on it or below
    it, as [shouldSkipAutoRedirect] tests it. *)
Definition loginPathOf (options : AuthClient.UseClientAuthOptions) : string :=
  match AuthClient.loginPath options with
  | Some p => orStr (trim p) "/login"
  | None => "/login"
  end.

Definition onLoginPage (options : AuthClient.UseClientAuthOptions) (w : World)
    : bool :=
  let p := orStr (pathname (browser w)) "/" in
  String.eqb p (loginPathOf options)
  || String.prefix (loginPathOf options +:+ "/") p.

(** From the location of [w] the browser was at most redirected to the
    login page, with the return path of [w] and the reason that [w'] shows,
    which happens only under automatic redirection and off the login
    page. *)
Definition redirectedFrom (options : AuthClient.UseClientAuthOptions)
    (w w' : World) : Prop :=
  pathname (browser w') = pathname (browser w)
  /\ search (browser w') = search (browser w)
  /\ (replacedWith (browser w') = replacedWith (browser w)
      \/ exists reason,
           replacedWith (browser w')
           = Some (AuthClient.toSafeReturnTo
                     (pathname (browser w) +:+ search (browser w)), reason)
           /\ authFailureReason (auth w') = Some reason
           /\ AuthClient.autoRedirectOnUnauthorized options = Some true
           /\ onLoginPage options w = false).

(** No reply is a 401. *)
Definition never401 `{Platform} : Prop :=
  forall log t rq r, snd (network log t rq) = NetReply r -> rstatus r <> 401.

(** Every request is answered 404 or 405. *)
Definition notFoundEverywhere `{Platform} : Prop :=
  forall log t rq,
    exists r, snd (network log t rq) = NetReply r
              /\ (rstatus r = 404 \/ rstatus r = 405).

(** A credential as the storage can hold it: ids and tokens that are not
    empty and carry no white space around them. *)
Definition wellFormedAuth (s : Auth.ClientAuthState) : Prop :=
  tidy (Auth.sessionId s) /\ tidy (Auth.accessToken s)
  /\ (forall r, Auth.refreshToken s = Some r -> tidy r)
  /\ (forall u, Auth.userName s = Some u -> tidy u)
  /\ (forall e, Auth.expiresAt s = Some e -> tidy e).

(** The message of [startSession] without job text. *)
Definition missingJobMessage : string := "请先填写岗位方向或岗位描述。".

(** [r] is the session [cur] further on: the same identity and context, no
    question and no answered question id lost, a review kept once it is
    there. *)
Definition continues (cur r : InterviewSessionRecord) : Prop :=
  key r = key cur /\ sessionId r = sessionId cur
  /\ createdAt r = createdAt cur /\ position r = position cur
  /\ jdText r = jdText cur /\ resumeText r = resumeText cur
  /\ resumeContextKey r = resumeContextKey cur
  /\ remoteNumericId r = remoteNumericId cur
  /\ questions cur `prefix_of` questions r
  /\ dom (answers cur) ⊆ dom (answers r)
  /\ questionCount cur <= questionCount r
  /\ (feedback cur <> None -> feedback r <> None).

(** The message of [onLoadRecord] when the record could not be loaded. *)
Definition loadFailedMessage : string := "加载记录失败，请稍后重试。".

(** [h] is the stored record [record] brought up to date from the remote
    side: identity, mode, context and answers are the stored ones,
    questions and a review that the record has are kept. *)
Definition hydratedFrom (record h : InterviewSessionRecord) : Prop :=
  key h = key record /\ sessionId h = sessionId record
  /\ mode h = mode record /\ position h = position record
  /\ jdText h = jdText record /\ resumeText h = resumeText record
  /\ resumeContextKey h = resumeContextKey record
  /\ remoteNumericId h = remoteNumericId record
  /\ answers h = answers record
  /\ (questions record <> [] -> questions h = questions record)
  /\ (feedback record <> None -> feedback h <> None)
  /\ (h = record \/ 0 <= currentIndex h).

(** The record [new] stands where [old] stood in the store: same key, and
    the questions, review and context that [old] had. *)
Definition keptBy (old new : InterviewSessionRecord) : Prop :=
  key new = key old
  /\ (questions old <> [] -> questions new = questions old)
  /\ (feedback old <> None -> feedback new = feedback old)
  /\ (forall k, resumeContextKey old = Some k -> k <> "" ->
        resumeContextKey new = Some k).

(** [r'] is [r] read back from the storage: everything but the questions
    and the review, which are decoded anew, is the same; a missing context
    key reads as the empty one. *)
Definition sameCore (r r' : InterviewSessionRecord) : Prop :=
  key r' = key r /\ sessionId r' = sessionId r
  /\ mode r' = mode r /\ status r' = status r
  /\ position r' = position r /\ jdText r' = jdText r
  /\ resumeText r' = resumeText r
  /\ orDefault (resumeContextKey r') "" = orDefault (resumeContextKey r) ""
  /\ createdAt r' = createdAt r /\ updatedAt r' = updatedAt r
  /\ questionCount r' = questionCount r
  /\ answeredCount r' = answeredCount r
  /\ currentIndex r' = currentIndex r
  /\ answers r' = answers r
  /\ remoteNumericId r' = remoteNumericId r.

(** The summary page shows the stored record [r] as [item], and offers it
    in the list of a context when the record is of that context and has a
    review or is finished. *)
Definition shownAs (r : InterviewSessionRecord)
    (item : SummaryPage.SessionSummaryItem) : Prop :=
  SummaryPage.key item = key r /\ SummaryPage.sessionId item = sessionId r
  /\ SummaryPage.status item = InterviewStore.statusText (status r)
  /\ SummaryPage.mode item = InterviewStore.modeText (mode r)
  /\ SummaryPage.position item = position r
  /\ SummaryPage.createdAt item = createdAt r
  /\ SummaryPage.updatedAt item = updatedAt r
  /\ SummaryPage.questionCount item = questionCount r
  /\ SummaryPage.answeredCount item = answeredCount r
  /\ SummaryPage.resumeContextKey item = orDefault (resumeContextKey r) ""
  /\ match feedback r with
     | Some f =>
         exists g, SummaryPage.feedback item = Some g
                   /\ SummaryPage.summary g = summary f
     | None => SummaryPage.feedback item = None
     end
  /\ forall contextKey,
       SummaryPage.offered contextKey item
       = (isBlank contextKey
          || String.eqb (orDefault (resumeContextKey r) "") contextKey)
         && match feedback r with
            | Some _ => true
            | None => bool_decide (status r = finished)
            end.

(** The message of [nextQuestion] on a session that is not active. *)
Definition advanceRejectedMessage : string :=
  "当前练习已暂停，请先继续后再切题。".

(** * Further fixtures *)

Module FurtherFixtures.
Import Fixtures.

(** Every request is answered 404. *)
Definition always404 : Platform :=
  {| network := fun _ t _ => (t + 1, NetReply (mkResponse 404 None VNull));
     parseDate := parseMillis;
     toISOString := pretty;
     randomHex := hexOf;
     base36 := pretty;
     parseInt := parseMillis;
     API_BASE_URL := "http://127.0.0.1:8000" |}.

(** A remote side whose first reply hands out a new access token. *)
Definition refreshing : Platform :=
  scripted [json200 (VObj [("data", VObj [("token", VStr " fresh ")])])].

Definition redirecting : AuthClient.UseClientAuthOptions :=
  AuthClient.mkOptions (Some true) None.

Definition tokenLogin : AuthHookOps.LoginPayload :=
  AuthHookOps.mkLogin (Some " secret ") None (Some "Ada") None None None.

(** A login whose expiry (500) is before the time of the fixtures (1000). *)
Definition expiredLogin : AuthHookOps.LoginPayload :=
  AuthHookOps.mkLogin (Some "secret") None None None (Some "500") None.

Definition theQuestion (o : option InterviewQuestion) : InterviewQuestion :=
  match o with
  | Some q => q
  | None => mkQuestion "" "" [] None None None
  end.

(** The local fallback session of the fixtures, finished. *)
Definition wFinished : World := after (@perform offline OpFinish) wLocal.

(** A reply with a nested access token, and a reply with a review. *)
Definition tokenReply : jsval :=
  VObj [("data", VObj [("token", VStr " fresh ")])].

Definition reviewReply : jsval :=
  VObj [("feedback",
         VObj [("summary", VStr " well done ");
               ("strengths",
                VArr [VStr " clear "; VStr "  "; VStr ideographicSpace;
                      VStr (noBreakSpace +:+ "结构清晰" +:+ noBreakSpace)])])].

End FurtherFixtures.

(** * Verification *)

(** ** Strings *)

Section Strings.

Lemma append_cons c a b : String c a +:+ b = String c (a +:+ b).
Proof. reflexivity. Qed.

Lemma afterWhiteSpace_shorter s rest :
  afterWhiteSpace s = Some rest -> (String.length rest < String.length s)%nat.
Proof.
  destruct s as [|c0 [|c1 [|c2 r2]]]; simpl; try discriminate;
    repeat (match goal with
            | |- context [if ?b then _ else _] => destruct b
            end; simpl);
    intros H; inversion H; subst; simpl; lia.
Qed.

Lemma afterWhiteSpace_app s rest t :
  afterWhiteSpace s = Some rest ->
  afterWhiteSpace (s +:+ t) = Some (rest +:+ t).
Proof.
  destruct s as [|c0 [|c1 [|c2 r2]]]; rewrite ?append_cons; cbn; try discriminate;
    repeat (match goal with
            | |- context [if ?b then _ else _] => destruct b
            end; cbn);
    intros H; inversion H; subst; reflexivity.
Qed.

Lemma trimStartGo_fuel f1 : forall f2 s,
  (String.length s <= f1)%nat -> (String.length s <= f2)%nat ->
  trimStartGo f1 s = trimStartGo f2 s.
Proof.
  induction f1 as [|f1 IH]; intros f2 s H1 H2.
  - destruct s; [|simpl in H1; lia]. now destruct f2.
  - destruct f2 as [|f2].
    + destruct s; [reflexivity|simpl in H2; lia].
    + simpl. destruct (afterWhiteSpace s) as [rest|] eqn:E; [|reflexivity].
      apply afterWhiteSpace_shorter in E. apply IH; lia.
Qed.

Lemma trimStart_eq s :
  trimStart s = match afterWhiteSpace s with
                | Some rest => trimStart rest
                | None => s
                end.
Proof.
  unfold trimStart. destruct s as [|c s]; [reflexivity|].
  cbn [String.length trimStartGo].
  destruct (afterWhiteSpace (String c s)) as [rest|] eqn:E; [|reflexivity].
  apply afterWhiteSpace_shorter in E. simpl in E.
  apply trimStartGo_fuel; lia.
Qed.

Lemma trimStart_stable s : afterWhiteSpace s = None -> trimStart s = s.
Proof. intros E. now rewrite trimStart_eq, E. Qed.

Lemma trimStart_stripped s : afterWhiteSpace (trimStart s) = None.
Proof.
  remember (String.length s) as n eqn:Hn.
  revert s Hn. induction n as [n IH] using lt_wf_ind. intros s ->.
  rewrite trimStart_eq. destruct (afterWhiteSpace s) as [rest|] eqn:E;
    [|exact E].
  eapply IH; [|reflexivity]. now apply afterWhiteSpace_shorter.
Qed.

Lemma trimStart_idem (s : string) : trimStart (trimStart s) = trimStart s.
Proof. apply trimStart_stable, trimStart_stripped. Qed.

Lemma trimStart_app_blank a : forall t,
  trimStart a = "" -> trimStart t = "" -> trimStart (a +:+ t) = "".
Proof.
  remember (String.length a) as n eqn:Hn.
  revert a Hn. induction n as [n IH] using lt_wf_ind. intros a -> t Ha Ht.
  rewrite trimStart_eq in Ha.
  destruct (afterWhiteSpace a) as [rest|] eqn:E.
  - rewrite trimStart_eq, (afterWhiteSpace_app _ _ t E).
    eapply IH; [|reflexivity|exact Ha|exact Ht].
    now apply afterWhiteSpace_shorter.
  - subst a. exact Ht.
Qed.

Lemma trimEnd_split s : exists t, s = trimEnd s +:+ t /\ trimStart t = "".
Proof.
  induction s as [|c s [t [E Ht]]]; [now exists ""|].
  cbn [trimEnd]. destruct (isBlank (trimStart (String c s))) eqn:B.
  - exists (String c s). split; [reflexivity|].
    now apply String.eqb_eq in B.
  - exists t. split; [|exact Ht]. rewrite append_cons. now rewrite <- E.
Qed.

Lemma trimEnd_cons_blank c s :
  trimStart (String c (trimEnd s)) = "" -> trimStart (String c s) = "".
Proof.
  intros H. destruct (trimEnd_split s) as [t [E Ht]].
  rewrite E, <- append_cons.
  exact (trimStart_app_blank (String c (trimEnd s)) t H Ht).
Qed.

Lemma trimEnd_idem (s : string) : trimEnd (trimEnd s) = trimEnd s.
Proof.
  induction s as [|c s IH]; [reflexivity|].
  cbn [trimEnd]. destruct (isBlank (trimStart (String c s))) eqn:B;
    [reflexivity|].
  cbn [trimEnd]. rewrite IH.
  destruct (isBlank (trimStart (String c (trimEnd s)))) eqn:B'; [|reflexivity].
  apply String.eqb_eq, trimEnd_cons_blank in B'.
  rewrite B' in B. discriminate.
Qed.

Lemma trimEnd_stripped s :
  afterWhiteSpace s = None -> afterWhiteSpace (trimEnd s) = None.
Proof.
  intros E. destruct (afterWhiteSpace (trimEnd s)) as [rest|] eqn:E';
    [|reflexivity].
  destruct (trimEnd_split s) as [t [Es _]].
  apply (afterWhiteSpace_app _ _ t) in E'. rewrite <- Es, E in E'.
  discriminate.
Qed.

Lemma trimStart_trimEnd (s : string) :
  trimStart (trimEnd (trimStart s)) = trimEnd (trimStart s).
Proof. apply trimStart_stable, trimEnd_stripped, trimStart_stripped. Qed.

Lemma trim_idem (s : string) : trim (trim s) = trim s.
Proof.
  unfold trim. rewrite trimStart_trimEnd. apply trimEnd_idem.
Qed.

Lemma isBlank_true (s : string) : isBlank s = true <-> s = "".
Proof. unfold isBlank. apply String.eqb_eq. Qed.

Lemma isBlank_false (s : string) : isBlank s = false <-> s <> "".
Proof. unfold isBlank. apply String.eqb_neq. Qed.

Lemma strlen_pos (s : string) : 0 < strlen s <-> s <> "".
Proof.
  unfold strlen. destruct s as [|c s]; cbn [unitsGo].
  - split; [lia|congruence].
  - split; [congruence|intros _].
    destruct (isContinuation c); [lia|].
    unfold unitsOf. destruct (_ && _); lia.
Qed.

(** White space past the ASCII range is white space, and a character of
    the basic plane is one unit long whatever the number of its bytes. *)
Example trim_ideographic_space : trim ideographicSpace = "".
Proof. reflexivity. Qed.

Example trim_no_break_space : trim (noBreakSpace +:+ "hi" +:+ noBreakSpace) = "hi".
Proof. reflexivity. Qed.

Example trim_byte_order_mark :
  trim (byteOrderMark +:+ " 面试 " +:+ lineSeparator) = "面试".
Proof. reflexivity. Qed.

Example trim_keeps_zero_width_space :
  trim ("hi" +:+ zeroWidthSpace) = "hi" +:+ zeroWidthSpace.
Proof. reflexivity. Qed.

Example strlen_counts_units :
  strlen "面试" = 2 /\ strlen "naïve" = 5 /\ strlen "😀" = 2
  /\ strlen (sliceTo 1 "😀") = 1.
Proof. repeat split. Qed.

Example sliceTo_counts_units :
  sliceTo 2 "面试官" = "面试" /\ sliceTo 3 "a😀b" = "a😀"
  /\ sliceTo 5 "面试" = "面试".
Proof. repeat split. Qed.

(** A first line of 21 characters of three bytes each is kept whole, and
    one of 31 is cut after the 30th. *)
Example inferPositionFromJd_counts_units :
  inferPositionFromJd
    ("负责后端服务的设计开发与性能优化等相关工作" +:+ String "010" "熟悉缓存")
  = "负责后端服务的设计开发与性能优化等相关工作"
  /\ inferPositionFromJd
       "一二三四五六七八九十一二三四五六七八九十一二三四五六七八九十一"
     = "一二三四五六七八九十一二三四五六七八九十一二三四五六七八九十…".
Proof. split; vm_compute; reflexivity. Qed.

End Strings.

(** ** Reasoning about computations *)

Section Wp.

Lemma wp_ret {A} (a : A) w Q : Q (Ok a) w -> wp (ret a) w Q.
Proof. exact (fun q => q). Qed.

Lemma wp_throw {A} w (Q : Result A -> World -> Prop) :
  Q Throw w -> wp throw w Q.
Proof. exact (fun q => q). Qed.

Lemma wp_get w Q : Q (Ok w) w -> wp get w Q.
Proof. exact (fun q => q). Qed.

Lemma wp_dateNow w Q : Q (Ok (now (browser w))) w -> wp dateNow w Q.
Proof. exact (fun q => q). Qed.

Lemma wp_modify f w Q : Q (Ok tt) (f w) -> wp (modify f) w Q.
Proof. exact (fun q => q). Qed.

Lemma wp_bind {A B} (m : M A) (k : A -> M B) w Q :
  wp m w (fun r w' => match r with
                      | Ok a => wp (k a) w' Q
                      | Throw => Q Throw w'
                      end) ->
  wp (bind m k) w Q.
Proof.
  unfold wp, bind. destruct (m w) as [[a|] w']; simpl; auto.
Qed.

Lemma wp_tryCatch {A} (m handler : M A) w Q :
  wp m w (fun r w' => match r with
                      | Ok a => Q (Ok a) w'
                      | Throw => wp handler w' Q
                      end) ->
  wp (tryCatch m handler) w Q.
Proof.
  unfold wp, tryCatch. destruct (m w) as [[a|] w']; simpl; auto.
Qed.

Lemma wp_attempt {A} (m : M A) w Q :
  wp m w (fun r w' => Q (Ok r) w') -> wp (attempt m) w Q.
Proof.
  unfold wp, attempt. destruct (m w) as [r w']; simpl; auto.
Qed.

Lemma wp_tryFinally {A} (m : M A) (cleanup : M unit) w Q :
  wp m w (fun r w' => wp cleanup w' (fun _ w'' => Q r w'')) ->
  wp (tryFinally m cleanup) w Q.
Proof.
  unfold wp, tryFinally. destruct (m w) as [r w']; simpl; auto.
Qed.

Lemma wp_conseq {A} (m : M A) w (Q Q' : Result A -> World -> Prop) :
  wp m w Q -> (forall r w', Q r w' -> Q' r w') -> wp m w Q'.
Proof. unfold wp. auto. Qed.

Lemma wp_known {A} (m : M A) w r w' Q :
  m w = (r, w') -> Q r w' -> wp m w Q.
Proof. intros Hm HQ. unfold wp. now rewrite Hm. Qed.

Lemma wp_run {A} (m : M A) w Q :
  wp m w Q -> Q (fst (m w)) (snd (m w)).
Proof. exact (fun q => q). Qed.

End Wp.

(** One step of a computation built from the monad's combinators. *)
Ltac wp_step :=
  lazymatch goal with
  | |- wp (bind _ _) _ _ => apply wp_bind
  | |- wp (ret _) _ _ => apply wp_ret
  | |- wp throw _ _ => apply wp_throw
  | |- wp get _ _ => apply wp_get
  | |- wp dateNow _ _ => apply wp_dateNow
  | |- wp (modify _) _ _ => apply wp_modify
  | |- wp (tryCatch _ _) _ _ => apply wp_tryCatch
  | |- wp (attempt _) _ _ => apply wp_attempt
  | |- wp (tryFinally _ _) _ _ => apply wp_tryFinally
  end.

Ltac wp_go := wp_step; cbv beta iota.

(** ** The fallback review (C10) *)

Section Feedback.

Lemma localScore_bounds (count avg : Z) :
  0 <= count -> 45 <= localScore count avg <= 95.
Proof.
  intros Hc. unfold localScore.
  destruct (80 <=? avg), (140 <=? avg); lia.
Qed.

(** C10: for every answers map, total question count and position, the
    local fallback feedback carries a score between 45 and 95 and at least
    one improvement, also when nothing was answered. *)
Theorem buildLocalFeedback_score_and_improvements
    (ans : gmap string string) (totalQuestions : Z) (pos : string) :
  (exists s, score (buildLocalFeedback ans totalQuestions pos) = Some s
             /\ 45 <= s <= 95)
  /\ improvements (buildLocalFeedback ans totalQuestions pos) <> [].
Proof.
  split.
  - eexists. split; [reflexivity|].
    apply localScore_bounds. lia.
  - simpl. destruct (avgLength ans <? 80); discriminate.
Qed.

(** One answer of 28 characters of three bytes each, wrapped in
    ideographic spaces, is 28 units long once trimmed: no bonus for
    length; an answer of one ideographic space is no answer. *)
Example buildLocalFeedback_counts_units :
  let answer :=
    ideographicSpace
    +:+ "我在上一家公司负责订单系统的缓存改造把接口延迟降低了一半"
    +:+ ideographicSpace in
  avgLength {["q-1" := answer]} = 28
  /\ score (buildLocalFeedback {["q-1" := answer]} 3 "") = Some 57
  /\ score (buildLocalFeedback {["q-1" := ideographicSpace]} 3 "") = Some 45.
Proof. repeat split. Qed.

End Feedback.

(** ** The auth client leaves the page state alone *)

Section KeepsPage.

Lemma keepsPage_ret {A} (a : A) : keepsPage (ret a).
Proof. intros w. reflexivity. Qed.

Lemma keepsPage_throw {A} : keepsPage (@throw A).
Proof. intros w. reflexivity. Qed.

Lemma keepsPage_get : keepsPage get.
Proof. intros w. reflexivity. Qed.

Lemma keepsPage_dateNow : keepsPage dateNow.
Proof. intros w. reflexivity. Qed.

Lemma keepsPage_withBrowser f : keepsPage (modify (withBrowser f)).
Proof. intros w. reflexivity. Qed.

Lemma keepsPage_withAuth f : keepsPage (modify (withAuth f)).
Proof. intros w. reflexivity. Qed.

Lemma keepsPage_bind {A B} (m : M A) (k : A -> M B) :
  keepsPage m -> (forall a, keepsPage (k a)) -> keepsPage (bind m k).
Proof.
  intros Hm Hk w. unfold bind. specialize (Hm w).
  destruct (m w) as [[a|] w']; simpl in *; [|exact Hm].
  rewrite (Hk a w'). exact Hm.
Qed.

Lemma keepsPage_tryCatch {A} (m handler : M A) :
  keepsPage m -> keepsPage handler -> keepsPage (tryCatch m handler).
Proof.
  intros Hm Hh w. unfold tryCatch. specialize (Hm w).
  destruct (m w) as [[a|] w']; simpl in *; [exact Hm|].
  rewrite (Hh w'). exact Hm.
Qed.

Lemma keepsPage_attempt {A} (m : M A) : keepsPage m -> keepsPage (attempt m).
Proof.
  intros Hm w. unfold attempt. specialize (Hm w).
  destruct (m w) as [r w']; exact Hm.
Qed.

Lemma keepsPage_wp {A} (m : M A) w :
  keepsPage m -> wp m w (fun _ w' => page w' = page w).
Proof. intros Hm. apply Hm. Qed.

End KeepsPage.

Create HintDb keeps.

#[export] Hint Resolve keepsPage_ret keepsPage_throw keepsPage_get
  keepsPage_dateNow keepsPage_withBrowser keepsPage_withAuth : keeps.

Ltac keeps :=
  repeat (intros; first
    [ assumption
    | solve [auto with keeps]
    | apply keepsPage_bind
    | apply keepsPage_tryCatch
    | apply keepsPage_attempt
    | match goal with
      | |- keepsPage (match ?x with _ => _ end) => destruct x
      | |- keepsPage (if ?b then _ else _) => destruct b
      end ]).

Section AuthKeepsPage.
Context `{Platform}.
Import AuthClient.

Lemma keepsPage_fetch rq : keepsPage (fetch rq).
Proof.
  intros w. unfold fetch.
  destruct (network _ _ _) as [t [|r]]; reflexivity.
Qed.

Lemma keepsPage_drawHex len : keepsPage (drawHex len).
Proof. intros w. reflexivity. Qed.

Lemma keepsPage_isoNow : keepsPage isoNow.
Proof. unfold isoNow. keeps. Qed.

Hint Resolve keepsPage_fetch keepsPage_drawHex keepsPage_isoNow : keeps.

Lemma keepsPage_createGuestAuthState : keepsPage createGuestAuthState.
Proof.
  unfold createGuestAuthState, generateSessionId, generateAccessToken. keeps.
Qed.

Lemma keepsPage_saveClientAuthState s : keepsPage (saveClientAuthState s).
Proof. unfold saveClientAuthState, setStorage. keeps. Qed.

Hint Resolve keepsPage_createGuestAuthState keepsPage_saveClientAuthState
  : keeps.

Lemma keepsPage_normalizeClientAuthState v :
  keepsPage (normalizeClientAuthState v).
Proof. unfold normalizeClientAuthState. keeps. Qed.

Hint Resolve keepsPage_normalizeClientAuthState : keeps.

Lemma keepsPage_loadClientAuthState : keepsPage loadClientAuthState.
Proof.
  unfold loadClientAuthState, clearClientAuthState, setStorage. keeps.
Qed.

Hint Resolve keepsPage_loadClientAuthState : keeps.

Lemma keepsPage_getOrCreateClientAuthState :
  keepsPage getOrCreateClientAuthState.
Proof. unfold getOrCreateClientAuthState. keeps. Qed.

Hint Resolve keepsPage_getOrCreateClientAuthState : keeps.

Lemma keepsPage_persistState s : keepsPage (persistState s).
Proof. unfold persistState, adopt. keeps. Qed.

Hint Resolve keepsPage_persistState : keeps.

Lemma keepsPage_ensureAuthState : keepsPage ensureAuthState.
Proof. unfold ensureAuthState, adopt. keeps. Qed.

Lemma keepsPage_authFetch input init s : keepsPage (authFetch input init s).
Proof. unfold authFetch, syncAuthStateFromResponse. keeps. Qed.

Hint Resolve keepsPage_ensureAuthState keepsPage_authFetch : keeps.

Lemma keepsPage_extractExpiresAtFromPayload v :
  keepsPage (extractExpiresAtFromPayload v).
Proof. unfold extractExpiresAtFromPayload. keeps. Qed.

Hint Resolve keepsPage_extractExpiresAtFromPayload : keeps.

Lemma keepsPage_refreshAtEndpoint base endpoint current payloads :
  keepsPage (refreshAtEndpoint base endpoint current payloads).
Proof.
  induction payloads as [|p rest IH]; simpl; keeps.
Qed.

Hint Resolve keepsPage_refreshAtEndpoint : keeps.

Lemma keepsPage_tryAutoRefreshAuth base current :
  keepsPage (tryAutoRefreshAuth base current).
Proof.
  unfold tryAutoRefreshAuth.
  destruct (negb (hasRefreshToken current)); [keeps|].
  induction refreshEndpoints as [|e rest IH]; simpl; keeps.
Qed.

Hint Resolve keepsPage_tryAutoRefreshAuth : keeps.

Lemma keepsPage_downgrade options had current response :
  keepsPage (downgrade options had current response).
Proof.
  unfold downgrade, isAuthExpired, setAuthFailureReason,
    shouldSkipAutoRedirect, getCurrentReturnToPath, locationReplace.
  keeps.
Qed.

Hint Resolve keepsPage_downgrade : keeps.

Lemma keepsPage_apiFetch options base input init :
  keepsPage (apiFetch options base input init).
Proof.
  unfold apiFetch, setAuthFailureReason. keeps.
Qed.

Lemma keepsPage_pageFetch input init : keepsPage (pageFetch input init).
Proof. apply keepsPage_apiFetch. Qed.

Lemma keepsPage_callInterviewApi candidates payload :
  keepsPage (callInterviewApi pageFetch candidates payload).
Proof.
  induction candidates as [|c rest IH]; simpl; keeps.
Qed.

End AuthKeepsPage.

(** ** Transitions as sequences of patches *)

Ltac wp_page :=
  unfold setError, setNotice, setAnswerInput, setLoading, setCurrentSession,
    setSelectedRecordKey, setRecords, setForm, setPage;
  apply wp_modify.

Section Steady.
Context `{Platform}.

Lemma steady_ret {A} (a : A) : steady (ret a).
Proof. intros cur w Hw. exact Hw. Qed.

Lemma steady_throw {A} : steady (@throw A).
Proof. intros cur w Hw. exact Hw. Qed.

Lemma steady_get : steady get.
Proof. intros cur w Hw. exact Hw. Qed.

Lemma steady_bind {A B} (m : M A) (k : A -> M B) :
  steady m -> (forall a, steady (k a)) -> steady (bind m k).
Proof.
  intros Hm Hk cur w Hw. unfold bind. specialize (Hm cur w Hw).
  destruct (m w) as [[a|] w']; simpl in *; [|exact Hm].
  apply Hk, Hm.
Qed.

Lemma steady_tryCatch {A} (m handler : M A) :
  steady m -> steady handler -> steady (tryCatch m handler).
Proof.
  intros Hm Hh cur w Hw. unfold tryCatch. specialize (Hm cur w Hw).
  destruct (m w) as [[a|] w']; simpl in *; [exact Hm|].
  apply Hh, Hm.
Qed.

Lemma steady_keepsPage {A} (m : M A) : keepsPage m -> steady m.
Proof.
  intros Hm cur w [r [Hr Hp]]. exists r. split; [|exact Hp].
  unfold session. rewrite (Hm w). exact Hr.
Qed.

Lemma steady_setError e : steady (setError e).
Proof. intros cur w Hw. exact Hw. Qed.

Lemma steady_setNotice n : steady (setNotice n).
Proof. intros cur w Hw. exact Hw. Qed.

Lemma steady_setAnswerInput a : steady (setAnswerInput a).
Proof. intros cur w Hw. exact Hw. Qed.

Lemma applySessionPatch_run u w :
  applySessionPatch u w =
  match session w with
  | Some prev =>
      setCurrentSession
        (Some (stamp (u prev) (toISOString (now (browser w))))) w
  | None => (Ok tt, w)
  end.
Proof.
  unfold applySessionPatch, session, bind, get. simpl.
  destruct (currentSession (page w)); reflexivity.
Qed.

Lemma steady_applySessionPatch u : Updater u -> steady (applySessionPatch u).
Proof.
  intros Hu cur w [r [Hr Hp]]. rewrite applySessionPatch_run, Hr.
  eexists. split; [reflexivity|]. now constructor.
Qed.

Lemma steady_callInterviewApi candidates payload :
  steady (callInterviewApi pageFetch candidates payload).
Proof. apply steady_keepsPage, keepsPage_callInterviewApi. Qed.

Lemma steady_dateNow : steady dateNow.
Proof. intros cur w Hw. exact Hw. Qed.

End Steady.

Create HintDb steady.
#[export] Hint Resolve steady_ret steady_throw steady_get steady_setError
  steady_setNotice steady_setAnswerInput steady_callInterviewApi
  steady_dateNow : steady.
#[export] Hint Constructors Updater : steady.
#[export] Hint Resolve steady_applySessionPatch : steady.

Ltac steady :=
  repeat (intros; first
    [ assumption
    | solve [auto with steady]
    | apply steady_bind
    | apply steady_tryCatch
    | match goal with
      | |- steady (match ?x with _ => _ end) => destruct x eqn:?
      | |- steady (if ?b then _ else _) => destruct b eqn:?
      end ]).

Section Transitions.
Context `{Platform}.

Lemma steady_perform op : steady (perform op).
Proof.
  destruct op; unfold perform, submitAnswer, nextQuestion, pauseSession,
    resumeSession, endSession; steady.
Qed.

Lemma Patched_invariant (Inv : InterviewSessionRecord -> Prop) :
  (forall u nowIso r, Updater u -> Inv r -> Inv (stamp (u r) nowIso)) ->
  forall a b, Patched a b -> Inv a -> Inv b.
Proof.
  intros Hstep a b Hp Ha. induction Hp; auto.
Qed.

Lemma transition_invariant (Inv : InterviewSessionRecord -> Prop) :
  (forall u nowIso r, Updater u -> Inv r -> Inv (stamp (u r) nowIso)) ->
  forall op w cur,
    session w = Some cur -> Inv cur ->
    exists r, session (after (perform op) w) = Some r /\ Inv r.
Proof.
  intros Hstep op w cur Hs Hi.
  destruct (steady_perform op cur w) as [r [Hr Hp]].
  - exists cur. split; [exact Hs|constructor].
  - exists r. split; [exact Hr|]. eapply Patched_invariant; eauto.
Qed.

Lemma advanceLocally_answers r : answers (advanceLocally r) = answers r.
Proof. unfold advanceLocally. now destruct (_ <=? _). Qed.

Lemma advanceLocally_questions r : questions (advanceLocally r) = questions r.
Proof. unfold advanceLocally. now destruct (_ <=? _). Qed.

Lemma advanceLocally_mode r : mode (advanceLocally r) = mode r.
Proof. unfold advanceLocally. now destruct (_ <=? _). Qed.

Lemma Updater_answersCounted u nowIso r :
  Updater u -> answersCounted r -> answersCounted (stamp (u r) nowIso).
Proof.
  intros Hu [Hall _]. split; [|reflexivity].
  destruct Hu; cbn [stamp answers]; try exact Hall.
  - cbn. apply map_Forall_insert_2; [|exact Hall].
    now apply isBlank_false.
  - now rewrite advanceLocally_answers.
Qed.

Lemma clampIndex_inRange i qs :
  clampIndex i qs < Z.max 1 (Z.of_nat (length qs)).
Proof. unfold clampIndex. lia. Qed.

Lemma Updater_indexInRange u nowIso r :
  Updater u -> indexInRange r -> indexInRange (stamp (u r) nowIso).
Proof.
  unfold indexInRange. intros Hu Hr.
  destruct Hu; cbn [stamp currentIndex questions]; try exact Hr.
  - cbn. apply clampIndex_inRange.
  - cbn. apply clampIndex_inRange.
  - unfold advanceLocally. destruct (_ <=? _) eqn:E; [exact Hr|].
    cbn. lia.
Qed.

Lemma Updater_local u nowIso r :
  Updater u -> mode r = local -> mode (stamp (u r) nowIso) = local.
Proof.
  intros Hu Hr. destruct Hu; cbn [stamp mode]; try exact Hr; try reflexivity.
  now rewrite advanceLocally_mode.
Qed.

Lemma answersCounted_nonEmpty r :
  answersCounted r -> answeredCount r = nonEmptyAnswers (answers r).
Proof.
  intros [Hall Hc]. unfold nonEmptyAnswers. rewrite Hc.
  rewrite map_filter_id; [reflexivity|].
  intros k v Hk. exact (Hall k v Hk).
Qed.

End Transitions.

(** ** Computations that never throw *)

Section Returns.

Lemma returns_ret {A} (a : A) : returns (ret a).
Proof. intros w. now exists a. Qed.

Lemma returns_get : returns get.
Proof. intros w. now exists w. Qed.

Lemma returns_dateNow : returns dateNow.
Proof. intros w. now eexists. Qed.

Lemma returns_modify f : returns (modify f).
Proof. intros w. now exists tt. Qed.

Lemma returns_bind {A B} (m : M A) (k : A -> M B) :
  returns m -> (forall a, returns (k a)) -> returns (bind m k).
Proof.
  intros Hm Hk w. unfold bind. destruct (Hm w) as [a Ha].
  destruct (m w) as [r w']; simpl in Ha; subst r. apply Hk.
Qed.

Lemma returns_tryCatch {A} (m handler : M A) :
  returns handler -> returns (tryCatch m handler).
Proof.
  intros Hh w. unfold tryCatch.
  destruct (m w) as [[a|] w']; [now exists a|apply Hh].
Qed.

Lemma returns_attempt {A} (m : M A) : returns (attempt m).
Proof.
  intros w. unfold attempt. destruct (m w) as [r w']. now exists r.
Qed.

End Returns.

Create HintDb returns.
#[export] Hint Resolve returns_ret returns_get returns_dateNow returns_modify
  returns_attempt : returns.

Ltac returns :=
  repeat (intros; first
    [ assumption
    | solve [auto with returns]
    | apply returns_bind
    | apply returns_tryCatch
    | match goal with
      | |- returns (match ?x with _ => _ end) => destruct x
      | |- returns (if ?b then _ else _) => destruct b
      end ]).

Section AuthReturns.
Context `{Platform}.
Import AuthClient.

Lemma returns_drawHex len : returns (drawHex len).
Proof. intros w. now eexists. Qed.

Lemma returns_isoNow : returns isoNow.
Proof. unfold isoNow. returns. Qed.

Hint Resolve returns_drawHex returns_isoNow : returns.

Lemma returns_createGuestAuthState : returns createGuestAuthState.
Proof.
  unfold createGuestAuthState, generateSessionId, generateAccessToken.
  returns.
Qed.

Lemma returns_saveClientAuthState s : returns (saveClientAuthState s).
Proof. unfold saveClientAuthState, setStorage. returns. Qed.

Hint Resolve returns_createGuestAuthState returns_saveClientAuthState
  : returns.

Lemma returns_normalizeClientAuthState v :
  returns (normalizeClientAuthState v).
Proof. unfold normalizeClientAuthState. returns. Qed.

Hint Resolve returns_normalizeClientAuthState : returns.

Lemma returns_loadClientAuthState : returns loadClientAuthState.
Proof.
  unfold loadClientAuthState, clearClientAuthState, setStorage. returns.
Qed.

Hint Resolve returns_loadClientAuthState : returns.

Lemma returns_getOrCreateClientAuthState : returns getOrCreateClientAuthState.
Proof. unfold getOrCreateClientAuthState. returns. Qed.

Lemma returns_persistState s : returns (persistState s).
Proof. unfold persistState, adopt. returns. Qed.

Hint Resolve returns_getOrCreateClientAuthState returns_persistState
  : returns.

Lemma returns_ensureAuthState : returns ensureAuthState.
Proof. unfold ensureAuthState, adopt. returns. Qed.

Lemma returns_extractExpiresAtFromPayload v :
  returns (extractExpiresAtFromPayload v).
Proof. unfold extractExpiresAtFromPayload. returns. Qed.

Hint Resolve returns_ensureAuthState returns_extractExpiresAtFromPayload
  : returns.

Lemma returns_refreshAtEndpoint base endpoint current payloads :
  returns (refreshAtEndpoint base endpoint current payloads).
Proof. induction payloads as [|p rest IH]; simpl; returns. Qed.

Hint Resolve returns_refreshAtEndpoint : returns.

Lemma returns_tryAutoRefreshAuth base current :
  returns (tryAutoRefreshAuth base current).
Proof.
  unfold tryAutoRefreshAuth.
  destruct (negb (hasRefreshToken current)); [returns|].
  induction refreshEndpoints as [|e rest IH]; simpl; returns.
Qed.

Lemma returns_downgrade options had current response :
  returns (downgrade options had current response).
Proof.
  unfold downgrade, isAuthExpired, setAuthFailureReason,
    shouldSkipAutoRedirect, getCurrentReturnToPath, locationReplace.
  returns.
Qed.

End AuthReturns.

Section EngineReturns.
Context `{Platform}.

Lemma returns_setPage f : returns (setPage f).
Proof. unfold setPage. auto with returns. Qed.

Lemma returns_applySessionPatch u : returns (applySessionPatch u).
Proof.
  unfold applySessionPatch, setCurrentSession, setPage, isoNow. returns.
Qed.

Hint Resolve returns_applySessionPatch : returns.

Lemma returns_perform op : returns (perform op).
Proof.
  destruct op; unfold perform, submitAnswer, nextQuestion, pauseSession,
    resumeSession, endSession, setAnswerInput, setError, setNotice, setPage;
    returns.
Qed.

End EngineReturns.

(** ** The claims on the client auth module *)

Section AuthRuns.
Context `{Platform}.
Import Auth AuthClient.

Lemma createGuestAuthState_run w :
  createGuestAuthState w = (Ok (guestAt (browser w)), withBrowser drawnTwice w).
Proof. reflexivity. Qed.

Lemma saveClientAuthState_run s w :
  saveClientAuthState s w = (Ok s, withBrowser (savedIn s) w).
Proof. reflexivity. Qed.

Lemma freshGuest_guestAt b : freshGuest (guestAt b).
Proof.
  exists (mkWorld b (mkAuthHook None None "" None)
                  (mkPage "" "" "" "" [] "" None "" false "" "")).
  reflexivity.
Qed.

Lemma freshGuest_local g : freshGuest g -> mode g = local.
Proof. intros [w Hw]. rewrite createGuestAuthState_run in Hw. now inversion Hw. Qed.

Lemma freshGuest_bare g :
  freshGuest g ->
  refreshToken g = None /\ expiresAt g = None /\ userName g = None.
Proof. intros [w Hw]. rewrite createGuestAuthState_run in Hw. now inversion Hw. Qed.

Lemma guest_not_expired t g :
  freshGuest g -> expiredWithoutRefreshAt t g = false.
Proof.
  intros Hg. unfold expiredWithoutRefreshAt.
  rewrite (freshGuest_local g Hg). reflexivity.
Qed.

Lemma persistState_run next w :
  persistState next w = (Ok (fst (persisted next w)), snd (persisted next w)).
Proof.
  unfold persistState, persisted, bind, dateNow. cbn.
  destruct (expiredWithoutRefreshAt (now (browser w)) next); reflexivity.
Qed.

Lemma persisted_spec next w :
  let s := fst (persisted next w) in
  let w' := snd (persisted next w) in
  expiredWithoutRefreshAt (now (browser w')) s = false
  /\ authRef (auth w') = Some s /\ authState (auth w') = Some s
  /\ storage (browser w') !! STORAGE_KEY = Some (Json (encodeAuth s))
  /\ now (browser w') = now (browser w)
  /\ netlog (browser w') = netlog (browser w)
  /\ page w' = page w
  /\ authFailureReason (auth w') = authFailureReason (auth w)
  /\ (expiredWithoutRefreshAt (now (browser w)) next = true -> freshGuest s)
  /\ (expiredWithoutRefreshAt (now (browser w)) next = false -> s = next).
Proof.
  unfold persisted.
  destruct (expiredWithoutRefreshAt (now (browser w)) next) eqn:E; cbn.
  - repeat split; try discriminate; auto using freshGuest_guestAt.
    apply lookup_insert_eq.
  - repeat split; try discriminate; auto. apply lookup_insert_eq.
Qed.

Lemma normalizeClientAuthState_valid value w s w' :
  normalizeClientAuthState value w = (Ok (Some s), w') ->
  w' = w /\ expiredWithoutRefreshAt (now (browser w)) s = false.
Proof.
  unfold normalizeClientAuthState.
  destruct (negb (isRecord value)); [discriminate|].
  destruct (_ || _); [discriminate|].
  unfold bind, isoNow, dateNow, ret, bind.
  destruct (prop value "updatedAt") as [| | | |u| |];
    try destruct (isBlank u); cbn;
    match goal with
    | |- context [expiredWithoutRefreshAt ?t ?n] =>
        destruct (expiredWithoutRefreshAt t n) eqn:E
    end; intros [= <- <-]; auto.
Qed.

Lemma normalizeClientAuthState_total value w :
  exists o,
    normalizeClientAuthState value w = (Ok o, w)
    /\ forall s, o = Some s ->
         expiredWithoutRefreshAt (now (browser w)) s = false.
Proof.
  unfold normalizeClientAuthState.
  destruct (negb (isRecord value)); [exists None; now split|].
  destruct (_ || _); [exists None; now split|].
  unfold bind, isoNow, dateNow, ret, bind.
  destruct (prop value "updatedAt") as [| | | |u| |];
    try destruct (isBlank u); cbn;
    match goal with
    | |- context [expiredWithoutRefreshAt ?t ?n] =>
        destruct (expiredWithoutRefreshAt t n) eqn:E
    end;
    eexists; (split; [reflexivity|]); intros s0 [=]; subst; auto.
Qed.

Lemma loadClientAuthState_valid w s w' :
  loadClientAuthState w = (Ok (Some s), w') ->
  w' = w /\ expiredWithoutRefreshAt (now (browser w)) s = false.
Proof.
  unfold loadClientAuthState, bind, get. cbn.
  destruct (orElseOpt _ _) as [[|parsed]|]; try discriminate.
  destruct (normalizeClientAuthState parsed w) as [[[n|]|] w1] eqn:E;
    cbn; try discriminate.
  intros [= <- <-]. exact (normalizeClientAuthState_valid _ _ _ _ E).
Qed.

Lemma loadClientAuthState_quiet w :
  exists o, fst (loadClientAuthState w) = Ok o
  /\ now (browser (snd (loadClientAuthState w))) = now (browser w)
  /\ netlog (browser (snd (loadClientAuthState w))) = netlog (browser w)
  /\ entropy (browser (snd (loadClientAuthState w))) = entropy (browser w)
  /\ auth (snd (loadClientAuthState w)) = auth w.
Proof.
  unfold loadClientAuthState, bind, get. cbn.
  destruct (orElseOpt _ _) as [[|parsed]|]; cbn; eauto 10.
  pose proof (returns_normalizeClientAuthState parsed w) as [o Ho].
  destruct (normalizeClientAuthState parsed w) as [[[n|]|] w1] eqn:E;
    cbn in *; try discriminate.
  - destruct (normalizeClientAuthState_valid _ _ _ _ E) as [-> _]. eauto 10.
  - assert (w1 = w) as ->.
    { revert E. unfold normalizeClientAuthState.
      destruct (negb (isRecord parsed)); [now intros [= <-]|].
      destruct (_ || _); [now intros [= <-]|].
      unfold bind, isoNow, dateNow, ret, bind.
      destruct (prop parsed "updatedAt") as [| | | |u| |];
        try destruct (isBlank u); cbn;
        match goal with
        | |- context [expiredWithoutRefreshAt ?t ?n] =>
            destruct (expiredWithoutRefreshAt t n)
        end; now intros [= <-]. }
    eauto 10.
Qed.

(** What [getOrCreateClientAuthState] returns is what the storage holds
    when that is a valid credential, and else a fresh guest, which it
    stores. *)
Lemma getOrCreateClientAuthState_spec w :
  exists s,
    fst (getOrCreateClientAuthState w) = Ok s
    /\ let w' := snd (getOrCreateClientAuthState w) in
       expiredWithoutRefreshAt (now (browser w')) s = false
       /\ now (browser w') = now (browser w)
       /\ netlog (browser w') = netlog (browser w)
       /\ auth w' = auth w
       /\ (fst (loadClientAuthState w) = Ok None ->
           freshGuest s
           /\ storage (browser w') !! STORAGE_KEY
              = Some (Json (encodeAuth s))).
Proof.
  cbv [getOrCreateClientAuthState bind ret].
  destruct (loadClientAuthState_quiet w) as (o & Ho & Hn & Hl & He & Ha).
  destruct (loadClientAuthState w) as [r w1] eqn:E. cbn in Ho, Hn, Hl, He, Ha.
  subst r. destruct o as [s|].
  - destruct (loadClientAuthState_valid _ _ _ E) as [-> Hv].
    cbn. exists s. split; [reflexivity|]. split; [exact Hv|].
    repeat split; discriminate.
  - rewrite createGuestAuthState_run, saveClientAuthState_run.
    eexists. split; [reflexivity|]. cbn.
    rewrite (guest_not_expired _ _ (freshGuest_guestAt (browser w1))).
    repeat split; auto.
    + apply freshGuest_guestAt.
    + apply lookup_insert_eq.
Qed.

(** What [ensureAuthState] returns is the current credential and is not an
    expired authenticated credential without refresh credential. *)
Lemma ensureAuthState_spec w :
  exists s,
    fst (ensureAuthState w) = Ok s
    /\ let w' := snd (ensureAuthState w) in
       expiredWithoutRefreshAt (now (browser w')) s = false
       /\ authRef (auth w') = Some s
       /\ now (browser w') = now (browser w)
       /\ netlog (browser w') = netlog (browser w)
       /\ (forall current,
             authRef (auth w) = Some current ->
             if expiredWithoutRefreshAt (now (browser w)) current
             then freshGuest s
                  /\ storage (browser w') !! STORAGE_KEY
                     = Some (Json (encodeAuth s))
             else s = current /\ w' = w).
Proof.
  cbv [ensureAuthState bind get dateNow ret].
  destruct (authRef (auth w)) as [current|] eqn:Hc.
  - destruct (expiredWithoutRefreshAt (now (browser w)) current) eqn:E.
    + rewrite createGuestAuthState_run, persistState_run.
      unfold persisted. cbn [browser withBrowser now drawnTwice].
      rewrite (guest_not_expired _ _ (freshGuest_guestAt (browser w))).
      cbn [fst snd]. eexists. split; [reflexivity|]. cbn.
      rewrite (guest_not_expired _ _ (freshGuest_guestAt (browser w))).
      repeat split; auto.
      intros c [= <-]. rewrite E.
      split; [apply freshGuest_guestAt|apply lookup_insert_eq].
    + cbn. exists current. repeat split; auto.
      intros c [= <-]. rewrite E. auto.
  - destruct (getOrCreateClientAuthState_spec w)
      as (s & Hs & Hv & Hn & Hl & Ha & _).
    destruct (getOrCreateClientAuthState w) as [r w1]. cbn [fst snd] in *.
    subst r. exists s. split; [reflexivity|]. cbn.
    repeat split; auto. intros c Hc'. congruence.
Qed.

Lemma guestAt_same b b' :
  now b' = now b -> entropy b' = entropy b -> guestAt b' = guestAt b.
Proof. unfold guestAt. now intros -> ->. Qed.

Lemma persisted_guest next w :
  expiredWithoutRefreshAt (now (browser w)) next = true ->
  fst (persisted next w) = guestAt (browser w).
Proof. unfold persisted. now intros ->. Qed.

Lemma ensureAuthState_guest w current :
  authRef (auth w) = Some current ->
  expiredWithoutRefreshAt (now (browser w)) current = true ->
  fst (ensureAuthState w) = Ok (guestAt (browser w)).
Proof.
  intros Hc He. cbv [ensureAuthState bind get dateNow ret]. rewrite Hc, He.
  rewrite createGuestAuthState_run, persistState_run.
  unfold persisted. cbn [browser withBrowser now drawnTwice].
  rewrite (guest_not_expired _ _ (freshGuest_guestAt (browser w))).
  reflexivity.
Qed.

Lemma getOrCreateClientAuthState_guest w :
  fst (loadClientAuthState w) = Ok None ->
  fst (getOrCreateClientAuthState w) = Ok (guestAt (browser w)).
Proof.
  intros Hnone. cbv [getOrCreateClientAuthState bind ret].
  destruct (loadClientAuthState_quiet w) as (o & Ho & Hn & _ & He & _).
  destruct (loadClientAuthState w) as [r w1] eqn:E. cbn [fst snd] in *.
  subst r. rewrite createGuestAuthState_run, saveClientAuthState_run.
  cbn [fst]. now rewrite (guestAt_same (browser w) (browser w1)).
Qed.

(** [syncAuthStateFromResponse] adopts the session the reply names: it
    saves and returns the credential it was given under the new session
    id, whatever the expiry of that credential. *)
Lemma syncAuthStateFromResponse_adopts current response h w :
  rsessionHeader response = Some h ->
  trim h <> "" -> trim h <> sessionId current ->
  let saved := mkAuth (trim h) (accessToken current) (refreshToken current)
                      (mode current) (toISOString (now (browser w)))
                      (userName current) (expiresAt current) in
  syncAuthStateFromResponse current response w
  = (Ok saved, withBrowser (savedIn saved) w).
Proof.
  intros Hh Hne Hother. unfold syncAuthStateFromResponse. rewrite Hh.
  apply isBlank_false in Hne. rewrite Hne.
  apply String.eqb_neq in Hother. rewrite Hother. reflexivity.
Qed.

End AuthRuns.

Section KeepsWire.

Lemma keepsWire_ret {A} (a : A) : keepsWire (ret a).
Proof. intros w. split; reflexivity. Qed.

Lemma keepsWire_get : keepsWire get.
Proof. intros w. split; reflexivity. Qed.

Lemma keepsWire_dateNow : keepsWire dateNow.
Proof. intros w. split; reflexivity. Qed.

Lemma keepsWire_withAuth f : keepsWire (modify (withAuth f)).
Proof. intros w. split; reflexivity. Qed.

Lemma keepsWire_bind {A B} (m : M A) (k : A -> M B) :
  keepsWire m -> (forall a, keepsWire (k a)) -> keepsWire (bind m k).
Proof.
  intros Hm Hk w. unfold bind. specialize (Hm w).
  destruct (m w) as [[a|] w']; simpl in *; [|exact Hm].
  destruct (Hk a w') as [H1 H2]. destruct Hm as [H3 H4].
  split; congruence.
Qed.

End KeepsWire.

Create HintDb wire.
#[export] Hint Resolve keepsWire_ret keepsWire_get keepsWire_dateNow
  keepsWire_withAuth : wire.

Ltac wire :=
  repeat (intros; first
    [ assumption
    | solve [auto with wire]
    | apply keepsWire_bind
    | match goal with
      | |- keepsWire (match ?x with _ => _ end) => destruct x
      | |- keepsWire (if ?b then _ else _) => destruct b
      end ]).

Section AuthWire.
Context `{Platform}.
Import Auth AuthClient.

Lemma keepsWire_isoNow : keepsWire isoNow.
Proof. unfold isoNow. wire. Qed.

Lemma keepsWire_setStorage f : keepsWire (setStorage f).
Proof. intros w. split; reflexivity. Qed.

Lemma keepsWire_createGuestAuthState : keepsWire createGuestAuthState.
Proof. intros w. split; reflexivity. Qed.

Lemma keepsWire_locationReplace r reason : keepsWire (locationReplace r reason).
Proof. intros w. split; reflexivity. Qed.

Hint Resolve keepsWire_isoNow keepsWire_setStorage
  keepsWire_createGuestAuthState keepsWire_locationReplace : wire.

Lemma keepsWire_saveClientAuthState s : keepsWire (saveClientAuthState s).
Proof. unfold saveClientAuthState. wire. Qed.

Hint Resolve keepsWire_saveClientAuthState : wire.

Lemma keepsWire_persistState s : keepsWire (persistState s).
Proof. unfold persistState, adopt. wire. Qed.

Lemma keepsWire_extractExpiresAtFromPayload v :
  keepsWire (extractExpiresAtFromPayload v).
Proof. unfold extractExpiresAtFromPayload. wire. Qed.

Lemma keepsWire_syncAuthStateFromResponse current response :
  keepsWire (syncAuthStateFromResponse current response).
Proof. unfold syncAuthStateFromResponse. wire. Qed.

Hint Resolve keepsWire_persistState keepsWire_extractExpiresAtFromPayload
  keepsWire_syncAuthStateFromResponse : wire.

Lemma fetch_log rq w :
  netlog (browser (snd (fetch rq w))) = (netlog (browser w) ++ [rq])%list.
Proof.
  unfold fetch. destruct (network _ _ _) as [t [|r]]; reflexivity.
Qed.

(** [authFetch] under a given credential sends exactly the request that
    [buildInitWithAuth] builds. *)
Lemma authFetch_log input init s w :
  netlog (browser (snd (authFetch input init (Some s) w)))
  = (netlog (browser w) ++ [buildInitWithAuth input init s])%list.
Proof.
  unfold authFetch. cbv [bind ret].
  pose proof (fetch_log (buildInitWithAuth input init s) w) as Hf.
  destruct (fetch _ w) as [[response|] w1]; cbn [snd] in *; [|exact Hf].
  destruct (keepsWire_syncAuthStateFromResponse s response w1) as [Hl _].
  destruct (syncAuthStateFromResponse s response w1) as [[next|] w2];
    cbn [snd] in *; congruence.
Qed.

(** [authFetch] returns the reply the network gives to its request, and
    throws when the transport fails. *)
Lemma authFetch_outcome input init s w :
  match fst (authFetch input init (Some s) w),
        snd (network (netlog (browser w)) (now (browser w))
               (buildInitWithAuth input init s)) with
  | Ok (r, _), NetReply r' => r = r'
  | Throw, NetError => True
  | _, _ => False
  end.
Proof.
  unfold authFetch, fetch. cbv [bind ret].
  destruct (network _ _ _) as [t [|r]]; cbn [fst snd]; [exact I|].
  unfold syncAuthStateFromResponse.
  destruct (rsessionHeader r) as [h|]; [|reflexivity].
  destruct (_ || _); reflexivity.
Qed.

Lemma sent_refl n P w : sent n P w w.
Proof. exists []. rewrite app_nil_r. repeat split; [cbn; lia|constructor]. Qed.

Lemma sent_wire {A} (m : M A) n P w w0 :
  keepsWire m -> sent n P w0 w -> sent n P w0 (snd (m w)).
Proof.
  intros Hm (rs & Hl & Hn & HP). exists rs.
  destruct (Hm w) as [-> _]. auto.
Qed.

Lemma sent_more n m P w w1 w2 :
  sent n P w w1 -> sent m P w1 w2 -> sent (n + m) P w w2.
Proof.
  intros (rs1 & H1 & L1 & F1) (rs2 & H2 & L2 & F2).
  exists (rs1 ++ rs2)%list. rewrite H2, H1, app_assoc, length_app.
  repeat split; [lia|]. now apply Forall_app.
Qed.

Lemma sent_weaken n m P w w' : (n <= m)%nat -> sent n P w w' -> sent m P w w'.
Proof. intros Hle (rs & H1 & L1 & F1). exists rs. repeat split; auto; lia. Qed.

Lemma refreshAtEndpoint_sent base endpoint current payloads w :
  In endpoint refreshEndpoints ->
  (forall p, In p payloads -> In p (refreshPayloads current)) ->
  exists o,
    fst (refreshAtEndpoint base endpoint current payloads w) = Ok o
    /\ sent (length payloads) (isRefreshRequest base current) w
         (snd (refreshAtEndpoint base endpoint current payloads w)).
Proof.
  intros He. revert w.
  induction payloads as [|p rest IH]; intros w Hin; cbn [refreshAtEndpoint].
  - exists None. split; [reflexivity|apply sent_refl].
  - assert (Hone : sent 1 (isRefreshRequest base current) w
                     (snd (fetch (refreshRequest base endpoint current p) w))).
    { exists [refreshRequest base endpoint current p].
      rewrite fetch_log. repeat split; [cbn; lia|].
      repeat constructor. exists endpoint, p. repeat split; auto.
      apply Hin. now left. }
    assert (Hrest : forall p', In p' rest -> In p' (refreshPayloads current))
      by (intros p' Hp'; apply Hin; now right).
    assert (Hnext : forall w1,
      sent 1 (isRefreshRequest base current) w w1 ->
      exists o,
        fst (refreshAtEndpoint base endpoint current rest w1) = Ok o
        /\ sent (length (p :: rest)) (isRefreshRequest base current) w
             (snd (refreshAtEndpoint base endpoint current rest w1))).
    { intros w1 H1. destruct (IH w1 Hrest) as (o & Ho & Hs).
      exists o. split; [exact Ho|]. exact (sent_more _ _ _ _ _ _ H1 Hs). }
    cbv [bind attempt].
    destruct (fetch (refreshRequest base endpoint current p) w)
      as [[response|] w1]; cbn [fst snd] in *; [|now apply Hnext].
    destruct (_ || _).
    { exists None. split; [reflexivity|].
      apply (sent_weaken 1); [cbn; lia|exact Hone]. }
    destruct (negb (rok response)); [now apply Hnext|].
    destruct (extractTokenFromPayload (rjson response)) as [tok|];
      [|now apply Hnext].
    pose proof (keepsWire_extractExpiresAtFromPayload (rjson response) w1)
      as [Hl _].
    pose proof (returns_extractExpiresAtFromPayload (rjson response) w1)
      as [e He'].
    destruct (extractExpiresAtFromPayload (rjson response) w1)
      as [r w2]; cbn [fst snd] in *. subst r.
    cbv [isoNow bind dateNow ret]. cbn [fst snd].
    eexists. split; [reflexivity|].
    apply (sent_weaken 1); [cbn; lia|].
    destruct Hone as (rs & H1 & L1 & F1). exists rs. rewrite Hl. auto.
Qed.

Lemma refreshOverEndpoints_sent base endpoints current w :
  (forall e, In e endpoints -> In e refreshEndpoints) ->
  exists o,
    fst (refreshOverEndpoints base endpoints current w) = Ok o
    /\ sent (3 * length endpoints) (isRefreshRequest base current) w
         (snd (refreshOverEndpoints base endpoints current w)).
Proof.
  revert w. induction endpoints as [|e rest IH]; intros w Hin;
    cbn [refreshOverEndpoints].
  - exists None. split; [reflexivity|apply sent_refl].
  - destruct (refreshAtEndpoint_sent base e current (refreshPayloads current) w)
      as (o & Ho & Hs); [apply Hin; now left|auto|].
    cbv [bind].
    destruct (refreshAtEndpoint base e current (refreshPayloads current) w)
      as [r w1]; cbn [fst snd] in *. subst r.
    destruct o as [s|].
    + exists (Some s). split; [reflexivity|].
      apply (sent_weaken 3); [cbn; lia|exact Hs].
    + destruct (IH w1) as (o & Ho & Hs');
        [intros e' He'; apply Hin; now right|].
      exists o. split; [exact Ho|].
      apply (sent_weaken (3 + 3 * length rest)); [cbn; lia|].
      exact (sent_more _ _ _ _ _ _ Hs Hs').
Qed.

(** One run of [tryAutoRefreshAuth] returns and sends at most 12 requests,
    all of them refresh requests without bearer token. *)
Lemma tryAutoRefreshAuth_sent base current w :
  exists o,
    fst (tryAutoRefreshAuth base current w) = Ok o
    /\ sent 12 (isRefreshRequest base current) w
         (snd (tryAutoRefreshAuth base current w))
    /\ page (snd (tryAutoRefreshAuth base current w)) = page w.
Proof.
  pose proof (keepsPage_tryAutoRefreshAuth base current w) as Hp.
  unfold tryAutoRefreshAuth in *.
  destruct (negb (hasRefreshToken current)).
  - exists None. repeat split. apply sent_refl.
  - destruct (refreshOverEndpoints_sent base refreshEndpoints current w)
      as (o & Ho & Hs); [auto|].
    exists o. auto.
Qed.

Lemma replies_app log t a b :
  replies log t (a ++ b)
  = (replies log t a ++ replies (log ++ a) (clockAfter log t a) b)%list.
Proof.
  revert log t. induction a as [|rq a IH]; intros log t;
    cbn [replies clockAfter app].
  - now rewrite app_nil_r.
  - rewrite IH, <- app_assoc. reflexivity.
Qed.

Lemma clockAfter_app log t a b :
  clockAfter log t (a ++ b) = clockAfter (log ++ a) (clockAfter log t a) b.
Proof.
  revert log t. induction a as [|rq a IH]; intros log t;
    cbn [clockAfter app].
  - now rewrite app_nil_r.
  - rewrite IH, <- app_assoc. reflexivity.
Qed.

Lemma unusable_error : unusable NetError.
Proof. intros tok (r & E & _). discriminate. Qed.

Lemma unusable_not_ok r : rok r = false -> unusable (NetReply r).
Proof. intros Hr tok (r' & [= <-] & Hok & _). congruence. Qed.

Lemma unusable_no_token r :
  extractTokenFromPayload (rjson r) = None -> unusable (NetReply r).
Proof. intros Hr tok (r' & [= <-] & _ & Ht). congruence. Qed.

Lemma refreshVerdict_app outs1 o outs2 :
  Forall unusable outs1 -> refreshVerdict o outs2 ->
  refreshVerdict o (outs1 ++ outs2).
Proof.
  intros H1 H2. destruct o as [c|]; cbn in *.
  - destruct H2 as (before & out & -> & Hb & Hr & Hm).
    exists (outs1 ++ before)%list, out. rewrite app_assoc.
    repeat split; auto. now apply Forall_app.
  - now apply Forall_app.
Qed.

(** [fetch] logs the request and completes with what the network gives at
    the time of sending. *)
Lemma fetch_spec rq w :
  let sending := network (netlog (browser w)) (now (browser w)) rq in
  netlog (browser (snd (fetch rq w))) = (netlog (browser w) ++ [rq])%list
  /\ now (browser (snd (fetch rq w))) = fst sending
  /\ fst (fetch rq w) = match snd sending with
                        | NetError => Throw
                        | NetReply r => Ok r
                        end.
Proof.
  unfold fetch. destruct (network _ _ _) as [t [|r]]; repeat split.
Qed.

(** The inner loop of a refresh sends the requests of its endpoint in the
    order of the shapes and stops at the first reply that renews the
    credential or tells that the endpoint is missing. *)
Lemma refreshAtEndpoint_trace base endpoint current payloads : forall w,
  exists o rs,
    fst (refreshAtEndpoint base endpoint current payloads w) = Ok o
    /\ let w' := snd (refreshAtEndpoint base endpoint current payloads w) in
       netlog (browser w') = (netlog (browser w) ++ rs)%list
       /\ now (browser w')
          = clockAfter (netlog (browser w)) (now (browser w)) rs
       /\ rs `prefix_of` map (refreshRequest base endpoint current) payloads
       /\ (payloads <> [] -> rs <> [])
       /\ refreshVerdict o (replies (netlog (browser w)) (now (browser w)) rs)
       /\ (o = None ->
           Forall (fun out => ~ missing out)
                  (replies (netlog (browser w)) (now (browser w)) rs) ->
           rs = map (refreshRequest base endpoint current) payloads).
Proof.
  induction payloads as [|p rest IH]; intros w; cbn [refreshAtEndpoint].
  - exists None, []. cbn. rewrite app_nil_r.
    repeat split; auto using prefix_nil.
  - set (rq := refreshRequest base endpoint current p).
    destruct (fetch_spec rq w) as (Hl & Hn & Hr). cbv zeta in Hn, Hr.
    set (out := snd (network (netlog (browser w)) (now (browser w)) rq))
      in *.
    (* the request alone, when the loop stops after it *)
    assert (Hstop : forall o w',
      netlog (browser w') = netlog (browser (snd (fetch rq w))) ->
      now (browser w') = now (browser (snd (fetch rq w))) ->
      refreshVerdict o [out] ->
      (o = None -> missing out) ->
      netlog (browser w') = (netlog (browser w) ++ [rq])%list
      /\ now (browser w')
         = clockAfter (netlog (browser w)) (now (browser w)) [rq]
      /\ [rq] `prefix_of` map (refreshRequest base endpoint current)
                            (p :: rest)
      /\ (p :: rest <> [] -> [rq] <> [])
      /\ refreshVerdict o
           (replies (netlog (browser w)) (now (browser w)) [rq])
      /\ (o = None ->
          Forall (fun out => ~ missing out)
                 (replies (netlog (browser w)) (now (browser w)) [rq]) ->
          [rq] = map (refreshRequest base endpoint current) (p :: rest))).
    { intros o w' E1 E2 Hv Hm. rewrite E1, E2, Hl, Hn.
      repeat split; auto; try discriminate.
      - cbn [map]. apply prefix_cons, prefix_nil.
      - intros Ho Hall. cbn [replies] in Hall. fold out in Hall.
        apply Forall_cons in Hall as [Hnot _]. now destruct (Hnot (Hm Ho)). }
    (* the request followed by the rest of the loop *)
    assert (Hnext : unusable out ->
      exists o rs,
        fst (refreshAtEndpoint base endpoint current rest
               (snd (fetch rq w))) = Ok o
        /\ let w' := snd (refreshAtEndpoint base endpoint current rest
                            (snd (fetch rq w))) in
           netlog (browser w') = (netlog (browser w) ++ rs)%list
           /\ now (browser w')
              = clockAfter (netlog (browser w)) (now (browser w)) rs
           /\ rs `prefix_of` map (refreshRequest base endpoint current)
                               (p :: rest)
           /\ (p :: rest <> [] -> rs <> [])
           /\ refreshVerdict o
                (replies (netlog (browser w)) (now (browser w)) rs)
           /\ (o = None ->
               Forall (fun out => ~ missing out)
                      (replies (netlog (browser w)) (now (browser w)) rs) ->
               rs = map (refreshRequest base endpoint current) (p :: rest))).
    { intros Hu. destruct (IH (snd (fetch rq w)))
        as (o & rs & Ho & Hl' & Hn' & Hp & _ & Hv & Hall).
      rewrite Hl, Hn in Hv, Hall.
      exists o, (rq :: rs). split; [exact Ho|]. cbv zeta.
      rewrite Hl', Hn', Hl, Hn, <- app_assoc.
      repeat split; auto; try discriminate.
      - cbn [map]. now apply prefix_cons.
      - cbn [replies]. fold out.
        apply (refreshVerdict_app [out]); [now constructor|exact Hv].
      - intros Hnone Hnot. cbn [replies] in Hnot.
        apply Forall_cons in Hnot as [_ Hnot].
        cbn [map]. now rewrite (Hall Hnone Hnot). }
    cbv [bind attempt].
    destruct (fetch rq w) as [res w1] eqn:Ef. cbn [fst snd] in *.
    destruct res as [response|].
    2:{ apply Hnext. destruct out; [apply unusable_error|discriminate]. }
    assert (Eout : out = NetReply response)
      by (destruct out; [discriminate|congruence]).
    destruct ((rstatus response =? 404) || (rstatus response =? 405))
      eqn:Emissing.
    { exists None, [rq]. split; [reflexivity|]. cbv zeta. cbn [snd].
      assert (Hmiss : rstatus response = 404 \/ rstatus response = 405).
      { apply orb_true_iff in Emissing as [E|E]; apply Z.eqb_eq in E; auto. }
      apply Hstop; auto.
      - cbn. constructor; [|constructor].
        rewrite Eout. apply unusable_not_ok. unfold rok.
        destruct Hmiss as [E|E]; rewrite E; reflexivity.
      - intros _. exists response. auto. }
    destruct (rok response) eqn:Eok; cbn [negb].
    2:{ apply Hnext. rewrite Eout. now apply unusable_not_ok. }
    destruct (extractTokenFromPayload (rjson response)) as [tok|] eqn:Etok.
    2:{ apply Hnext. rewrite Eout. now apply unusable_no_token. }
    pose proof (keepsWire_extractExpiresAtFromPayload (rjson response) w1)
      as [Hl2 Hn2].
    pose proof (returns_extractExpiresAtFromPayload (rjson response) w1)
      as [e He'].
    destruct (extractExpiresAtFromPayload (rjson response) w1)
      as [r w2]; cbn [fst snd] in *. subst r.
    cbv [isoNow bind dateNow ret]. cbn [fst snd].
    eexists. exists [rq]. split; [reflexivity|].
    apply Hstop; auto; [|discriminate].
    exists [], out. repeat split; auto.
    exists response. auto.
Qed.

Lemma refreshOverEndpoints_trace base endpoints current : forall w,
  exists o rs,
    fst (refreshOverEndpoints base endpoints current w) = Ok o
    /\ let w' := snd (refreshOverEndpoints base endpoints current w) in
       netlog (browser w') = (netlog (browser w) ++ rs)%list
       /\ now (browser w')
          = clockAfter (netlog (browser w)) (now (browser w)) rs
       /\ rs `sublist_of`
            flat_map (fun endpoint =>
                        map (refreshRequest base endpoint current)
                            (refreshPayloads current)) endpoints
       /\ (forall endpoint rest,
             endpoints = endpoint :: rest ->
             head rs = head (map (refreshRequest base endpoint current)
                                 (refreshPayloads current)))
       /\ refreshVerdict o (replies (netlog (browser w)) (now (browser w)) rs)
       /\ (o = None ->
           (forall endpoint,
              In endpoint endpoints ->
              In (openingRequest base endpoint current) rs)
           /\ (Forall (fun out => ~ missing out)
                      (replies (netlog (browser w)) (now (browser w)) rs) ->
               rs = flat_map (fun endpoint =>
                                map (refreshRequest base endpoint current)
                                    (refreshPayloads current)) endpoints)).
Proof.
  induction endpoints as [|e rest IH]; intros w; cbn [refreshOverEndpoints].
  - exists None, []. cbn. rewrite app_nil_r.
    repeat split; auto; try discriminate; try constructor;
      try contradiction.
  - destruct (refreshAtEndpoint_trace base e current (refreshPayloads current)
                w) as (o1 & rs1 & Ho1 & Hl1 & Hn1 & Hp1 & Hne1 & Hv1 & Hall1).
    assert (Hhead : head rs1
                    = head (map (refreshRequest base e current)
                                (refreshPayloads current))).
    { destruct Hp1 as [k Hk]. rewrite Hk.
      destruct rs1; [now destruct Hne1|reflexivity]. }
    assert (Hsub : rs1 `sublist_of`
                     map (refreshRequest base e current)
                         (refreshPayloads current)).
    { destruct Hp1 as [k ->]. now apply sublist_inserts_r. }
    cbv [bind].
    destruct (refreshAtEndpoint base e current (refreshPayloads current) w)
      as [r w1]; cbn [fst snd] in *. subst r.
    destruct o1 as [s|].
    + exists (Some s), rs1. split; [reflexivity|]. cbv zeta. cbn [snd].
      repeat split; auto; try discriminate.
      * cbn [flat_map]. now apply sublist_inserts_r.
      * now intros e' rest' [= <- <-].
    + destruct (IH w1) as (o & rs2 & Ho & Hl2 & Hn2 & Hs2 & _ & Hv2 & Hall2).
      rewrite Hl1, Hn1 in Hv2, Hall2.
      exists o, (rs1 ++ rs2)%list. split; [exact Ho|]. cbv zeta.
      rewrite Hl2, Hn2, Hl1, Hn1, <- app_assoc, clockAfter_app, replies_app.
      split; [reflexivity|]. split; [reflexivity|].
      split; [cbn [flat_map]; now apply sublist_app|].
      split; [intros e' rest' [= <- <-]; rewrite head_app, Hhead;
              reflexivity|].
      split; [now apply refreshVerdict_app|].
      intros Hnone. destruct (Hall2 Hnone) as [Hin2 Hex2]. split.
      * intros e' [<-|He'].
        -- apply in_or_app. left. destruct rs1 as [|rq1 rs1'];
             [discriminate|]. cbn in Hhead. injection Hhead as ->. now left.
        -- apply in_or_app. right. now apply Hin2.
      * intros Hnot. apply Forall_app in Hnot as [Hnot1 Hnot2].
        cbn [flat_map]. now rewrite (Hall1 eq_refl Hnot1), (Hex2 Hnot2).
Qed.

(** With a refresh credential, one run of [tryAutoRefreshAuth] returns and
    leaves the trace of a refresh. *)
Lemma tryAutoRefreshAuth_trace base current w :
  hasRefreshToken current = true ->
  exists o,
    fst (tryAutoRefreshAuth base current w) = Ok o
    /\ refreshTrace base current w (snd (tryAutoRefreshAuth base current w)) o.
Proof.
  intros Hyes. unfold tryAutoRefreshAuth. rewrite Hyes. cbn [negb].
  destruct (refreshOverEndpoints_trace base refreshEndpoints current w)
    as (o & rs & Ho & Hl & Hn & Hs & Hh & Hv & Hall).
  exists o. split; [exact Ho|]. exists rs. cbv zeta.
  split; [exact Hl|]. split; [exact (Hh _ _ eq_refl)|].
  split; [exact Hs|]. split; [exact Hn|]. split; [exact Hv|exact Hall].
Qed.

Lemma refreshTrace_from base current w0 w0' w o :
  netlog (browser w0') = netlog (browser w0) ->
  now (browser w0') = now (browser w0) ->
  refreshTrace base current w0' w o -> refreshTrace base current w0 w o.
Proof.
  intros Hl Hn (rs & H1 & H2 & H3 & H4 & H5). exists rs.
  rewrite <- Hl, <- Hn. auto.
Qed.

Lemma sent_from n P w0 w0' w :
  netlog (browser w0') = netlog (browser w0) ->
  sent n P w0' w -> sent n P w0 w.
Proof. intros Hl (rs & H1 & L1 & F1). exists rs. rewrite <- Hl. auto. Qed.

(** The downgrade that ends [apiFetch] returns the response at hand, sends
    nothing, sets the reason and makes a fresh guest the current
    credential. *)
Lemma downgrade_spec options had current response w :
  fst (downgrade options had current response w) = Ok response
  /\ let w' := snd (downgrade options had current response w) in
     netlog (browser w') = netlog (browser w)
     /\ downgradedTo w'
          (if had then refresh_failed
           else if isAuthExpiredAt (now (browser w)) current then expired
                else unauthorized).
Proof.
  change (wp (downgrade options had current response) w (fun r w' =>
    r = Ok response
    /\ netlog (browser w') = netlog (browser w)
    /\ downgradedTo w'
         (if had then refresh_failed
          else if isAuthExpiredAt (now (browser w)) current then expired
               else unauthorized))).
  unfold downgrade. wp_step.
  set (reason := if had then refresh_failed
                 else if isAuthExpiredAt (now (browser w)) current
                      then expired else unauthorized).
  apply (wp_known _ w (Ok reason) w);
    [subst reason; destruct had; reflexivity|].
  cbv beta iota. wp_step. unfold setAuthFailureReason. wp_step.
  cbv beta iota. wp_step.
  eapply wp_known; [apply createGuestAuthState_run|]. cbv beta iota.
  wp_step. eapply wp_known; [apply persistState_run|]. cbv beta iota.
  match goal with
  | |- context [persisted ?g ?w0] =>
      destruct (persisted_spec g w0)
        as (_ & Ha & Hb & Hc & Hn & Hl & _ & Hr & _ & Hsame);
      rewrite (guest_not_expired _ g (freshGuest_guestAt _)) in Hsame;
      specialize (Hsame eq_refl);
      generalize dependent (persisted g w0)
  end.
  intros [g w3]. cbn [fst snd]. intros Ha Hb Hc Hn Hl Hr ->.
  assert (Hfinal : forall w4,
    netlog (browser w4) = netlog (browser w3) ->
    now (browser w4) = now (browser w3) ->
    auth w4 = auth w3 -> storage (browser w4) = storage (browser w3) ->
    netlog (browser w4) = netlog (browser w)
    /\ downgradedTo w4 reason).
  { intros w4 E1 E0 E2 E3. split; [now rewrite E1, Hl|].
    split; [now rewrite E2, Hr|].
    exists (guestAt (browser w)). rewrite E0, Hn, E2, E3.
    split; [exists (entropy (browser w)); reflexivity|].
    repeat split; assumption. }
  wp_step. unfold shouldSkipAutoRedirect. wp_step. wp_step. wp_step.
  cbv beta iota. wp_step.
  destruct (_ && _).
  - wp_step. unfold getCurrentReturnToPath. wp_step. wp_step. wp_step.
    cbv beta iota. unfold locationReplace. wp_step. cbv beta iota. wp_step.
    split; [reflexivity|]. apply Hfinal; reflexivity.
  - wp_step. cbv beta iota. wp_step.
    split; [reflexivity|]. apply Hfinal; reflexivity.
Qed.


End AuthWire.

(** ** When every remote call fails *)

Section RemoteFails.
Context `{Platform}.
Import Auth AuthClient.

Lemma yields_ret {A} (P : A -> Prop) a : P a -> yields P (ret a).
Proof. intros Ha w. exact Ha. Qed.

Lemma yields_bind {A B} (P : A -> Prop) (Q : B -> Prop) (m : M A)
    (k : A -> M B) :
  yields P m -> (forall a, P a -> yields Q (k a)) -> yields Q (bind m k).
Proof.
  intros Hm Hk w. unfold bind. specialize (Hm w).
  destruct (m w) as [[a|] w']; cbn [fst] in *; [|exact I].
  apply (Hk a Hm).
Qed.

Lemma yields_any {A} (m : M A) : yields (fun _ => True) m.
Proof. intros w. now destruct (fst (m w)). Qed.

Lemma yields_then {A B} (Q : B -> Prop) (m : M A) (k : A -> M B) :
  (forall a, yields Q (k a)) -> yields Q (bind m k).
Proof.
  intros Hk. apply (yields_bind (fun _ => True)); [apply yields_any|auto].
Qed.

Lemma fetch_fails rq :
  remoteFails -> yields (fun r => rok r = false) (fetch rq).
Proof.
  intros Hf w. unfold fetch.
  specialize (Hf (netlog (browser w)) (now (browser w)) rq).
  destruct (network _ _ _) as [t [|r]]; cbn [fst snd] in *; auto.
Qed.

Lemma authFetch_fails input init s :
  remoteFails -> yields (fun p => rok (fst p) = false) (authFetch input init s).
Proof.
  intros Hf. unfold authFetch.
  apply yields_then. intros current.
  apply (yields_bind (fun r => rok r = false)); [now apply fetch_fails|].
  intros response Hr.
  apply yields_then. intros next.
  now apply yields_ret.
Qed.

Lemma downgrade_yields options had current response :
  yields (fun r => r = response) (downgrade options had current response).
Proof.
  intros w. destruct (downgrade_spec options had current response w) as [-> _].
  reflexivity.
Qed.

Lemma apiFetch_fails options base input init :
  remoteFails -> yields (fun r => rok r = false) (apiFetch options base input init).
Proof.
  intros Hf. unfold apiFetch.
  apply yields_then. intros current.
  apply (yields_bind (fun p => rok (fst p) = false));
    [now apply authFetch_fails|].
  intros result Hr.
  apply yields_then. intros _.
  destruct (_ || _); [now apply yields_ret|].
  apply yields_then. intros [candidate|].
  - apply yields_then. intros refreshed.
    apply yields_then. intros _.
    apply (yields_bind (fun p => rok (fst p) = false));
      [now apply authFetch_fails|].
    intros retry Hretry.
    destruct (_ || _).
    + apply yields_then. intros _.
      now apply yields_ret.
    + intros w. pose proof (downgrade_yields options (hasRefreshToken current)
                              current (fst retry) w) as Hd.
      destruct (fst (downgrade _ _ _ _ w)); [now subst|exact I].
  - intros w. pose proof (downgrade_yields options (hasRefreshToken current)
                            current (fst result) w) as Hd.
    destruct (fst (downgrade _ _ _ _ w)); [now subst|exact I].
Qed.

Lemma callInterviewApi_fails candidates payload w :
  remoteFails -> fst (callInterviewApi pageFetch candidates payload w) = Throw.
Proof.
  intros Hf. revert w.
  induction candidates as [|c rest IH]; intros w; simpl; [reflexivity|].
  unfold bind, attempt.
  match goal with
  | |- context [pageFetch ?i ?n w] =>
      pose proof (apiFetch_fails (mkOptions (Some true) None)
                    API_BASE_URL i n Hf w) as Hr;
      change (match fst (pageFetch i n w) with
              | Ok a => rok a = false
              | Throw => True
              end) in Hr;
      destruct (pageFetch i n w) as [[response|] w1]
  end; cbn [fst] in Hr.
  - rewrite Hr. apply IH.
  - apply IH.
Qed.

End RemoteFails.

(** ** The transitions in local mode *)

Section LocalMode.
Context `{Platform}.

Lemma wp_applySessionPatch u w prev Q :
  session w = Some prev ->
  wp (setCurrentSession
        (Some (stamp (u prev) (toISOString (now (browser w)))))) w Q ->
  wp (applySessionPatch u) w Q.
Proof.
  intros Hs HQ. unfold wp. rewrite applySessionPatch_run, Hs. exact HQ.
Qed.

Lemma submitAnswer_local w cur q text :
  session w = Some cur -> mode cur = local -> status cur = active ->
  currentQuestion (Some cur) = Some q -> isBlank (trim text) = false ->
  let w' := after (perform (OpSubmitAnswer text)) w in
  session w' =
    Some (stamp (answerPatch (qid q) (trim text) cur)
                (toISOString (now (browser w))))
  /\ browser w' = browser w /\ auth w' = auth w.
Proof.
  intros Hs Hm Hst Hq Hb. unfold session in Hs.
  change (wp (perform (OpSubmitAnswer text)) w (fun _ w' =>
    session w' = Some (stamp (answerPatch (qid q) (trim text) cur)
                             (toISOString (now (browser w))))
    /\ browser w' = browser w /\ auth w' = auth w)).
  unfold perform. wp_step. wp_page. unfold submitAnswer. wp_step. wp_step.
  cbn [page withPage currentSession answerInput]. rewrite Hs, Hq, Hst, Hb.
  cbn [negb bool_decide decide]. rewrite bool_decide_eq_true_2 by reflexivity.
  cbn [negb]. wp_step. wp_page. wp_step. wp_page. wp_step.
  eapply wp_applySessionPatch; [exact Hs|]. wp_page.
  rewrite Hm. rewrite bool_decide_eq_false_2 by discriminate. cbn [negb].
  wp_page. cbn. auto.
Qed.

Lemma nextQuestion_local w cur :
  session w = Some cur -> mode cur = local -> status cur = active ->
  let w' := after (perform OpAdvance) w in
  session w' =
    Some (stamp (advanceLocally cur) (toISOString (now (browser w))))
  /\ browser w' = browser w /\ auth w' = auth w.
Proof.
  intros Hs Hm Hst. unfold session in Hs.
  change (wp (perform OpAdvance) w (fun _ w' =>
    session w' = Some (stamp (advanceLocally cur)
                             (toISOString (now (browser w))))
    /\ browser w' = browser w /\ auth w' = auth w)).
  unfold perform, nextQuestion. wp_step. wp_step. rewrite Hs, Hst, Hm.
  rewrite bool_decide_eq_true_2 by reflexivity.
  rewrite bool_decide_eq_false_2 by discriminate. cbn [negb].
  wp_step. wp_page. wp_step. wp_step. wp_step.
  eapply wp_applySessionPatch; [exact Hs|]. wp_page.
  destruct (_ <=? _); wp_page; cbn; auto.
Qed.

Lemma endSession_local w cur :
  session w = Some cur -> mode cur = local ->
  let w' := after (perform OpFinish) w in
  session w' =
    Some (stamp (finishLocally cur None) (toISOString (now (browser w))))
  /\ browser w' = browser w /\ auth w' = auth w.
Proof.
  intros Hs Hm. unfold session in Hs.
  change (wp (perform OpFinish) w (fun _ w' =>
    session w' = Some (stamp (finishLocally cur None)
                             (toISOString (now (browser w))))
    /\ browser w' = browser w /\ auth w' = auth w)).
  unfold perform, endSession. wp_step. wp_step. rewrite Hs, Hm.
  rewrite bool_decide_eq_false_2 by discriminate.
  wp_step. wp_page. wp_step. wp_step. wp_step.
  eapply wp_applySessionPatch; [exact Hs|]. wp_page.
  wp_page. cbn. auto.
Qed.

(** In local mode a transition leaves the browser (request log, clock,
    storage) and the credential as they are. *)
Lemma perform_local_quiet op w cur :
  session w = Some cur -> mode cur = local ->
  browser (after (perform op) w) = browser w
  /\ auth (after (perform op) w) = auth w.
Proof.
  intros Hs Hm. unfold session in Hs.
  change (wp (perform op) w (fun _ w' =>
    browser w' = browser w /\ auth w' = auth w)).
  destruct op; unfold perform.
  - wp_step. wp_page. unfold submitAnswer. wp_step. wp_step.
    cbn [page withPage currentSession answerInput]. rewrite Hs.
    destruct (currentQuestion (Some cur)); [|wp_step; cbn; auto].
    destruct (negb _); [wp_page; cbn; auto|].
    destruct (isBlank _); [wp_page; cbn; auto|].
    wp_step. wp_page. wp_step. wp_page. wp_step.
    eapply wp_applySessionPatch; [exact Hs|]. wp_page.
    rewrite Hm. rewrite bool_decide_eq_false_2 by discriminate. cbn [negb].
    wp_page. cbn. auto.
  - unfold nextQuestion. wp_step. wp_step. rewrite Hs, Hm.
    destruct (negb _); [wp_page; cbn; auto|].
    rewrite bool_decide_eq_false_2 by discriminate.
    wp_step. wp_page. wp_step. wp_step. wp_step.
    eapply wp_applySessionPatch; [exact Hs|]. wp_page.
    destruct (_ <=? _); wp_page; cbn; auto.
  - unfold pauseSession. wp_step. wp_step. rewrite Hs, Hm.
    destruct (negb _); [wp_step; cbn; auto|].
    rewrite bool_decide_eq_false_2 by discriminate.
    wp_step. wp_step. wp_step.
    eapply wp_applySessionPatch; [exact Hs|]. wp_page.
    wp_page. cbn. auto.
  - unfold resumeSession. wp_step. wp_step. rewrite Hs, Hm.
    destruct (negb _); [wp_step; cbn; auto|].
    rewrite bool_decide_eq_false_2 by discriminate.
    wp_step. wp_step. wp_step.
    eapply wp_applySessionPatch; [exact Hs|]. wp_page.
    wp_page. cbn. auto.
  - apply (endSession_local w cur Hs Hm).
Qed.

Lemma callInterviewApi_throws candidates payload w :
  remoteFails ->
  exists w', callInterviewApi pageFetch candidates payload w = (Throw, w')
             /\ page w' = page w.
Proof.
  intros Hu.
  pose proof (callInterviewApi_fails candidates payload w Hu) as Ht.
  pose proof (keepsPage_callInterviewApi candidates payload w) as Hp.
  destruct (callInterviewApi pageFetch candidates payload w) as [r w'].
  simpl in *. subst r. now exists w'.
Qed.

(** When every remote call fails, [startSession] on a job text that
    is not blank creates the local fallback session. *)
Lemma startSession_falls_back options w :
  remoteFails -> isBlank (startJob options (page w)) = false ->
  exists r,
    session (after (startSession options) w) = Some r
    /\ mode r = local /\ status r = active /\ currentIndex r = 0
    /\ answeredCount r = 0 /\ answers r = ∅ /\ feedback r = None
    /\ position r = orStr (startPosition options (page w))
                       (inferPositionFromJd (startJob options (page w)))
    /\ questions r = buildLocalQuestions (position r).
Proof.
  intros Hu Hjd.
  change (wp (startSession options) w (fun _ w' => exists r,
    session w' = Some r
    /\ mode r = local /\ status r = active /\ currentIndex r = 0
    /\ answeredCount r = 0 /\ answers r = ∅ /\ feedback r = None
    /\ position r = orStr (startPosition options (page w))
                       (inferPositionFromJd (startJob options (page w)))
    /\ questions r = buildLocalQuestions (position r))).
  unfold startSession. wp_step. wp_page. wp_step. wp_page. wp_step.
  match goal with
  | |- wp (if ?b then _ else _) _ _ => destruct b
  end; [wp_step|wp_page]; (wp_step; wp_page; wp_step; wp_step;
    cbn [page withPage formPosition formJdText formResumeText pageContextKey];
    unfold startJob, startJdText, startPosition in *;
    cbn [page withPage formPosition formJdText formResumeText pageContextKey];
    rewrite Hjd).
  all: wp_step; wp_page; wp_step; unfold isoNow; wp_step; wp_step; wp_step;
    wp_step; wp_step; wp_step.
  all: match goal with
       | |- wp (callInterviewApi pageFetch ?c ?p) ?w0 _ =>
           unfold wp at 1;
           destruct (callInterviewApi_throws c p w0 Hu) as [w' [-> Hp]]
       end.
  all: cbn [fst snd]; wp_step; wp_step; wp_step; wp_page; wp_step; wp_page;
    wp_page; wp_page.
  all: eexists; split; [reflexivity|]; cbn; auto 10.
Qed.


End LocalMode.

(** ** The claims on the session lifecycle engine *)

Section EngineClaims.
Context `{Platform}.

(** C2, as amended: when every stored answer of the current session is
    non-empty and [answeredCount] is their number, each of submitAnswer,
    advance, pause, resume and finish leaves a session with the same two
    facts, so that [answeredCount] is the number of question ids with a
    non-empty answer; the local fallback start produces such a session. *)
Theorem answeredCount_counts_answers :
  (forall op w cur,
     session w = Some cur -> answersCounted cur ->
     exists r, session (after (perform op) w) = Some r
               /\ answersCounted r
               /\ answeredCount r = nonEmptyAnswers (answers r))
  /\ (forall options w,
        remoteFails -> isBlank (startJob options (page w)) = false ->
        exists r, session (after (startSession options) w) = Some r
                  /\ answersCounted r
                  /\ answeredCount r = nonEmptyAnswers (answers r)).
Proof.
  split.
  - intros op w cur Hs Hc.
    destruct (transition_invariant answersCounted
                (fun u iso r => Updater_answersCounted u iso r) op w cur Hs Hc)
      as [r [Hr Hi]].
    exists r. auto using answersCounted_nonEmpty.
  - intros options w Hu Hjd.
    destruct (startSession_falls_back options w Hu Hjd)
      as (r & Hr & _ & _ & _ & Hn & Ha & _).
    assert (Hc : answersCounted r).
    { split; [rewrite Ha; apply map_Forall_empty|].
      rewrite Hn, Ha. reflexivity. }
    exists r. auto using answersCounted_nonEmpty.
Qed.

(** C4, as amended: on a session in local mode, each of submitAnswer,
    advance, pause, resume and finish sends no request (the request log is
    as before) and leaves the session in local mode. *)
Theorem local_mode_is_sticky op w cur :
  session w = Some cur -> mode cur = local ->
  netlog (browser (after (perform op) w)) = netlog (browser w)
  /\ exists r, session (after (perform op) w) = Some r /\ mode r = local.
Proof.
  intros Hs Hm. split.
  - destruct (perform_local_quiet op w cur Hs Hm) as [Hb _]. now rewrite Hb.
  - apply (transition_invariant (fun r => mode r = local)
             (fun u iso r => Updater_local u iso r) op w cur Hs Hm).
Qed.

(** C5, as amended: each of submitAnswer, advance, pause, resume and
    finish keeps [currentIndex < max(1, number of questions)]; the local
    fallback start establishes it; a record made from an entry of the
    remote history has no questions and carries the reported index, only
    raised to 0. *)
Theorem currentIndex_in_range :
  (forall op w cur,
     session w = Some cur -> indexInRange cur ->
     exists r, session (after (perform op) w) = Some r /\ indexInRange r)
  /\ (forall options w,
        remoteFails -> isBlank (startJob options (page w)) = false ->
        exists r, session (after (startSession options) w) = Some r
                  /\ indexInRange r)
  /\ (forall nowIso value r,
        normalizeRemoteSessionAt nowIso value = Some r ->
        questions r = []
        /\ currentIndex r =
           Z.max 0 (orZero (toSafeNumber (prop value "currentIndex")))).
Proof.
  split; [|split].
  - intros op w cur Hs Hi.
    apply (transition_invariant indexInRange
             (fun u iso r => Updater_indexInRange u iso r) op w cur Hs Hi).
  - intros options w Hu Hjd.
    destruct (startSession_falls_back options w Hu Hjd)
      as (r & Hr & _ & _ & Hi & _ & _ & _ & _ & Hq).
    exists r. split; [exact Hr|]. unfold indexInRange. rewrite Hi. lia.
  - intros nowIso value r. unfold normalizeRemoteSessionAt.
    destruct (negb (isRecord value)); [discriminate|].
    destruct (toSafeNumber (prop value "id")) as [idn|]; [|discriminate].
    destruct (_ || _); [discriminate|].
    intros [= <-]. split; reflexivity.
Qed.

(** C6, as amended: submitAnswer on a session that is not active, or with
    an answer text that is blank (empty once the white space of JavaScript
    is trimmed), leaves the session record, the stored records, the browser
    (hence the request log) and the credential unchanged and keeps the
    text that was typed; when the session has a current question it sets
    the validation message, and when it has none it returns at once and
    the message on the page stays what it was. *)
Theorem submitAnswer_rejected w cur text :
  session w = Some cur ->
  status cur <> active \/ trim text = "" ->
  let w' := after (perform (OpSubmitAnswer text)) w in
  session w' = Some cur
  /\ netlog (browser w') = netlog (browser w)
  /\ browser w' = browser w /\ auth w' = auth w
  /\ (forall q, currentQuestion (Some cur) = Some q ->
        error (page w') =
        if bool_decide (status cur = active) then emptyMessage
        else pausedMessage)
  /\ (currentQuestion (Some cur) = None -> error (page w') = error (page w))
  /\ answerInput (page w') = text
  /\ records (page w') = records (page w)
  /\ notice (page w') = notice (page w)
  /\ loading (page w') = loading (page w).
Proof.
  intros Hs Hbad. unfold session in Hs.
  change (wp (perform (OpSubmitAnswer text)) w (fun _ w' =>
    session w' = Some cur
    /\ netlog (browser w') = netlog (browser w)
    /\ browser w' = browser w /\ auth w' = auth w
    /\ (forall q, currentQuestion (Some cur) = Some q ->
          error (page w') =
          if bool_decide (status cur = active) then emptyMessage
          else pausedMessage)
    /\ (currentQuestion (Some cur) = None ->
        error (page w') = error (page w))
    /\ answerInput (page w') = text
    /\ records (page w') = records (page w)
    /\ notice (page w') = notice (page w)
    /\ loading (page w') = loading (page w))).
  unfold perform. wp_step. wp_page. unfold submitAnswer. wp_step. wp_step.
  cbn [page withPage currentSession answerInput]. rewrite Hs.
  destruct (currentQuestion (Some cur)) as [q|] eqn:Hq.
  2:{ wp_step. cbn. repeat split; auto. discriminate. }
  case_bool_decide as Hst; cbn [negb].
  - destruct Hbad as [Hbad|Hbad]; [contradiction|]. rewrite Hbad.
    cbn [isBlank String.eqb]. wp_page. cbn. repeat split; auto.
    discriminate.
  - wp_page. cbn. repeat split; auto. discriminate.
Qed.

End EngineClaims.

(** ** The transitions in remote mode *)

Section RemoteTransitions.
Context `{Platform}.

(** The call of the interview API, whatever it does to the browser and the
    credential, leaves the page alone. *)
Lemma wp_callInterviewApi candidates payload w Q :
  (forall r w', page w' = page w ->
     (r = Throw \/ ~ remoteFails) -> Q r w') ->
  wp (callInterviewApi pageFetch candidates payload) w Q.
Proof.
  intros HQ. unfold wp. apply HQ.
  - apply keepsPage_callInterviewApi.
  - destruct (fst _) eqn:E; [right|now left].
    intros Hu. rewrite (callInterviewApi_fails _ _ _ Hu) in E.
    discriminate.
Qed.

(** C3: from an active or paused session, finish returns with the session
    finished and a review in place; whenever the session ends in local
    mode, as it does when every remote call fails, the review is the local
    fallback computed from the session's answers. *)
Theorem finish_completes w cur :
  session w = Some cur ->
  status cur = active \/ status cur = paused ->
  fst (perform OpFinish w) = Ok tt
  /\ exists r fb,
       session (after (perform OpFinish) w) = Some r
       /\ status r = finished
       /\ feedback r = Some fb
       /\ (mode r = local ->
           fb = buildLocalFeedback (answers cur)
                  (Z.of_nat (length (questions cur))) (position cur))
       /\ (remoteFails -> mode r = local).
Proof.
  intros Hs _. unfold session in Hs.
  change (wp (perform OpFinish) w (fun res w' =>
    res = Ok tt
    /\ exists r fb,
         session w' = Some r
         /\ status r = finished
         /\ feedback r = Some fb
         /\ (mode r = local ->
             fb = buildLocalFeedback (answers cur)
                    (Z.of_nat (length (questions cur))) (position cur))
         /\ (remoteFails -> mode r = local))).
  unfold perform, endSession. wp_step. wp_step. rewrite Hs.
  wp_step. wp_page. wp_step.
  destruct (mode cur) eqn:Hm.
  - rewrite bool_decide_eq_true_2 by reflexivity. cbv iota.
    wp_step. wp_step. apply wp_callInterviewApi.
    intros [data|] w1 Hp Hr.
    + wp_step.
      eapply wp_applySessionPatch; [unfold session; rewrite Hp; exact Hs|].
      wp_page. wp_step. wp_page. wp_step. wp_step.
      split; [reflexivity|]. do 2 eexists.
      split; [reflexivity|]. cbn. rewrite Hm.
      repeat split; try discriminate.
      destruct Hr as [Hr|Hr]; [discriminate|]. intros Hu. contradiction.
    + wp_step.
      eapply wp_applySessionPatch; [unfold session; rewrite Hp; exact Hs|].
      wp_page. wp_step. wp_page. wp_step. wp_step.
      eapply wp_applySessionPatch; [reflexivity|]. wp_page. wp_page.
      split; [reflexivity|]. do 2 eexists.
      split; [reflexivity|]. cbn. auto.
  - rewrite bool_decide_eq_false_2 by discriminate. cbv iota.
    wp_step. wp_step.
    eapply wp_applySessionPatch; [exact Hs|]. wp_page. wp_page.
    split; [reflexivity|]. do 2 eexists.
    split; [reflexivity|]. cbn. rewrite Hm. auto.
Qed.

Lemma nextQuestion_remote_reply w cur data w1 :
  session w = Some cur -> status cur = active -> mode cur = remote ->
  callInterviewApi pageFetch (nextCandidates cur) (sessionPayloadOf cur)
    (after (setError "") w) = (Ok data, w1) ->
  session (after (perform OpAdvance) w) =
  Some (stamp (nextReplyPatch (replyQuestion data (now (browser w1)))
                 (toSafeNumber (prop (replySession data) "currentIndex"))
                 (prop (replySession data) "status") cur)
              (toISOString (now (browser w1)))).
Proof.
  intros Hs Hst Hm Hcall. unfold session in Hs.
  pose proof (keepsPage_callInterviewApi (nextCandidates cur)
                (sessionPayloadOf cur) (after (setError "") w)) as Hp.
  rewrite Hcall in Hp. cbn [snd] in Hp. unfold after in Hcall, Hp.
  match goal with
  | |- _ = ?X =>
      change (wp (perform OpAdvance) w (fun _ w' => session w' = X))
  end.
  unfold perform, nextQuestion. wp_step. wp_step. rewrite Hs, Hst, Hm.
  rewrite !bool_decide_eq_true_2 by reflexivity. cbn [negb].
  wp_step. wp_page. wp_step. wp_step. wp_step.
  eapply wp_known; [exact Hcall|]. cbv beta iota. cbn in Hp.
  wp_go. wp_go. wp_go.
  eapply wp_applySessionPatch; [unfold session; rewrite Hp; exact Hs|].
  wp_page. wp_go. wp_page. wp_go. reflexivity.
Qed.

Lemma nextQuestion_remote_failure w cur w1 :
  session w = Some cur -> status cur = active -> mode cur = remote ->
  callInterviewApi pageFetch (nextCandidates cur) (sessionPayloadOf cur)
    (after (setError "") w) = (Throw, w1) ->
  session (after (perform OpAdvance) w) =
  Some (stamp (advanceLocally
                 (stamp (withMode cur local) (toISOString (now (browser w1)))))
              (toISOString (now (browser w1)))).
Proof.
  intros Hs Hst Hm Hcall. unfold session in Hs.
  pose proof (keepsPage_callInterviewApi (nextCandidates cur)
                (sessionPayloadOf cur) (after (setError "") w)) as Hp.
  rewrite Hcall in Hp. cbn [snd] in Hp. unfold after in Hcall, Hp.
  match goal with
  | |- _ = ?X =>
      change (wp (perform OpAdvance) w (fun _ w' => session w' = X))
  end.
  unfold perform, nextQuestion. wp_step. wp_step. rewrite Hs, Hst, Hm.
  rewrite !bool_decide_eq_true_2 by reflexivity. cbn [negb].
  wp_step. wp_page. wp_step. wp_step. wp_step.
  eapply wp_known; [exact Hcall|]. cbv beta iota. cbn in Hp.
  wp_go.
  eapply wp_applySessionPatch; [unfold session; rewrite Hp; exact Hs|].
  wp_page. wp_go. wp_page. wp_go. wp_go.
  eapply wp_applySessionPatch; [reflexivity|]. wp_page.
  destruct (_ <=? _); wp_page; reflexivity.
Qed.

(** C8, as amended: advance on an active session.  In local mode the
    index stays when it is at or past the last question and grows by one
    otherwise.  In remote mode with a reply, the reported question is
    appended only when no question has its id; the index is the reported
    one raised to 0 (else the place of the reported question, else the
    former index), lowered to the last question; the status is the
    reported one, normalised, or stays when none is reported.  In remote
    mode without a reply the session turns local and takes the local
    step. *)
Theorem advance_moves_index w cur :
  session w = Some cur -> status cur = active ->
  let w' := after (perform OpAdvance) w in
  let localIndex :=
    if Z.of_nat (length (questions cur)) - 1 <=? currentIndex cur
    then currentIndex cur else currentIndex cur + 1 in
  (mode cur = local ->
   exists r, session w' = Some r /\ mode r = local
             /\ questions r = questions cur /\ currentIndex r = localIndex)
  /\ (mode cur = remote ->
      forall data w1,
        callInterviewApi pageFetch (nextCandidates cur) (sessionPayloadOf cur)
          (after (setError "") w) = (Ok data, w1) ->
        let maybeNext := replyQuestion data (now (browser w1)) in
        let reported := prop (replySession data) "status" in
        exists r,
          session w' = Some r /\ mode r = remote
          /\ questions r =
             match maybeNext with
             | Some nq => if hasQuestion (questions cur) (qid nq)
                          then questions cur else (questions cur ++ [nq])%list
             | None => questions cur
             end
          /\ currentIndex r =
             Z.min (adoptIndex cur (questions r) maybeNext
                      (toSafeNumber (prop (replySession data) "currentIndex")))
                   (Z.max (Z.of_nat (length (questions r)) - 1) 0)
          /\ status r = if truthy reported then normalizeStatus reported
                        else status cur)
  /\ (mode cur = remote ->
      forall w1,
        callInterviewApi pageFetch (nextCandidates cur) (sessionPayloadOf cur)
          (after (setError "") w) = (Throw, w1) ->
        exists r, session w' = Some r /\ mode r = local
                  /\ questions r = questions cur
                  /\ currentIndex r = localIndex).
Proof.
  intros Hs Hst. cbv zeta. split; [|split].
  - intros Hm. destruct (nextQuestion_local w cur Hs Hm Hst) as (Hr & _).
    eexists. split; [exact Hr|]. cbn.
    rewrite advanceLocally_mode, advanceLocally_questions.
    repeat split; auto. unfold advanceLocally.
    destruct (_ <=? _); reflexivity.
  - intros Hm data w1 Hcall.
    eexists. split; [exact (nextQuestion_remote_reply w cur data w1 Hs Hst Hm Hcall)|].
    cbn. split; [exact Hm|].
    unfold adoptQuestions, clampIndex.
    destruct (replyQuestion data (now (browser w1))) as [nq|];
      [destruct (hasQuestion (questions cur) (qid nq))|];
      cbn; auto.
  - intros Hm w1 Hcall.
    eexists. split; [exact (nextQuestion_remote_failure w cur w1 Hs Hst Hm Hcall)|].
    cbn. rewrite advanceLocally_mode, advanceLocally_questions. cbn.
    repeat split; auto. unfold advanceLocally. cbn.
    destruct (_ <=? _); reflexivity.
Qed.

End RemoteTransitions.

(** ** The fallback review (C1) *)

Section Review.
Context `{Platform}.

Lemma sumTrimmed_perm l1 l2 : l1 ≡ₚ l2 -> sumTrimmed l1 = sumTrimmed l2.
Proof.
  induction 1; simpl; lia.
Qed.

Lemma answerList_three (k1 k2 k3 v1 v2 v3 : string) :
  k1 <> k2 -> k1 <> k3 -> k2 <> k3 ->
  0 < strlen (trim v1) -> 0 < strlen (trim v2) -> 0 < strlen (trim v3) ->
  answerList (<[k3 := v3]> (<[k2 := v2]> (<[k1 := v1]> ∅))) ≡ₚ [v3; v2; v1].
Proof.
  intros H12 H13 H23 P1 P2 P3. unfold answerList.
  rewrite map_to_list_insert
    by (rewrite !lookup_insert_ne by congruence; apply lookup_empty).
  rewrite map_to_list_insert
    by (rewrite !lookup_insert_ne by congruence; apply lookup_empty).
  rewrite map_to_list_insert by apply lookup_empty.
  rewrite map_to_list_empty. cbn [fmap list_fmap snd].
  rewrite !filter_cons_True by assumption. reflexivity.
Qed.

Lemma step_submit w r qs i a q t :
  session w = Some r -> localAt r qs i a ->
  questionAt qs i = Some q -> isBlank (trim t) = false ->
  exists r',
    session (after (perform (OpSubmitAnswer t)) w) = Some r'
    /\ localAt r' qs i (<[qid q := trim t]> a)
    /\ position r' = position r.
Proof.
  intros Hs (Hm & Hst & Hq & Hi & Ha) Hqa Hb.
  destruct (submitAnswer_local w r q t Hs Hm Hst) as (Hr & _); auto.
  { cbn. now rewrite Hq, Hi. }
  eexists. split; [exact Hr|]. unfold localAt, answerPatch. cbn.
  rewrite Ha. repeat split; auto.
Qed.

Lemma step_advance w r qs i a :
  session w = Some r -> localAt r qs i a ->
  i < Z.of_nat (length qs) - 1 ->
  exists r',
    session (after (perform OpAdvance) w) = Some r'
    /\ localAt r' qs (i + 1) a
    /\ position r' = position r.
Proof.
  intros Hs (Hm & Hst & Hq & Hi & Ha) Hlt.
  destruct (nextQuestion_local w r Hs Hm Hst) as (Hr & _).
  eexists. split; [exact Hr|]. unfold localAt, advanceLocally.
  rewrite Hq, Hi. destruct (_ <=? _) eqn:E; [lia|].
  cbn. repeat split; auto.
Qed.

Lemma step_finish w r qs i a :
  session w = Some r -> localAt r qs i a ->
  exists r',
    session (after (perform OpFinish) w) = Some r'
    /\ status r' = finished
    /\ answeredCount r' = Z.of_nat (size a)
    /\ feedback r' =
       Some (buildLocalFeedback a (Z.of_nat (length qs)) (position r)).
Proof.
  intros Hs (Hm & Hst & Hq & Hi & Ha).
  destruct (endSession_local w r Hs Hm) as (Hr & _).
  eexists. split; [exact Hr|]. cbn. rewrite Ha, Hq. auto.
Qed.

(** C1, as amended: in local mode finish produces a review whose score is
    min(95, 45 + 12*n + (12 if avg >= 80) + (6 if avg >= 140)), where n is
    the number of answers that are not blank and avg is the mean of their
    trimmed lengths, in UTF-16 code units as [length] counts them, rounded
    to the nearest integer; when every remote call
    fails, a start on a job text that is not blank creates a local
    session of exactly 3 questions, and answering the 3 in turn gives
    score 93 when that rounded mean is at least 80 and below 140. *)
Theorem fallback_review_score :
  (forall w cur,
     session w = Some cur -> mode cur = local ->
     exists r fb,
       session (after (perform OpFinish) w) = Some r
       /\ feedback r = Some fb
       /\ let n := Z.of_nat (length (answerList (answers cur))) in
          let avg := avgLength (answers cur) in
          score fb =
          Some (Z.min 95 (45 + 12 * n + (if 80 <=? avg then 12 else 0)
                                       + (if 140 <=? avg then 6 else 0))))
  /\ (forall options w t1 t2 t3,
        remoteFails -> isBlank (startJob options (page w)) = false ->
        isBlank (trim t1) = false -> isBlank (trim t2) = false ->
        isBlank (trim t3) = false ->
        (exists r0,
           session (after (startSession options) w) = Some r0
           /\ mode r0 = local /\ length (questions r0) = 3%nat)
        /\ exists r fb,
             session (runAll (scenario options t1 t2 t3) w) = Some r
             /\ status r = finished /\ answeredCount r = 3
             /\ feedback r = Some fb
             /\ let avg :=
                  roundDiv (strlen (trim t1) + strlen (trim t2)
                            + strlen (trim t3)) 3 in
                score fb =
                Some (Z.min 95 (45 + 12 * 3
                                + (if 80 <=? avg then 12 else 0)
                                + (if 140 <=? avg then 6 else 0)))
                /\ (80 <= avg < 140 -> score fb = Some 93)).
Proof.
  split.
  - intros w cur Hs Hm.
    destruct (endSession_local w cur Hs Hm) as (Hr & _).
    do 2 eexists. split; [exact Hr|]. split; [reflexivity|].
    cbn. unfold localScore. do 2 f_equal. lia.
  - intros options w t1 t2 t3 Hu Hjd B1 B2 B3.
    destruct (startSession_falls_back options w Hu Hjd)
      as (r0 & Hr0 & Hm0 & Hst0 & Hi0 & _ & Ha0 & _ & _ & Hq0).
    split.
    { exists r0. rewrite Hq0. auto. }
    unfold scenario. cbn [runAll].
    set (qs := buildLocalQuestions (position r0)) in *.
    assert (L0 : localAt r0 qs 0 ∅) by (repeat split; assumption).
    destruct (step_submit _ r0 qs 0 ∅ _ t1 Hr0 L0 eq_refl B1)
      as (r1 & Hr1 & L1 & P1).
    destruct (step_advance _ r1 qs 0 _ Hr1 L1 ltac:(cbn; lia))
      as (r2 & Hr2 & L2 & P2).
    destruct (step_submit _ r2 qs 1 _ _ t2 Hr2 L2 eq_refl B2)
      as (r3 & Hr3 & L3 & P3).
    destruct (step_advance _ r3 qs 1 _ Hr3 L3 ltac:(cbn; lia))
      as (r4 & Hr4 & L4 & P4).
    destruct (step_submit _ r4 qs 2 _ _ t3 Hr4 L4 eq_refl B3)
      as (r5 & Hr5 & L5 & P5).
    destruct (step_finish _ r5 qs 2 _ Hr5 L5)
      as (r6 & Hr6 & Hst6 & Hc6 & Hf6).
    cbn [qid] in *.
    assert (T1 : 0 < strlen (trim (trim t1)))
      by (rewrite trim_idem; now apply strlen_pos, isBlank_false).
    assert (T2 : 0 < strlen (trim (trim t2)))
      by (rewrite trim_idem; now apply strlen_pos, isBlank_false).
    assert (T3 : 0 < strlen (trim (trim t3)))
      by (rewrite trim_idem; now apply strlen_pos, isBlank_false).
    pose proof (answerList_three "q-1" "q-2" "q-3" (trim t1) (trim t2)
                  (trim t3) ltac:(discriminate) ltac:(discriminate)
                  ltac:(discriminate) T1 T2 T3) as Hperm.
    exists r6. eexists. split; [exact Hr6|]. split; [exact Hst6|].
    split.
    { rewrite Hc6.
      rewrite !map_size_insert_None
        by (rewrite ?lookup_insert_ne by discriminate; apply lookup_empty).
      rewrite map_size_empty. reflexivity. }
    split; [exact Hf6|].
    cbn [score buildLocalFeedback]. unfold avgLength.
    rewrite (Permutation_length Hperm), (sumTrimmed_perm _ _ Hperm).
    cbn [length sumTrimmed foldr]. rewrite !trim_idem.
    change (Z.of_nat 3) with 3. cbn [Z.ltb Z.compare].
    replace (strlen (trim t3) + (strlen (trim t2) + (strlen (trim t1) + 0)))
      with (strlen (trim t1) + strlen (trim t2) + strlen (trim t3)) by lia.
    unfold localScore. split.
    + do 2 f_equal.
    + intros [Hlo Hhi].
      destruct (80 <=? _) eqn:E1; [|lia].
      destruct (140 <=? _) eqn:E2; [lia|]. reflexivity.
Qed.

End Review.

(** * Runs on the fixtures: witnesses and counterexamples *)

Section Runs.
Import Fixtures.

Lemma offline_remoteFails : @remoteFails offline.
Proof. intros log t rq r Hr. discriminate Hr. Defined.

(** The scenario of C1 with three answers of 100 characters. *)
Lemma fallback_review_score_witness :
  @remoteFails offline
  /\ isBlank (startJob startOptions (page world0)) = false
  /\ isBlank (trim (letters 100)) = false
  /\ exists r fb,
       session (runAll (@scenario offline startOptions (letters 100)
                          (letters 100) (letters 100)) world0) = Some r
       /\ feedback r = Some fb /\ score fb = Some 93.
Proof.
  assert (Hj : isBlank (startJob startOptions (page world0)) = false)
    by (vm_compute; reflexivity).
  assert (Hb : isBlank (trim (letters 100)) = false)
    by (vm_compute; reflexivity).
  split; [exact offline_remoteFails|]. split; [exact Hj|]. split; [exact Hb|].
  destruct (proj2 (@fallback_review_score offline) startOptions world0
              (letters 100) (letters 100) (letters 100)
              offline_remoteFails Hj Hb Hb Hb)
    as (_ & r & fb & Hr & _ & _ & Hf & _ & Hs).
  exists r, fb. split; [exact Hr|]. split; [exact Hf|].
  apply Hs. vm_compute. split; [discriminate|reflexivity].
Defined.

(** C1 as stated fails: three answers of 140, 140 and 139 characters have
    an average length of at least 80 and below 140, and the score is 95,
    not 93. *)
Lemma fallback_review_score_counterexample :
  80 * 3 <= strlen (letters 140) + strlen (letters 140) + strlen (letters 139)
  /\ strlen (letters 140) + strlen (letters 140) + strlen (letters 139)
     < 140 * 3
  /\ exists r fb,
       session (runAll (@scenario offline startOptions (letters 140)
                          (letters 140) (letters 139)) world0) = Some r
       /\ mode r = local /\ length (questions r) = 3%nat
       /\ feedback r = Some fb /\ score fb = Some 95.
Proof.
  split; [vm_compute; discriminate|]. split; [vm_compute; reflexivity|].
  eexists. eexists.
  split; [vm_compute; reflexivity|]. cbn. auto.
Qed.

(** The local fallback session of the fixtures satisfies the hypotheses
    of the transition theorems. *)
Lemma wLocal_session : session wLocal = Some (the (session wLocal)).
Proof. vm_compute. reflexivity. Defined.

Lemma wLocal_mode : mode (the (session wLocal)) = local.
Proof. vm_compute. reflexivity. Defined.

Lemma wLocal_status : status (the (session wLocal)) = active.
Proof. vm_compute. reflexivity. Defined.

Lemma wLocal_answersCounted : answersCounted (the (session wLocal)).
Proof.
  split.
  - intros k v Hkv. vm_compute in Hkv. discriminate.
  - vm_compute. reflexivity.
Defined.

Lemma wLocal_indexInRange : indexInRange (the (session wLocal)).
Proof. vm_compute. reflexivity. Defined.

Lemma answeredCount_counts_answers_witness :
  session wLocal = Some (the (session wLocal))
  /\ answersCounted (the (session wLocal))
  /\ exists r,
       session (after (@perform offline (OpSubmitAnswer "hello")) wLocal)
       = Some r
       /\ answeredCount r = nonEmptyAnswers (answers r).
Proof.
  split; [exact wLocal_session|]. split; [exact wLocal_answersCounted|].
  destruct (proj1 (@answeredCount_counts_answers offline)
              (OpSubmitAnswer "hello") wLocal (the (session wLocal))
              wLocal_session wLocal_answersCounted) as (r & Hr & _ & Hc).
  exists r. split; [exact Hr|exact Hc].
Defined.

(** C2 as stated fails: the record made from an entry of the remote
    history carries the reported answeredCount 2 and no answer at all. *)
Lemma answeredCount_counterexample :
  exists r,
    normalizeRemoteSessionAt "1000" historyItem = Some r
    /\ answeredCount r = 2
    /\ nonEmptyAnswers (answers r) = 0.
Proof.
  eexists. split; [vm_compute; reflexivity|].
  split; vm_compute; reflexivity.
Qed.

Lemma finish_completes_witness :
  session wLocal = Some (the (session wLocal))
  /\ (status (the (session wLocal)) = active
      \/ status (the (session wLocal)) = paused)
  /\ fst (@perform offline OpFinish wLocal) = Ok tt
  /\ exists r fb,
       session (after (@perform offline OpFinish) wLocal) = Some r
       /\ status r = finished /\ feedback r = Some fb.
Proof.
  split; [exact wLocal_session|].
  split; [left; exact wLocal_status|].
  destruct (@finish_completes offline wLocal (the (session wLocal))
              wLocal_session (or_introl wLocal_status))
    as (Hok & r & fb & Hr & Hst & Hf & _).
  split; [exact Hok|]. exists r, fb. auto.
Defined.

Lemma local_mode_is_sticky_witness :
  session wLocal = Some (the (session wLocal))
  /\ mode (the (session wLocal)) = local
  /\ netlog (browser (after (@perform offline OpAdvance) wLocal))
     = netlog (browser wLocal)
  /\ exists r, session (after (@perform offline OpAdvance) wLocal) = Some r
               /\ mode r = local.
Proof.
  split; [exact wLocal_session|]. split; [exact wLocal_mode|].
  exact (@local_mode_is_sticky offline OpAdvance wLocal (the (session wLocal))
           wLocal_session wLocal_mode).
Defined.

(** C4 as stated fails: the store holds the session that the failed
    answer call turned local; after the reconciliation with the remote
    history, which sends a request, the stored record of that session is in
    remote mode again. *)
Lemma local_mode_counterexample :
  exists r r',
    records (page wDowngraded) = [r]
    /\ session wDowngraded = Some r /\ mode r = local
    /\ records (page wSynced) = [r']
    /\ key r' = key r /\ sessionId r' = sessionId r /\ mode r' = remote
    /\ length (netlog (browser wSynced))
       = S (length (netlog (browser wDowngraded))).
Proof.
  eexists. eexists.
  split; [vm_compute; reflexivity|].
  split; [vm_compute; reflexivity|].
  split; [reflexivity|].
  split; [vm_compute; reflexivity|].
  repeat split.
Qed.

Lemma currentIndex_in_range_witness :
  session wLocal = Some (the (session wLocal))
  /\ indexInRange (the (session wLocal))
  /\ exists r, session (after (@perform offline OpAdvance) wLocal) = Some r
               /\ indexInRange r.
Proof.
  split; [exact wLocal_session|]. split; [exact wLocal_indexInRange|].
  exact (proj1 (@currentIndex_in_range offline) OpAdvance wLocal
           (the (session wLocal)) wLocal_session wLocal_indexInRange).
Defined.

(** C5 as stated fails: the record made from an entry of the remote
    history has index 2 and no question, and 2 is not below max(1, 0). *)
Lemma currentIndex_counterexample :
  exists r,
    normalizeRemoteSessionAt "1000" historyItem = Some r
    /\ questions r = [] /\ currentIndex r = 2
    /\ ~ indexInRange r.
Proof.
  eexists. split; [vm_compute; reflexivity|].
  split; [reflexivity|]. split; [reflexivity|].
  vm_compute. discriminate.
Qed.

Lemma wPaused_session : session wPaused = Some (the (session wPaused)).
Proof. vm_compute. reflexivity. Defined.

Lemma wPaused_status : status (the (session wPaused)) <> active.
Proof. vm_compute. discriminate. Defined.

Lemma submitAnswer_rejected_witness :
  session wLocal = Some (the (session wLocal))
  /\ (status (the (session wLocal)) <> active \/ trim ideographicSpace = "")
  /\ let w' := after (@perform offline (OpSubmitAnswer ideographicSpace))
                 wLocal in
     session w' = Some (the (session wLocal))
     /\ netlog (browser w') = netlog (browser wLocal)
     /\ error (page w') = emptyMessage.
Proof.
  assert (Hs : session wLocal = Some (the (session wLocal)))
    by (vm_compute; reflexivity).
  split; [exact Hs|].
  split; [right; reflexivity|].
  destruct (@submitAnswer_rejected offline wLocal (the (session wLocal))
              ideographicSpace Hs (or_intror eq_refl))
    as (H1 & H2 & _ & _ & H5 & _).
  cbv zeta. split; [exact H1|]. split; [exact H2|].
  exact (H5 _ eq_refl).
Defined.

(** C6 as stated fails: on a paused session without current question
    (an entry of the remote history loaded as current session) submitAnswer
    returns without setting any validation message. *)
Lemma submitAnswer_counterexample :
  exists cur,
    session wHistory = Some cur /\ status cur = paused
    /\ error (page wHistory) = ""
    /\ error (page (after (@perform offline (OpSubmitAnswer "hello"))
                      wHistory)) = "".
Proof.
  eexists. split; [vm_compute; reflexivity|].
  repeat split.
Qed.

Lemma advance_moves_index_witness :
  session wLocal = Some (the (session wLocal))
  /\ status (the (session wLocal)) = active
  /\ exists r,
       session (after (@perform offline OpAdvance) wLocal) = Some r
       /\ currentIndex r = 1.
Proof.
  split; [exact wLocal_session|]. split; [exact wLocal_status|].
  destruct (proj1 (@advance_moves_index offline wLocal (the (session wLocal))
                     wLocal_session wLocal_status) wLocal_mode)
    as (r & Hr & _ & _ & Hi).
  exists r. split; [exact Hr|]. rewrite Hi. vm_compute. reflexivity.
Defined.

(** C8 as stated fails: in remote mode, at index 0 of 3 questions, the
    server reports index 7 and the session adopts 2; then, at the last
    index 2, the server reports a new question and the index moves to 3. *)
Lemma advance_counterexample :
  exists r0 r1 r2,
    session wRemote = Some r0 /\ mode r0 = remote /\ status r0 = active
    /\ currentIndex r0 = 0 /\ length (questions r0) = 3%nat
    /\ session wRemoteNext = Some r1
    /\ currentIndex r1 = 2 /\ length (questions r1) = 3%nat
    /\ status r1 = active /\ mode r1 = remote
    /\ session wRemoteNextAgain = Some r2
    /\ currentIndex r2 = 3 /\ length (questions r2) = 4%nat.
Proof.
  eexists. eexists. eexists.
  split; [vm_compute; reflexivity|].
  split; [reflexivity|]. split; [reflexivity|].
  split; [reflexivity|]. split; [reflexivity|].
  split; [vm_compute; reflexivity|].
  split; [reflexivity|]. split; [reflexivity|].
  split; [reflexivity|]. split; [reflexivity|].
  split; [vm_compute; reflexivity|].
  split; reflexivity.
Qed.


End Runs.

(** * Further properties *)

(** ** Texts that are not blank *)

Section Tidy.

Lemma trim_tidy s : isBlank (trim s) = false -> tidy (trim s).
Proof. intros Hb. split; [now apply isBlank_false|apply trim_idem]. Qed.

Lemma orStr_nonEmpty s fallback : fallback <> "" -> orStr s fallback <> "".
Proof.
  intros Hf. unfold orStr. destruct (isBlank s) eqn:E; [exact Hf|].
  now apply isBlank_false.
Qed.

Lemma tidy_not_blank s : tidy s -> isBlank s = false.
Proof. intros [Hs _]. now apply isBlank_false. Qed.

End Tidy.

(** * Further properties of the client auth module *)

(** ** Return paths and request URLs *)

Section Paths.
Import AuthClient.

Lemma toSafeReturnTo_cases value :
  toSafeReturnTo value = "/"
  \/ (toSafeReturnTo value = value /\ sameOriginPath value).
Proof.
  unfold sameOriginPath, toSafeReturnTo.
  destruct (isBlank value); [now left|].
  destruct (String.prefix "/" value); cbn [negb]; [|now left].
  destruct (String.prefix "//" value); [now left|]. right. auto.
Qed.

(** X1: [toSafeReturnTo] always gives a path on this origin, is
    idempotent and keeps a path that is already one. *)
Theorem toSafeReturnTo_same_origin value :
  sameOriginPath (toSafeReturnTo value)
  /\ toSafeReturnTo (toSafeReturnTo value) = toSafeReturnTo value
  /\ (sameOriginPath value -> toSafeReturnTo value = value).
Proof.
  assert (Hroot : sameOriginPath "/") by (split; reflexivity).
  destruct (toSafeReturnTo_cases value) as [Hv|[Hv Hs]]; rewrite Hv.
  - split; [exact Hroot|]. split; [reflexivity|].
    intros [H1 H2]. revert Hv. unfold toSafeReturnTo.
    destruct (isBlank value) eqn:Eb.
    + apply isBlank_true in Eb. subst value. discriminate H1.
    + rewrite H1, H2. cbn [negb]. congruence.
  - split; [exact Hs|]. split; [exact Hv|]. intros _. reflexivity.
Qed.

Lemma toSafeReturnTo_idem value :
  toSafeReturnTo (toSafeReturnTo value) = toSafeReturnTo value.
Proof.
  destruct (toSafeReturnTo_cases value) as [Hv|[Hv _]]; now rewrite !Hv.
Qed.

Lemma toSafeReturnTo_safe value : sameOriginPath (toSafeReturnTo value).
Proof.
  destruct (toSafeReturnTo_cases value) as [Hv|[Hv Hs]]; rewrite Hv;
    [split; reflexivity|exact Hs].
Qed.


Lemma toLowerCase_app a b :
  toLowerCase (a +:+ b) = toLowerCase a +:+ toLowerCase b.
Proof.
  induction a as [|c a IH]; [reflexivity|].
  rewrite append_cons. cbn [toLowerCase]. now rewrite append_cons, IH.
Qed.

Lemma prefix_app p a b :
  String.prefix p a = true -> String.prefix p (a +:+ b) = true.
Proof.
  revert a. induction p as [|c p IH]; intros a.
  - intros _. now destruct (a +:+ b).
  - destruct a as [|d a]; [discriminate|].
    rewrite append_cons. cbn [String.prefix].
    destruct (ascii_dec c d); [apply IH|discriminate].
Qed.

Lemma isHttpUrl_app a b : isHttpUrl a = true -> isHttpUrl (a +:+ b) = true.
Proof.
  unfold isHttpUrl. rewrite toLowerCase_app. intros Ha.
  apply orb_true_iff in Ha as [Ha|Ha]; apply orb_true_iff;
    [left|right]; now apply prefix_app.
Qed.

(** X2: under an absolute base URL [toAbsoluteInput] always gives an
    absolute URL; an absolute input is passed as it is, and a relative one
    gives the same URL with and without its leading slash. *)
Theorem toAbsoluteInput_absolute base input :
  isHttpUrl base = true ->
  isHttpUrl (toAbsoluteInput base input) = true
  /\ (isHttpUrl input = true -> toAbsoluteInput base input = input)
  /\ (isHttpUrl input = false -> String.prefix "/" input = false ->
      toAbsoluteInput base ("/" +:+ input) = toAbsoluteInput base input).
Proof.
  intros Hb. unfold toAbsoluteInput. split; [|split].
  - destruct (isHttpUrl input) eqn:E; [exact E|now apply isHttpUrl_app].
  - now intros ->.
  - intros -> ->.
    assert (E : isHttpUrl ("/" +:+ input) = false) by reflexivity.
    assert (E' : String.prefix "/" ("/" +:+ input) = true)
      by now destruct input.
    rewrite E, E'. reflexivity.
Qed.

End Paths.

(** ** What is read from the reply to a refresh request *)

Section Tokens.
Context `{Platform}.
Import Auth AuthClient.

Lemma jsval_nested_ind (P : jsval -> Prop) :
  P VUndef -> P VNull -> (forall b, P (VBool b)) -> (forall n, P (VNum n)) ->
  (forall s, P (VStr s)) ->
  (forall items, Forall P items -> P (VArr items)) ->
  (forall fs, Forall (fun kv => P (snd kv)) fs -> P (VObj fs)) ->
  forall v, P v.
Proof.
  intros H1 H2 H3 H4 H5 H6 H7. fix IH 1.
  intros [| |b|n|s|items|fs];
    [exact H1|exact H2|apply H3|apply H4|apply H5|apply H6|apply H7].
  - induction items as [|x l IHl]; constructor; [apply IH|exact IHl].
  - induction fs as [|[k x] l IHl]; constructor; [apply IH|exact IHl].
Qed.

Lemma directString_tidy keys fs t : directString keys fs = Some t -> tidy t.
Proof.
  induction keys as [|k keys IH]; cbn [directString]; [discriminate|].
  destruct (assoc k fs); auto.
  destruct (isBlank (trim s)) eqn:E; auto.
  intros [= <-]. now apply trim_tidy.
Qed.

Lemma orElseOpt_Some {A} (a b : option A) x :
  orElseOpt a b = Some x -> a = Some x \/ b = Some x.
Proof. destruct a; cbn; auto. Qed.

Lemma nested_tidy (g : jsval -> option string) fs :
  Forall (fun kv => forall t, g (snd kv) = Some t -> tidy t) fs ->
  forall k t,
    (fix nested (k : string) (l : list (string * jsval)) : option string :=
       match l with
       | [] => None
       | (k', v) :: rest => if String.eqb k k' then g v else nested k rest
       end) k fs = Some t ->
    tidy t.
Proof.
  intros Hall k t. induction Hall as [|[k' v] rest Hv _ IH]; [discriminate|].
  destruct (String.eqb k k'); [apply Hv|exact IH].
Qed.

Lemma extractTokenFromPayload_tidy payload t :
  extractTokenFromPayload payload = Some t -> tidy t.
Proof.
  revert t. induction payload as [| | | | | |fs Hall] using jsval_nested_ind;
    intros t; try discriminate.
  cbn [extractTokenFromPayload].
  destruct (directString _ fs) eqn:E.
  { intros [= <-]. exact (directString_tidy _ _ _ E). }
  intros Hn.
  repeat (apply orElseOpt_Some in Hn as [Hn|Hn]);
    exact (nested_tidy extractTokenFromPayload fs Hall _ _ Hn).
Qed.

Lemma extractRefreshTokenFromPayload_tidy payload t :
  extractRefreshTokenFromPayload payload = Some t -> tidy t.
Proof.
  revert t. induction payload as [| | | | | |fs Hall] using jsval_nested_ind;
    intros t; try discriminate.
  cbn [extractRefreshTokenFromPayload].
  destruct (directString _ fs) eqn:E.
  { intros [= <-]. exact (directString_tidy _ _ _ E). }
  intros Hn.
  repeat (apply orElseOpt_Some in Hn as [Hn|Hn]);
    exact (nested_tidy extractRefreshTokenFromPayload fs Hall _ _ Hn).
Qed.

Lemma extractUserNameFromPayload_tidy payload t :
  extractUserNameFromPayload payload = Some t -> tidy t.
Proof.
  revert t. induction payload as [| | | | | |fs Hall] using jsval_nested_ind;
    intros t; try discriminate.
  cbn [extractUserNameFromPayload].
  destruct (directString _ fs) eqn:E.
  { intros [= <-]. exact (directString_tidy _ _ _ E). }
  clear E. induction Hall as [|[k' v] rest Hv _ IH]; [discriminate|].
  destruct (String.eqb "user" k'); [apply Hv|exact IH].
Qed.

(** X3: the access token, the refresh token and the user name that are
    read from a payload, at its top level or nested, are not empty and
    carry no white space around them. *)
Theorem extracted_fields_tidy payload :
  (forall t, extractTokenFromPayload payload = Some t -> tidy t)
  /\ (forall t, extractRefreshTokenFromPayload payload = Some t -> tidy t)
  /\ (forall t, extractUserNameFromPayload payload = Some t -> tidy t).
Proof.
  split; [|split]; intros t.
  - apply extractTokenFromPayload_tidy.
  - apply extractRefreshTokenFromPayload_tidy.
  - apply extractUserNameFromPayload_tidy.
Qed.

Lemma refreshAtEndpoint_refreshable base endpoint current payloads :
  hasRefreshToken current = true ->
  yields (fun o => forall s, o = Some s -> refreshable s)
         (refreshAtEndpoint base endpoint current payloads).
Proof.
  intros Hc. induction payloads as [|p rest IH]; cbn [refreshAtEndpoint].
  - apply yields_ret. discriminate.
  - apply yields_then. intros [response|]; [|exact IH].
    destruct (_ || _); [apply yields_ret; discriminate|].
    destruct (negb (rok response)); [exact IH|].
    destruct (extractTokenFromPayload (rjson response)) as [tok|] eqn:Et;
      [|exact IH].
    apply yields_then. intros extracted.
    apply yields_then. intros iso.
    apply yields_ret. intros s [= <-].
    assert (Hr : hasRefreshToken
                   (mkAuth
                      match rsessionHeader response with
                      | Some h => orStr (trim h) (sessionId current)
                      | None => sessionId current
                      end tok
                      (orElseOpt
                         (extractRefreshTokenFromPayload (rjson response))
                         (refreshToken current))
                      custom iso
                      (orElseOpt (extractUserNameFromPayload (rjson response))
                                 (userName current))
                      (orElseOpt extracted (expiresAt current))) = true).
    { unfold hasRefreshToken. cbn [refreshToken].
      destruct (extractRefreshTokenFromPayload (rjson response)) as [r|] eqn:Er;
        cbn [orElseOpt]; [|exact Hc].
      now rewrite (tidy_not_blank r (extractRefreshTokenFromPayload_tidy _ _ Er)). }
    split; [reflexivity|].
    split; [exact (extractTokenFromPayload_tidy _ _ Et)|].
    split; [exact Hr|].
    intros t. unfold expiredWithoutRefreshAt. rewrite Hr.
    now rewrite andb_false_r.
Qed.


End Tokens.

(** ** The operations of the auth hook *)

Section HookOps.
Context `{Platform}.
Import Auth AuthClient AuthHookOps.

Lemma persisted_kept next w :
  expiredWithoutRefreshAt (now (browser w)) next = false ->
  persistState next w
  = (Ok next, withAuth (adoptedBy next) (withBrowser (savedIn next) w)).
Proof.
  intros He. rewrite persistState_run. unfold persisted. now rewrite He.
Qed.

Lemma not_custom_not_authenticated t s :
  Auth.mode s = local -> isClientAuthenticatedAt t (Some s) = false.
Proof. intros Hm. unfold isClientAuthenticatedAt. now rewrite Hm. Qed.

(** X5: [logout] returns a fresh guest credential, which it makes the
    current one in memory and in storage; the failure reason is cleared,
    no request is sent, and the client is not authenticated;
    [resetAuthState] does the same. *)
Theorem logout_makes_guest w :
  exists g,
    fst (logout w) = Ok g
    /\ let w' := snd (logout w) in
       freshGuest g
       /\ authRef (auth w') = Some g /\ authState (auth w') = Some g
       /\ tokenDraft (auth w') = accessToken g
       /\ storage (browser w') !! STORAGE_KEY = Some (Json (encodeAuth g))
       /\ authFailureReason (auth w') = None
       /\ netlog (browser w') = netlog (browser w)
       /\ (forall t, isClientAuthenticatedAt t (authState (auth w')) = false)
       /\ resetAuthState w = logout w.
Proof.
  unfold resetAuthState, logout. cbv [bind setAuthFailureReason modify].
  rewrite createGuestAuthState_run, persisted_kept
    by apply guest_not_expired, freshGuest_guestAt.
  eexists. split; [reflexivity|]. cbn.
  split; [apply freshGuest_guestAt|].
  repeat split; auto. apply lookup_insert_eq.
Qed.

Lemma trimmedOpt_Some o s : trimmedOpt o = Some s -> isBlank s = false.
Proof.
  unfold trimmedOpt, orNull. destruct o as [x|]; [|discriminate].
  destruct (isBlank (trim x)) eqn:E; [discriminate|]. now intros [= <-].
Qed.

Lemma createAuthenticatedAuthState_run payload w :
  exists s w1,
    createAuthenticatedAuthState payload w = (Ok s, w1)
    /\ Auth.mode s = custom
    /\ (forall tok, trimmedOpt (token payload) = Some tok -> accessToken s = tok)
    /\ Auth.refreshToken s = trimmedOpt (refreshToken payload)
    /\ (trimmedOpt (expiresAt payload) = None ->
        expiresInHours payload = None -> Auth.expiresAt s = None)
    /\ (forall e, trimmedOpt (expiresAt payload) = Some e ->
        Auth.expiresAt s = Some e)
    /\ now (browser w1) = now (browser w)
    /\ netlog (browser w1) = netlog (browser w)
    /\ auth w1 = auth w.
Proof.
  unfold createAuthenticatedAuthState, normalizeExpiresAt, toFutureTimeIso,
    generateAccessToken, generateSessionId, isoNow.
  cbv [bind ret dateNow drawHex].
  destruct (trimmedOpt (token payload)) as [tok|];
    destruct (trimmedOpt (sessionId payload)) as [sid|];
    destruct (trimmedOpt (expiresAt payload)) as [e|];
    try (destruct (expiresInHours payload) as [h|];
         [destruct (h <=? 0)|]);
    cbn; do 2 eexists; (split; [reflexivity|]); cbn;
    repeat split; try congruence; try discriminate.
Qed.

(** X6: [login] with a token and without expiry makes the client
    authenticated under that token: the credential is the current one in
    memory and in storage and the failure reason is cleared. *)
Theorem login_authenticates payload w tok :
  trimmedOpt (token payload) = Some tok ->
  trimmedOpt (expiresAt payload) = None ->
  expiresInHours payload = None ->
  exists s,
    fst (login payload w) = Ok s
    /\ let w' := snd (login payload w) in
       accessToken s = tok /\ Auth.mode s = custom
       /\ Auth.refreshToken s = trimmedOpt (refreshToken payload)
       /\ authRef (auth w') = Some s /\ authState (auth w') = Some s
       /\ storage (browser w') !! STORAGE_KEY = Some (Json (encodeAuth s))
       /\ authFailureReason (auth w') = None
       /\ netlog (browser w') = netlog (browser w)
       /\ isClientAuthenticatedAt (now (browser w')) (authState (auth w'))
          = true.
Proof.
  intros Htok He Hh. unfold login. cbv [bind setAuthFailureReason modify].
  match goal with
  | |- context [createAuthenticatedAuthState payload ?w0] =>
      destruct (createAuthenticatedAuthState_run payload w0)
        as (s & w1 & Hrun & Hm & Ht & Hr & Hnone & _ & Hnow & Hlog & Ha)
  end.
  rewrite Hrun. specialize (Hnone He Hh).
  assert (Hexp : forall t, isAuthExpiredAt t s = false)
    by (intros t; unfold isAuthExpiredAt; now rewrite Hnone).
  rewrite persisted_kept
    by (unfold expiredWithoutRefreshAt; now rewrite Hexp, andb_false_r).
  exists s. split; [reflexivity|]. cbn.
  split; [now apply Ht|]. split; [exact Hm|]. split; [exact Hr|].
  split; [reflexivity|]. split; [reflexivity|].
  split; [apply lookup_insert_eq|].
  split; [now rewrite Ha|]. split; [exact Hlog|].
  unfold isClientAuthenticatedAt. rewrite Hm, Hexp.
  now rewrite bool_decide_eq_true_2.
Qed.

(** X7: [login] with an expiry that has already passed and without
    refresh token does not authenticate: a fresh guest credential becomes
    the current one. *)
Theorem login_expired_is_guest payload w e ms :
  trimmedOpt (expiresAt payload) = Some e ->
  parseDate e = Some ms -> ms <= now (browser w) ->
  trimmedOpt (refreshToken payload) = None ->
  exists g,
    fst (login payload w) = Ok g
    /\ let w' := snd (login payload w) in
       freshGuest g
       /\ authRef (auth w') = Some g /\ authState (auth w') = Some g
       /\ storage (browser w') !! STORAGE_KEY = Some (Json (encodeAuth g))
       /\ authFailureReason (auth w') = None
       /\ isClientAuthenticatedAt (now (browser w')) (authState (auth w'))
          = false.
Proof.
  intros He Hp Hms Hr. unfold login. cbv [bind setAuthFailureReason modify].
  match goal with
  | |- context [createAuthenticatedAuthState payload ?w0] =>
      destruct (createAuthenticatedAuthState_run payload w0)
        as (s & w1 & Hrun & Hm & _ & Href & _ & Hsome & Hnow & _ & Ha)
  end.
  rewrite Hrun. specialize (Hsome e He).
  assert (Hexp : expiredWithoutRefreshAt (now (browser w1)) s = true).
  { unfold expiredWithoutRefreshAt, isAuthExpiredAt, hasRefreshToken.
    rewrite Hm, Hsome, Href, Hr, (trimmedOpt_Some _ _ He), Hp, Hnow.
    rewrite bool_decide_eq_true_2 by reflexivity. cbn.
    rewrite andb_true_r. apply Z.leb_le. exact Hms. }
  rewrite persistState_run.
  destruct (persisted_spec s w1)
    as (_ & H1 & H2 & H3 & _ & _ & _ & H4 & H5 & _).
  specialize (H5 Hexp).
  exists (fst (persisted s w1)). split; [reflexivity|]. cbn [snd].
  split; [exact H5|]. split; [exact H1|]. split; [exact H2|].
  split; [exact H3|]. split; [now rewrite H4, Ha|].
  rewrite H2. apply not_custom_not_authenticated.
  now apply freshGuest_local.
Qed.

(** X8: [applyAccessToken] with a token that is not blank, on a
    credential that is not past its expiry or has a refresh token, puts the
    trimmed token into the current credential in authenticated mode and
    keeps its session id, refresh token and expiry; the failure reason is
    cleared and no request is sent. *)
Theorem applyAccessToken_keeps_session w current tokenText :
  authRef (auth w) = Some current ->
  isAuthExpiredAt (now (browser w)) current = false
  \/ hasRefreshToken current = true ->
  isBlank (trim tokenText) = false ->
  exists s,
    fst (applyAccessToken tokenText w) = Ok s
    /\ let w' := snd (applyAccessToken tokenText w) in
       accessToken s = trim tokenText /\ Auth.mode s = custom
       /\ Auth.sessionId s = Auth.sessionId current
       /\ Auth.refreshToken s = Auth.refreshToken current
       /\ Auth.expiresAt s = Auth.expiresAt current
       /\ authRef (auth w') = Some s /\ authState (auth w') = Some s
       /\ storage (browser w') !! STORAGE_KEY = Some (Json (encodeAuth s))
       /\ authFailureReason (auth w') = None
       /\ netlog (browser w') = netlog (browser w).
Proof.
  intros Hcur Hok Hb. unfold applyAccessToken. rewrite Hb.
  assert (Hnot : forall m u a,
            expiredWithoutRefreshAt (now (browser w))
              (mkAuth (Auth.sessionId current) a (Auth.refreshToken current) m u
                      (Auth.userName current) (Auth.expiresAt current)) = false).
  { intros m u a. unfold expiredWithoutRefreshAt, isAuthExpiredAt, hasRefreshToken
      in *. cbn [Auth.expiresAt Auth.refreshToken Auth.mode].
    destruct Hok as [-> | ->]; [now rewrite andb_false_r|].
    now rewrite andb_false_r. }
  destruct (ensureAuthState_spec w) as (s0 & Hs0 & _ & _ & _ & _ & Hsame).
  specialize (Hsame current Hcur).
  assert (Hcurrent : expiredWithoutRefreshAt (now (browser w)) current = false).
  { specialize (Hnot (Auth.mode current) (Auth.updatedAt current)
                     (accessToken current)).
    now destruct current. }
  rewrite Hcurrent in Hsame. destruct Hsame as [-> Hw].
  destruct (ensureAuthState w) as [r0 w0] eqn:Eens. cbn [fst snd] in *.
  subst r0 w0. cbv [bind]. rewrite Eens.
  cbv [isoNow bind dateNow ret setAuthFailureReason modify].
  rewrite persisted_kept.
  - eexists. split; [reflexivity|]. cbn.
    repeat split; auto. apply lookup_insert_eq.
  - cbn [browser withAuth now].
    unfold expiredWithoutRefreshAt, isAuthExpiredAt, hasRefreshToken in *.
    cbn [Auth.expiresAt Auth.refreshToken Auth.mode].
    destruct Hok as [-> | ->]; now rewrite andb_false_r.
Qed.

Lemma ensureAuthState_reason w :
  authFailureReason (auth (snd (ensureAuthState w)))
  = authFailureReason (auth w).
Proof.
  cbv [ensureAuthState bind get dateNow ret].
  destruct (authRef (auth w)) as [current|].
  - destruct (expiredWithoutRefreshAt (now (browser w)) current);
      [|reflexivity].
    rewrite createGuestAuthState_run, persistState_run.
    match goal with
    | |- context [persisted ?g ?w0] =>
        destruct (persisted_spec g w0) as (_ & _ & _ & _ & _ & _ & _ & H4 & _)
    end.
    exact H4.
  - destruct (getOrCreateClientAuthState_spec w)
      as (s & Hs & _ & _ & _ & Ha & _).
    destruct (getOrCreateClientAuthState w) as [r w1]. cbn [fst snd] in *.
    subst r. cbn. now rewrite Ha.
Qed.


End HookOps.

(** ** Redirections *)

Section KeepsLocation.

Lemma keepsLocation_ret {A} (a : A) : keepsLocation (ret a).
Proof. intros w. reflexivity. Qed.

Lemma keepsLocation_throw {A} : keepsLocation (@throw A).
Proof. intros w. reflexivity. Qed.

Lemma keepsLocation_get : keepsLocation get.
Proof. intros w. reflexivity. Qed.

Lemma keepsLocation_dateNow : keepsLocation dateNow.
Proof. intros w. reflexivity. Qed.

Lemma keepsLocation_withAuth f : keepsLocation (modify (withAuth f)).
Proof. intros w. reflexivity. Qed.

Lemma keepsLocation_withPage f : keepsLocation (modify (withPage f)).
Proof. intros w. reflexivity. Qed.

Lemma keepsLocation_bind {A B} (m : M A) (k : A -> M B) :
  keepsLocation m -> (forall a, keepsLocation (k a)) -> keepsLocation (bind m k).
Proof.
  intros Hm Hk w. unfold bind. specialize (Hm w).
  destruct (m w) as [[a|] w']; simpl in *; [|exact Hm].
  rewrite (Hk a w'). exact Hm.
Qed.

Lemma keepsLocation_attempt {A} (m : M A) :
  keepsLocation m -> keepsLocation (attempt m).
Proof.
  intros Hm w. unfold attempt. specialize (Hm w).
  destruct (m w) as [r w']; exact Hm.
Qed.

Lemma wp_keepsLocation {A} (m : M A) w0 w (Q : Result A -> World -> Prop) :
  keepsLocation m -> locationOf w0 = locationOf w ->
  (forall r w', locationOf w' = locationOf w -> Q r w') -> wp m w0 Q.
Proof.
  intros Hm H0 HQ. unfold wp. apply HQ. now rewrite (Hm w0).
Qed.

End KeepsLocation.

Create HintDb stays.

#[export] Hint Resolve keepsLocation_ret keepsLocation_throw keepsLocation_get
  keepsLocation_dateNow keepsLocation_withAuth keepsLocation_withPage : stays.

Ltac stays :=
  repeat (intros; first
    [ assumption
    | solve [auto with stays]
    | apply keepsLocation_bind
    | apply keepsLocation_attempt
    | match goal with
      | |- keepsLocation (match ?x with _ => _ end) => destruct x
      | |- keepsLocation (if ?b then _ else _) => destruct b
      end ]).

Section Redirects.
Context `{Platform}.
Import Auth AuthClient.

Lemma keepsLocation_fetch rq : keepsLocation (fetch rq).
Proof.
  intros w. unfold fetch.
  destruct (network _ _ _) as [t [|r]]; reflexivity.
Qed.

Lemma keepsLocation_drawHex len : keepsLocation (drawHex len).
Proof. intros w. reflexivity. Qed.

Lemma keepsLocation_isoNow : keepsLocation isoNow.
Proof. unfold isoNow. stays. Qed.

Lemma keepsLocation_setStorage f : keepsLocation (setStorage f).
Proof. intros w. reflexivity. Qed.

Hint Resolve keepsLocation_fetch keepsLocation_drawHex keepsLocation_isoNow
  keepsLocation_setStorage : stays.

Lemma keepsLocation_createGuestAuthState : keepsLocation createGuestAuthState.
Proof.
  unfold createGuestAuthState, generateSessionId, generateAccessToken. stays.
Qed.

Lemma keepsLocation_saveClientAuthState s :
  keepsLocation (saveClientAuthState s).
Proof. unfold saveClientAuthState. stays. Qed.

Hint Resolve keepsLocation_createGuestAuthState
  keepsLocation_saveClientAuthState : stays.

Lemma keepsLocation_loadClientAuthState : keepsLocation loadClientAuthState.
Proof.
  unfold loadClientAuthState, normalizeClientAuthState, clearClientAuthState.
  stays.
Qed.

Hint Resolve keepsLocation_loadClientAuthState : stays.

Lemma keepsLocation_persistState s : keepsLocation (persistState s).
Proof. unfold persistState, adopt. stays. Qed.

Hint Resolve keepsLocation_persistState : stays.

Lemma keepsLocation_ensureAuthState : keepsLocation ensureAuthState.
Proof. unfold ensureAuthState, getOrCreateClientAuthState, adopt. stays. Qed.

Lemma keepsLocation_authFetch input init s :
  keepsLocation (authFetch input init s).
Proof.
  unfold authFetch, getOrCreateClientAuthState, syncAuthStateFromResponse.
  stays.
Qed.

Hint Resolve keepsLocation_ensureAuthState keepsLocation_authFetch : stays.

Lemma keepsLocation_extractExpiresAtFromPayload v :
  keepsLocation (extractExpiresAtFromPayload v).
Proof. unfold extractExpiresAtFromPayload. stays. Qed.

Hint Resolve keepsLocation_extractExpiresAtFromPayload : stays.

Lemma keepsLocation_refreshAtEndpoint base endpoint current payloads :
  keepsLocation (refreshAtEndpoint base endpoint current payloads).
Proof.
  induction payloads as [|p rest IH]; cbn [refreshAtEndpoint]; stays.
Qed.

Hint Resolve keepsLocation_refreshAtEndpoint : stays.

Lemma keepsLocation_tryAutoRefreshAuth base current :
  keepsLocation (tryAutoRefreshAuth base current).
Proof.
  unfold tryAutoRefreshAuth.
  destruct (negb (hasRefreshToken current)); [stays|].
  induction refreshEndpoints as [|e rest IH]; cbn [refreshOverEndpoints];
    stays.
Qed.

Hint Resolve keepsLocation_tryAutoRefreshAuth : stays.

Lemma redirectedFrom_same options w w' :
  locationOf w' = locationOf w -> redirectedFrom options w w'.
Proof. intros [= H1 H2 H3]. split; [|split]; auto. Qed.

Lemma downgrade_redirects options had current response w0 w :
  locationOf w0 = locationOf w ->
  redirectedFrom options w (snd (downgrade options had current response w0)).
Proof.
  intros [= H1 H2 H3].
  change (wp (downgrade options had current response) w0
            (fun _ w' => redirectedFrom options w w')).
  unfold downgrade. wp_step.
  set (reason := if had then refresh_failed
                 else if isAuthExpiredAt (now (browser w0)) current
                      then expired else unauthorized).
  apply (wp_known _ w0 (Ok reason) w0);
    [subst reason; destruct had; reflexivity|].
  cbv beta iota. wp_step. unfold setAuthFailureReason. wp_step.
  cbv beta iota. wp_step.
  eapply wp_known; [apply createGuestAuthState_run|]. cbv beta iota.
  wp_step. eapply wp_known.
  { rewrite persistState_run. unfold persisted.
    rewrite guest_not_expired by apply freshGuest_guestAt. reflexivity. }
  cbv beta iota. cbn [fst snd].
  wp_step. unfold shouldSkipAutoRedirect. wp_step. wp_step. wp_step.
  cbv beta iota. wp_step.
  cbn [browser withAuth withBrowser savedIn drawnTwice pathname].
  fold (loginPathOf options).
  destruct (autoRedirectOnUnauthorized options) as [[|]|] eqn:Eauto;
    cbn [andb];
    try (wp_step; cbv beta iota; wp_step; apply redirectedFrom_same;
         unfold locationOf; cbn; congruence).
  destruct (_ || _) eqn:Eskip; cbn [negb].
  - wp_step. cbv beta iota. wp_step. apply redirectedFrom_same.
    unfold locationOf. cbn. congruence.
  - wp_step. unfold getCurrentReturnToPath. wp_step. wp_step. wp_step.
    cbv beta iota. unfold locationReplace. wp_step. cbv beta iota. wp_step.
    split; [exact H1|]. split; [exact H2|]. right. exists reason. cbn.
    rewrite toSafeReturnTo_idem, H1, H2.
    split; [reflexivity|]. split; [reflexivity|]. split; [exact Eauto|].
    unfold onLoginPage. rewrite <- H1. exact Eskip.
Qed.

(** X10: [apiFetch] does not navigate; at most it sends the browser to
    the login page, which it does only under automatic redirection and off
    the login page, with the reason it shows as failure reason and with a
    return path on this origin. *)
Theorem apiFetch_redirects_safely options base input init w :
  let w' := snd (apiFetch options base input init w) in
  redirectedFrom options w w'
  /\ forall target reason,
       replacedWith (browser w') = Some (target, reason) ->
       replacedWith (browser w) = None ->
       sameOriginPath target.
Proof.
  cbv zeta.
  assert (Hmain : redirectedFrom options w
                    (snd (apiFetch options base input init w))).
  { change (wp (apiFetch options base input init) w
              (fun _ w' => redirectedFrom options w w')).
    assert (Hdown : forall had current response w0,
              locationOf w0 = locationOf w ->
              wp (downgrade options had current response) w0
                 (fun _ w' => redirectedFrom options w w'))
      by (intros; now apply downgrade_redirects).
    unfold apiFetch. wp_step.
    apply (wp_keepsLocation _ w w); [apply keepsLocation_ensureAuthState|reflexivity|].
    intros [current|] w1 H1; [|now apply redirectedFrom_same].
    wp_step.
    apply (wp_keepsLocation _ w1 w); [apply keepsLocation_authFetch|exact H1|].
    intros [result|] w2 H2; [|now apply redirectedFrom_same].
    wp_step.
    apply (wp_keepsLocation _ w2 w); [stays|exact H2|].
    intros [[]|] w3 H3; [|now apply redirectedFrom_same].
    destruct (_ || _); [wp_step; now apply redirectedFrom_same|].
    wp_step.
    apply (wp_keepsLocation _ w3 w); [stays|exact H3|].
    intros [[candidate|]|] w4 H4; [| |now apply redirectedFrom_same].
    2:{ now apply Hdown. }
    wp_step.
    apply (wp_keepsLocation _ w4 w); [stays|exact H4|].
    intros [refreshed|] w5 H5; [|now apply redirectedFrom_same].
    wp_step. unfold setAuthFailureReason. wp_step. cbv beta iota.
    wp_step.
    apply (wp_keepsLocation _ _ w); [stays|exact H5|].
    intros [retry|] w6 H6; [|now apply redirectedFrom_same].
    destruct (_ || _); [|now apply Hdown].
    apply (wp_keepsLocation _ w6 w); [stays|exact H6|].
    intros r w7 H7. now apply redirectedFrom_same. }
  split; [exact Hmain|].
  intros target reason Hrep Hnone.
  destruct Hmain as (_ & _ & [Hsame|(reason' & Hr & _)]).
  - congruence.
  - rewrite Hr in Hrep. injection Hrep as <- _.
    apply toSafeReturnTo_safe.
Qed.

End Redirects.

(** ** Requests that need no refresh *)

Section PassThrough.
Context `{Platform}.
Import Auth AuthClient.

Lemma authFetch_effects input init s w :
  auth (snd (authFetch input init (Some s) w)) = auth w
  /\ forall r st,
       fst (authFetch input init (Some s) w) = Ok (r, st) ->
       snd (network (netlog (browser w)) (now (browser w))
              (buildInitWithAuth input init s)) = NetReply r.
Proof.
  unfold authFetch, fetch, syncAuthStateFromResponse, saveClientAuthState,
    setStorage, isoNow.
  cbv [bind ret dateNow modify].
  destruct (network _ _ _) as [t [|r]]; cbn [fst snd].
  - split; [reflexivity|discriminate].
  - destruct (rsessionHeader r) as [h|]; [destruct (_ || _)|]; cbn;
      (split; [reflexivity|]); now intros r' st [= <- _].
Qed.

Lemma persistState_reason s w :
  authFailureReason (auth (snd (persistState s w)))
  = authFailureReason (auth w).
Proof.
  rewrite persistState_run.
  now destruct (persisted_spec s w) as (_ & _ & _ & _ & _ & _ & _ & H4 & _).
Qed.


Lemma refreshAtEndpoint_not_found base endpoint current p rest w :
  notFoundEverywhere ->
  fst (refreshAtEndpoint base endpoint current (p :: rest) w) = Ok None
  /\ netlog (browser (snd (refreshAtEndpoint base endpoint current
                             (p :: rest) w)))
     = (netlog (browser w) ++ [refreshRequest base endpoint current p])%list.
Proof.
  intros Hnf. cbn [refreshAtEndpoint]. cbv [bind attempt].
  pose proof (fetch_log (refreshRequest base endpoint current p) w) as Hlog.
  unfold fetch in *.
  destruct (Hnf (netlog (browser w)) (now (browser w))
              (refreshRequest base endpoint current p)) as (r & Hr & Hst).
  destruct (network _ _ _) as [t out]. cbn [snd] in Hr. subst out.
  cbn [fst snd] in *.
  assert (E : (rstatus r =? 404) || (rstatus r =? 405) = true)
    by (destruct Hst as [-> | ->]; reflexivity).
  rewrite E. split; [reflexivity|exact Hlog].
Qed.

(** X12: when every request is answered 404 or 405, [tryAutoRefreshAuth]
    under a credential with refresh token returns none after exactly one
    request to each of the four refresh endpoints, in their order, each with
    the first payload shape. *)
Theorem refresh_gives_up_on_missing_endpoints base current w :
  hasRefreshToken current = true ->
  notFoundEverywhere ->
  fst (tryAutoRefreshAuth base current w) = Ok None
  /\ netlog (browser (snd (tryAutoRefreshAuth base current w)))
     = (netlog (browser w)
        ++ ((fun endpoint =>
               refreshRequest base endpoint current
                 (VObj [("refreshToken", optStr (refreshToken current));
                        ("sessionId", VStr (sessionId current))]))
            <$> refreshEndpoints))%list.
Proof.
  intros Hc Hnf. unfold tryAutoRefreshAuth. rewrite Hc. cbn [negb].
  assert (Hover : forall endpoints w0,
            fst (refreshOverEndpoints base endpoints current w0) = Ok None
            /\ netlog (browser (snd (refreshOverEndpoints base endpoints
                                       current w0)))
               = (netlog (browser w0)
                  ++ ((fun endpoint =>
                         refreshRequest base endpoint current
                           (VObj [("refreshToken",
                                   optStr (refreshToken current));
                                  ("sessionId", VStr (sessionId current))]))
                      <$> endpoints))%list).
  { induction endpoints as [|e rest IH]; intros w0;
      cbn [refreshOverEndpoints].
    - split; [reflexivity|]. cbn. now rewrite app_nil_r.
    - unfold refreshPayloads. cbv [bind].
      match goal with
      | |- context [refreshAtEndpoint base e current (?p :: ?ps) w0] =>
          destruct (refreshAtEndpoint_not_found base e current p ps w0 Hnf)
            as [Hr Hl];
          destruct (refreshAtEndpoint base e current (p :: ps) w0)
            as [r w1]
      end.
      cbn [fst snd] in *. subst r.
      destruct (IH w1) as [Hr' Hl']. split; [exact Hr'|].
      rewrite Hl', Hl, fmap_cons, <- app_assoc. reflexivity. }
  apply Hover.
Qed.

End PassThrough.

(** ** The stored credential *)

Section StoredCredential.
Context `{Platform}.
Import Auth AuthClient.

Lemma trimmedField_optStr o :
  (forall x, o = Some x -> tidy x) ->
  orNull match optStr o with
         | VStr s => trim s
         | _ => ""
         end = o.
Proof.
  intros Ho. destruct o as [x|]; [|reflexivity]. cbn.
  destruct (Ho x eq_refl) as [Hx ->]. unfold orNull.
  now rewrite (proj2 (isBlank_false x) Hx).
Qed.

Lemma normalizeClientAuthState_encodeAuth s w :
  wellFormedAuth s -> updatedAt s <> "" ->
  normalizeClientAuthState (encodeAuth s) w
  = (Ok (if expiredWithoutRefreshAt (now (browser w)) s then None else Some s),
     w).
Proof.
  intros ([Hs1 Hs2] & [Ha1 Ha2] & Hr & Hu & He) Hup.
  unfold normalizeClientAuthState, encodeAuth, trimmedField.
  cbn [isRecord negb prop assoc String.eqb Ascii.eqb Bool.eqb].
  rewrite Hs2, Ha2.
  rewrite (proj2 (isBlank_false _) Hs1), (proj2 (isBlank_false _) Ha1).
  cbn [orb]. rewrite (proj2 (isBlank_false _) Hup).
  rewrite !trimmedField_optStr by assumption.
  assert (Hm : (if String.eqb (toLowerCase (trim (modeText (mode s)))) "custom"
                then custom else local) = mode s)
    by (now destruct (mode s)).
  rewrite Hm. cbv [bind ret dateNow].
  replace (mkAuth (sessionId s) (accessToken s) (refreshToken s) (mode s)
                  (updatedAt s) (userName s) (expiresAt s)) with s
    by now destruct s.
  now destruct (expiredWithoutRefreshAt (now (browser w)) s).
Qed.

(** X13: a credential with tidy fields that is not an expired one without
    refresh token is read back by [loadClientAuthState] exactly as
    [saveClientAuthState] stored it, and reading does not change the
    storage. *)
Theorem saved_credential_is_loaded_back s w :
  wellFormedAuth s -> updatedAt s <> "" ->
  expiredWithoutRefreshAt (now (browser w)) s = false ->
  let w1 := snd (saveClientAuthState s w) in
  loadClientAuthState w1 = (Ok (Some s), w1).
Proof.
  intros Hwf Hup Hv. rewrite saveClientAuthState_run. cbn [snd].
  unfold loadClientAuthState. cbv [bind get].
  cbn [browser withBrowser savedIn storage].
  rewrite lookup_insert_eq. cbn [orElseOpt].
  rewrite normalizeClientAuthState_encodeAuth by assumption.
  cbn [browser withBrowser savedIn now]. now rewrite Hv.
Qed.

Lemma orNull_trim_tidy x r : orNull (trim x) = Some r -> tidy r.
Proof.
  unfold orNull. destruct (isBlank (trim x)) eqn:E; [discriminate|].
  intros [= <-]. now apply trim_tidy.
Qed.

(** X14: every credential that [normalizeClientAuthState] lets through,
    hence every credential that [loadClientAuthState] returns, has a
    session id and an access token that are not empty and carry no white
    space around them, and so are its refresh token, user name and expiry
    when it has them. *)
Theorem loaded_credential_is_wellFormed :
  (forall value w s w',
     normalizeClientAuthState value w = (Ok (Some s), w') -> wellFormedAuth s)
  /\ (forall w s w',
        loadClientAuthState w = (Ok (Some s), w') -> wellFormedAuth s).
Proof.
  assert (Hn : forall value w s w',
            normalizeClientAuthState value w = (Ok (Some s), w') ->
            wellFormedAuth s).
  { intros value w s w'. unfold normalizeClientAuthState.
    destruct (negb (isRecord value)); [discriminate|].
    destruct (isBlank (trimmedField value "sessionId")) eqn:E1;
      [discriminate|].
    destruct (isBlank (trimmedField value "accessToken")) eqn:E2;
      [discriminate|]. cbn [orb].
    assert (Ht : forall k, isBlank (trimmedField value k) = false ->
                           tidy (trimmedField value k)).
    { intros k. unfold trimmedField. destruct (prop value k); try discriminate.
      apply trim_tidy. }
    assert (Ho : forall k r, orNull (trimmedField value k) = Some r -> tidy r).
    { intros k r. unfold trimmedField.
      destruct (prop value k); try discriminate. apply orNull_trim_tidy. }
    unfold bind, isoNow, dateNow, ret, bind.
    destruct (prop value "updatedAt") as [| | | |u| |];
      try destruct (isBlank u); cbn;
      match goal with
      | |- context [expiredWithoutRefreshAt ?t ?n] =>
          destruct (expiredWithoutRefreshAt t n)
      end; intros [= <- <-];
      (split; [exact (Ht _ E1)|]); (split; [exact (Ht _ E2)|]);
      (split; [|split]); apply Ho. }
  split; [exact Hn|].
  intros w s w'. unfold loadClientAuthState, bind, get. cbn.
  destruct (orElseOpt _ _) as [[|parsed]|]; try discriminate.
  destruct (normalizeClientAuthState parsed w) as [[[n|]|] w1] eqn:E;
    cbn; try discriminate.
  intros [= <- <-]. exact (Hn _ _ _ _ E).
Qed.

End StoredCredential.

(** ** The expired credential *)

Section ExpiredCredential.
Context `{Platform}.
Import Auth AuthClient.

(** A stored credential that is past its expiry and has no refresh
    credential is not loaded: the load returns none and removes it, and
    [getOrCreateClientAuthState] stores and returns the guest made at that
    time. *)
Lemma stored_expired_credential s w :
  storage (browser w) !! STORAGE_KEY = Some (Json (encodeAuth s)) ->
  wellFormedAuth s -> updatedAt s <> "" ->
  expiredWithoutRefreshAt (now (browser w)) s = true ->
  fst (loadClientAuthState w) = Ok None
  /\ storage (browser (snd (loadClientAuthState w))) !! STORAGE_KEY = None
  /\ fst (getOrCreateClientAuthState w) = Ok (guestAt (browser w))
  /\ storage (browser (snd (getOrCreateClientAuthState w))) !! STORAGE_KEY
     = Some (Json (encodeAuth (guestAt (browser w)))).
Proof.
  intros Hst Hwf Hup He.
  assert (Hload : loadClientAuthState w
                  = (Ok None,
                     snd (clearClientAuthState w))).
  { unfold loadClientAuthState. cbv [bind get]. rewrite Hst. cbn [orElseOpt].
    rewrite normalizeClientAuthState_encodeAuth by assumption.
    rewrite He. reflexivity. }
  rewrite Hload. cbn [fst snd]. split; [reflexivity|].
  split.
  { cbn. rewrite lookup_delete_ne by discriminate. apply lookup_delete_eq. }
  cbv [getOrCreateClientAuthState bind]. rewrite Hload.
  rewrite createGuestAuthState_run, saveClientAuthState_run. cbn [fst snd].
  split; [reflexivity|]. cbn. apply lookup_insert_eq.
Qed.

(** C9, as amended: a credential in authenticated mode that is past its
    expiry and has no refresh credential is not returned by
    [normalizeClientAuthState] and [loadClientAuthState], which return in
    every case; when such a credential is the stored one the load returns
    none and removes it; [persistState] saves, adopts and returns in its
    place the guest credential made at that time (and keeps any other
    credential as it is), so does [ensureAuthState] for the credential in
    memory, and [getOrCreateClientAuthState] stores and returns that guest
    when the load returned none.  The expiry is not tested where a reply names
    another session: [syncAuthStateFromResponse] saves and returns the
    credential it was given under the new session id, expired or not. *)
Theorem expired_credential_degrades_to_guest :
  (forall value w,
     exists o,
       normalizeClientAuthState value w = (Ok o, w)
       /\ forall s, o = Some s ->
            expiredWithoutRefreshAt (now (browser w)) s = false)
  /\ (forall w,
        exists o,
          fst (loadClientAuthState w) = Ok o
          /\ forall s, o = Some s ->
               snd (loadClientAuthState w) = w
               /\ expiredWithoutRefreshAt (now (browser w)) s = false)
  /\ (forall s w,
        storage (browser w) !! STORAGE_KEY = Some (Json (encodeAuth s)) ->
        wellFormedAuth s -> updatedAt s <> "" ->
        expiredWithoutRefreshAt (now (browser w)) s = true ->
        fst (loadClientAuthState w) = Ok None
        /\ storage (browser (snd (loadClientAuthState w))) !! STORAGE_KEY
           = None
        /\ fst (getOrCreateClientAuthState w) = Ok (guestAt (browser w))
        /\ storage (browser (snd (getOrCreateClientAuthState w)))
             !! STORAGE_KEY
           = Some (Json (encodeAuth (guestAt (browser w)))))
  /\ (forall next w,
        exists saved,
          fst (persistState next w) = Ok saved
          /\ let w' := snd (persistState next w) in
             expiredWithoutRefreshAt (now (browser w')) saved = false
             /\ authRef (auth w') = Some saved
             /\ authState (auth w') = Some saved
             /\ storage (browser w') !! STORAGE_KEY
                = Some (Json (encodeAuth saved))
             /\ saved =
                if expiredWithoutRefreshAt (now (browser w)) next
                then guestAt (browser w) else next)
  /\ (forall w,
        exists s,
          fst (ensureAuthState w) = Ok s
          /\ let w' := snd (ensureAuthState w) in
             expiredWithoutRefreshAt (now (browser w')) s = false
             /\ authRef (auth w') = Some s
             /\ (forall current,
                   authRef (auth w) = Some current ->
                   if expiredWithoutRefreshAt (now (browser w)) current
                   then s = guestAt (browser w)
                        /\ storage (browser w') !! STORAGE_KEY
                           = Some (Json (encodeAuth s))
                   else s = current /\ w' = w))
  /\ (forall w,
        exists s,
          fst (getOrCreateClientAuthState w) = Ok s
          /\ let w' := snd (getOrCreateClientAuthState w) in
             expiredWithoutRefreshAt (now (browser w')) s = false
             /\ (fst (loadClientAuthState w) = Ok None ->
                 s = guestAt (browser w)
                 /\ storage (browser w') !! STORAGE_KEY
                    = Some (Json (encodeAuth s))))
  /\ (forall current response h w,
        rsessionHeader response = Some h ->
        trim h <> "" -> trim h <> sessionId current ->
        exists saved,
          fst (syncAuthStateFromResponse current response w) = Ok saved
          /\ let w' := snd (syncAuthStateFromResponse current response w) in
             sessionId saved = trim h
             /\ storage (browser w') !! STORAGE_KEY
                = Some (Json (encodeAuth saved))
             /\ expiredWithoutRefreshAt (now (browser w')) saved
                = expiredWithoutRefreshAt (now (browser w)) current).
Proof.
  split; [|split; [|split; [|split; [|split; [|split]]]]].
  - intros value w. exact (normalizeClientAuthState_total value w).
  - intros w. destruct (loadClientAuthState_quiet w) as (o & Ho & _).
    exists o. split; [exact Ho|]. intros s ->.
    destruct (loadClientAuthState w) as [r w'] eqn:E. cbn [fst snd] in *.
    subst r. exact (loadClientAuthState_valid _ _ _ E).
  - exact stored_expired_credential.
  - intros next w. rewrite persistState_run. cbn [fst snd].
    exists (fst (persisted next w)). split; [reflexivity|].
    destruct (persisted_spec next w)
      as (H1 & H2 & H3 & H4 & _ & _ & _ & _ & _ & H6).
    cbv zeta. repeat (split; [assumption|]).
    destruct (expiredWithoutRefreshAt (now (browser w)) next) eqn:E.
    + now apply persisted_guest.
    + now apply H6.
  - intros w. destruct (ensureAuthState_spec w) as (s & Hs & Hv & Ha & _ & _ & Hc).
    exists s. split; [exact Hs|]. cbv zeta.
    split; [exact Hv|]. split; [exact Ha|].
    intros current Hcur. specialize (Hc current Hcur).
    destruct (expiredWithoutRefreshAt (now (browser w)) current) eqn:He;
      [|exact Hc].
    split; [|exact (proj2 Hc)].
    pose proof (ensureAuthState_guest w current Hcur He) as Hg. congruence.
  - intros w. destruct (getOrCreateClientAuthState_spec w)
      as (s & Hs & Hv & _ & _ & _ & Hg).
    exists s. split; [exact Hs|]. cbv zeta. split; [exact Hv|].
    intros Hnone. split; [|exact (proj2 (Hg Hnone))].
    pose proof (getOrCreateClientAuthState_guest w Hnone) as Hg'. congruence.
  - intros current response h w Hh Hne Hother.
    rewrite (syncAuthStateFromResponse_adopts current response h w Hh Hne
               Hother).
    eexists. split; [reflexivity|]. cbv zeta. cbn [fst snd].
    split; [reflexivity|]. split; [apply lookup_insert_eq|reflexivity].
Qed.

End ExpiredCredential.

Section ExpiredCredentialRuns.
Import Fixtures.

Lemma expired_credential_witness :
  @AuthClient.expiredWithoutRefreshAt offline
    (now (browser world0)) lapsed = true
  /\ exists saved,
       fst (@AuthClient.persistState offline lapsed world0) = Ok saved
       /\ saved = Auth.mkAuth "sess_1000_0h12" "local_1h28" None Auth.local
                    "1000" None None
       /\ authRef (auth (snd (@AuthClient.persistState offline lapsed world0)))
          = Some saved.
Proof.
  assert (He : @AuthClient.expiredWithoutRefreshAt offline
                 (now (browser world0)) lapsed = true)
    by (vm_compute; reflexivity).
  split; [exact He|].
  destruct (proj1 (proj2 (proj2 (proj2
              (@expired_credential_degrades_to_guest offline)))) lapsed
              world0)
    as (saved & Hs & _ & Ha & _ & _ & Hg).
  exists saved. split; [exact Hs|].
  split; [|exact Ha]. rewrite Hg, He. vm_compute. reflexivity.
Defined.

(** C9 as stated fails: a request sent under an authenticated credential
    that is past its expiry and has no refresh credential gets a reply
    that names another session; [authFetch] stores and returns the
    credential under the new session id, still expired and still in
    authenticated mode. *)
Lemma expired_credential_counterexample :
  let renaming := scripted [mkResponse 200 (Some "sess_server") VNull] in
  let result :=
    @AuthClient.authFetch renaming sessionsUrl None (Some lapsed) world0 in
  let kept := Auth.mkAuth "sess_server" "token_x" None Auth.custom "1001"
                (Some "member") (Some "500") in
  @AuthClient.expiredWithoutRefreshAt renaming (now (browser world0)) lapsed
  = true
  /\ fst result = Ok (mkResponse 200 (Some "sess_server") VNull, kept)
  /\ storage (browser (snd result)) !! Auth.STORAGE_KEY
     = Some (Json (AuthClient.encodeAuth kept))
  /\ @AuthClient.expiredWithoutRefreshAt renaming
       (now (browser (snd result))) kept = true.
Proof.
  cbv zeta. split; [vm_compute; reflexivity|].
  split; [vm_compute; reflexivity|].
  split; [vm_compute; reflexivity|vm_compute; reflexivity].
Qed.

End ExpiredCredentialRuns.


(** * Further properties of the interview page *)

(** ** What the decoders of payloads let through *)

Section Decoders.

Lemma toStringArray_tidy v : Forall tidy (toStringArray v).
Proof.
  unfold toStringArray. destruct v; try constructor.
  apply Forall_forall. intros s Hs.
  apply list_elem_of_filter in Hs as [Hb Hs].
  apply list_elem_of_fmap in Hs as (raw & -> & _).
  now apply trim_tidy.
Qed.

Lemma toInterviewQuestion_wellFormed value fallbackId q :
  fallbackId <> "" ->
  toInterviewQuestion value fallbackId = Some q -> wellFormedQuestion q.
Proof.
  intros Hf. unfold toInterviewQuestion.
  destruct value as [| | | |s|items|fs]; cbn [isRecord negb];
    try discriminate.
  - destruct (isBlank (trim s)) eqn:E; [discriminate|]. intros [= <-].
    split; [now apply trim_tidy|]. split; [exact Hf|constructor].
  - destruct (isBlank (trim _)) eqn:E; [discriminate|]. intros [= <-].
    split; [now apply trim_tidy|].
    split; [now apply orStr_nonEmpty|apply toStringArray_tidy].
Qed.

Lemma omap_imap_Forall {A B} (P : B -> Prop) (f : nat -> A -> option B) l :
  (forall i x y, f i x = Some y -> P y) -> Forall P (omap id (imap f l)).
Proof.
  revert f. induction l as [|x l IH]; intros f Hf; [constructor|].
  rewrite imap_cons. cbn [omap list_omap id].
  destruct (f 0%nat x) as [y|] eqn:E.
  - constructor; [exact (Hf _ _ _ E)|]. apply IH. intros i. apply Hf.
  - apply IH. intros i. apply Hf.
Qed.

Lemma mapQuestions_wellFormed raw : Forall wellFormedQuestion (mapQuestions raw).
Proof.
  unfold mapQuestions. apply omap_imap_Forall. intros i x q.
  apply toInterviewQuestion_wellFormed. discriminate.
Qed.

(** X15: every question that [toQuestionList] reads from a payload has a
    text that is not empty and carries no white space around it, an id
    that is not empty, and tips of the same kind as the text. *)
Theorem toQuestionList_wellFormed payload :
  Forall wellFormedQuestion (toQuestionList payload).
Proof.
  unfold toQuestionList. destruct (negb (isRecord payload)); [constructor|].
  assert (Hfirst : forall cands mapped,
            firstQuestionList cands = Some mapped ->
            Forall wellFormedQuestion mapped).
  { induction cands as [|c cands IH]; intros mapped; [discriminate|].
    cbn [firstQuestionList].
    destruct c as [| | | | |raw|]; auto.
    pose proof (mapQuestions_wellFormed raw) as Hm.
    destruct (mapQuestions raw); [auto|]. now intros [= <-]. }
  destruct (firstQuestionList _) as [mapped|] eqn:E; [exact (Hfirst _ _ E)|].
  destruct (toInterviewQuestion _ "q-1") as [single|] eqn:E1; [|constructor].
  constructor; [|constructor].
  eapply toInterviewQuestion_wellFormed; [|exact E1]. discriminate.
Qed.

(** X16: a review that [toInterviewFeedback] reads from a payload has a
    summary that is not empty, and strengths and improvements that are
    not empty and carry no white space around them. *)
Theorem toInterviewFeedback_wellFormed payload fb :
  toInterviewFeedback payload = Some fb ->
  summary fb <> "" /\ Forall tidy (strengths fb)
  /\ Forall tidy (improvements fb).
Proof.
  unfold toInterviewFeedback. destruct (negb (isRecord payload)); [discriminate|].
  set (mf := if isRecord (prop payload "feedback") then _ else _).
  set (stren := toStringArray _). set (impr := toStringArray _).
  set (summ := trim _). set (sc := toSafeNumber _).
  assert (Hsome : Some (mkFeedback
                    (orStr summ "本次练习已完成，继续打磨表达会更好。")
                    stren impr sc) = Some fb ->
                  summary fb <> "" /\ Forall tidy (strengths fb)
                  /\ Forall tidy (improvements fb)).
  { intros [= <-]. cbn. split; [now apply orStr_nonEmpty|].
    split; apply toStringArray_tidy. }
  destruct summ; [destruct stren; [destruct impr; [destruct sc|]|]|];
    try exact Hsome.
  discriminate.
Qed.

End Decoders.

(** ** Starting a session *)

Section Starting.
Context `{Platform}.

(** X17: without position and job description [startSession] asks for
    them and does nothing else: no session is made, nothing is sent or
    stored, and the page is not left loading. *)
Theorem startSession_needs_job options w :
  isBlank (startJob options (page w)) = true ->
  let w' := after (startSession options) w in
  fst (startSession options w) = Ok tt
  /\ error (page w') = missingJobMessage
  /\ loading (page w') = false
  /\ session w' = session w /\ records (page w') = records (page w)
  /\ browser w' = browser w /\ auth w' = auth w.
Proof.
  intros Hjd.
  change (wp (startSession options) w (fun res w' =>
    res = Ok tt
    /\ error (page w') = missingJobMessage
    /\ loading (page w') = false
    /\ session w' = session w /\ records (page w') = records (page w)
    /\ browser w' = browser w /\ auth w' = auth w)).
  unfold startSession. wp_step. wp_page. wp_step. wp_page. wp_step.
  match goal with
  | |- wp (if ?b then _ else _) _ _ => destruct b
  end; [wp_step|wp_page]; (wp_step; wp_page; wp_step; wp_step;
    cbn [page withPage formPosition formJdText formResumeText pageContextKey];
    unfold startJob, startJdText, startPosition in *;
    cbn [page withPage formPosition formJdText formResumeText pageContextKey];
    rewrite Hjd).
  all: wp_step; wp_page; wp_page; cbn; auto 10.
Qed.

(** X18: with a position or job description [startSession] always leaves
    a current session, whatever the remote side does: it has at least one
    question, no answer and no review, an index that is not negative, and it
    is the selected record; a local session is active at index 0 with the
    fallback questions; the page is not left loading. *)
Theorem startSession_always_starts options w :
  isBlank (startJob options (page w)) = false ->
  let w' := after (startSession options) w in
  fst (startSession options w) = Ok tt
  /\ loading (page w') = false /\ error (page w') = ""
  /\ exists r,
       session w' = Some r
       /\ selectedRecordKey (page w') = key r
       /\ questions r <> [] /\ answers r = ∅ /\ feedback r = None
       /\ jdText r = startJob options (page w)
       /\ 0 <= currentIndex r
       /\ (mode r = remote -> sessionId r <> "")
       /\ (mode r = local ->
           status r = active /\ currentIndex r = 0
           /\ questions r = buildLocalQuestions (position r)).
Proof.
  intros Hjd.
  change (wp (startSession options) w (fun res w' =>
    res = Ok tt
    /\ loading (page w') = false /\ error (page w') = ""
    /\ exists r,
         session w' = Some r
         /\ selectedRecordKey (page w') = key r
         /\ questions r <> [] /\ answers r = ∅ /\ feedback r = None
         /\ jdText r = startJob options (page w)
         /\ 0 <= currentIndex r
         /\ (mode r = remote -> sessionId r <> "")
         /\ (mode r = local ->
             status r = active /\ currentIndex r = 0
             /\ questions r = buildLocalQuestions (position r)))).
  unfold startSession. wp_step. wp_page. wp_step. wp_page. wp_step.
  match goal with
  | |- wp (if ?b then _ else _) _ _ => destruct b
  end; [wp_step|wp_page]; (wp_step; wp_page; wp_step; wp_step;
    cbn [page withPage formPosition formJdText formResumeText pageContextKey];
    unfold startJob, startJdText, startPosition in *;
    cbn [page withPage formPosition formJdText formResumeText pageContextKey];
    rewrite Hjd).
  all: wp_step; wp_page; wp_step; unfold isoNow; wp_step; wp_step; wp_step;
    wp_step; wp_step; wp_step.
  all: apply wp_callInterviewApi; intros [data|] w1 Hp _.
  all: cbv beta iota zeta.
  all: try match goal with
       | |- wp (if isBlank ?x then _ else _) _ _ => destruct (isBlank x) eqn:Eid
       end.
  all: repeat first [wp_step | wp_page]; cbv beta iota.
  all: repeat first [wp_step | wp_page].
  all: (split; [reflexivity|]); cbn [page withPage loading error];
    (split; [reflexivity|]); (split; [now rewrite ?Hp|]).
  all: eexists; (split; [reflexivity|]); cbn.
  all: repeat split; auto; try discriminate; try lia.
  all: try (intros _; now apply isBlank_false).
  all: try (match goal with
            | |- context [toQuestionList ?b] => destruct (toQuestionList b)
            end; discriminate).
Qed.

End Starting.

(** ** The transitions of a session *)

Section MoreTransitions.
Context `{Platform}.

Lemma lifecycle_call_keeps_page cur verb w (Q : Result unit -> World -> Prop) :
  (forall w', page w' = page w -> Q (Ok tt) w') ->
  wp (if bool_decide (mode cur = remote)
      then tryCatch
             (callInterviewApi pageFetch (lifecycleCandidates cur verb)
                (sessionPayloadOf cur) ;;; ret tt)
             (ret tt)
      else ret tt) w Q.
Proof.
  intros HQ. destruct (bool_decide (mode cur = remote)).
  - wp_step. wp_step. apply wp_callInterviewApi.
    intros [data|] w1 Hp _; wp_step; now apply HQ.
  - wp_step. now apply HQ.
Qed.

Lemma pauseSession_run w cur :
  session w = Some cur -> status cur = active ->
  fst (perform OpPause w) = Ok tt
  /\ exists nowIso,
       session (after (perform OpPause) w)
       = Some (stamp (withStatus cur paused) nowIso).
Proof.
  intros Hs Hst. unfold session in Hs.
  change (wp (perform OpPause) w (fun res w' =>
    res = Ok tt
    /\ exists nowIso,
         session w' = Some (stamp (withStatus cur paused) nowIso))).
  unfold perform, pauseSession. wp_step. wp_step. rewrite Hs, Hst.
  rewrite bool_decide_eq_true_2 by reflexivity. cbn [negb].
  wp_step. apply lifecycle_call_keeps_page. intros w1 Hp.
  wp_step.
  eapply wp_applySessionPatch; [unfold session; rewrite Hp; exact Hs|].
  wp_page. wp_page. split; [reflexivity|]. eexists. reflexivity.
Qed.

Lemma resumeSession_run w cur :
  session w = Some cur -> status cur = paused ->
  fst (perform OpResume w) = Ok tt
  /\ exists nowIso,
       session (after (perform OpResume) w)
       = Some (stamp (withStatus cur active) nowIso).
Proof.
  intros Hs Hst. unfold session in Hs.
  change (wp (perform OpResume) w (fun res w' =>
    res = Ok tt
    /\ exists nowIso,
         session w' = Some (stamp (withStatus cur active) nowIso))).
  unfold perform, resumeSession. wp_step. wp_step. rewrite Hs, Hst.
  rewrite bool_decide_eq_true_2 by reflexivity. cbn [negb].
  wp_step. apply lifecycle_call_keeps_page. intros w1 Hp.
  wp_step.
  eapply wp_applySessionPatch; [unfold session; rewrite Hp; exact Hs|].
  wp_page. wp_page. split; [reflexivity|]. eexists. reflexivity.
Qed.

(** X19: pausing an active session and resuming it gives a paused and
    then an active session again, in the mode it had, whatever the remote
    side does: a failed pause or resume call does not turn the session
    local, and questions, answers, index and review are what they were. *)
Theorem pause_then_resume w cur :
  session w = Some cur -> status cur = active ->
  let w1 := after (perform OpPause) w in
  let w2 := after (perform OpResume) w1 in
  exists r1 r2,
    session w1 = Some r1 /\ status r1 = paused
    /\ session w2 = Some r2 /\ status r2 = active
    /\ mode r1 = mode cur /\ mode r2 = mode cur
    /\ questions r2 = questions cur /\ answers r2 = answers cur
    /\ currentIndex r2 = currentIndex cur /\ feedback r2 = feedback cur.
Proof.
  intros Hs Hst. cbv zeta.
  destruct (pauseSession_run w cur Hs Hst) as (_ & iso1 & H1).
  destruct (resumeSession_run _ _ H1 eq_refl) as (_ & iso2 & H2).
  do 2 eexists. split; [exact H1|]. split; [reflexivity|].
  split; [exact H2|]. cbn. auto 10.
Qed.


(** X21: an answer that is not blank, submitted on an active session with
    a current question, is always stored under the id of that question,
    trimmed, and the answer box is emptied, whatever the remote side does;
    when every remote call fails a remote session turns local and keeps its
    questions, index and status. *)
Theorem submitAnswer_records_answer w cur q text :
  session w = Some cur -> status cur = active ->
  currentQuestion (Some cur) = Some q -> isBlank (trim text) = false ->
  let w' := after (perform (OpSubmitAnswer text)) w in
  fst (perform (OpSubmitAnswer text) w) = Ok tt
  /\ answerInput (page w') = "" /\ error (page w') = ""
  /\ exists r,
       session w' = Some r
       /\ answers r = <[qid q := trim text]> (answers cur)
       /\ answeredCount r = Z.of_nat (size (answers r))
       /\ (remoteFails ->
           mode r = local /\ status r = active
           /\ questions r = questions cur
           /\ currentIndex r = currentIndex cur).
Proof.
  intros Hs Hst Hq Hb. unfold session in Hs.
  change (wp (perform (OpSubmitAnswer text)) w (fun res w' =>
    res = Ok tt
    /\ answerInput (page w') = "" /\ error (page w') = ""
    /\ exists r,
         session w' = Some r
         /\ answers r = <[qid q := trim text]> (answers cur)
         /\ answeredCount r = Z.of_nat (size (answers r))
         /\ (remoteFails ->
             mode r = local /\ status r = active
             /\ questions r = questions cur
             /\ currentIndex r = currentIndex cur))).
  unfold perform. wp_step. wp_page. unfold submitAnswer. wp_step. wp_step.
  cbn [page withPage currentSession answerInput]. rewrite Hs, Hq, Hst, Hb.
  rewrite bool_decide_eq_true_2 by reflexivity. cbn [negb].
  wp_step. wp_page. wp_step. wp_page. wp_step.
  eapply wp_applySessionPatch; [exact Hs|]. wp_page.
  destruct (mode cur) eqn:Hm.
  - rewrite bool_decide_eq_true_2 by reflexivity. cbn [negb].
    wp_step. wp_step. apply wp_callInterviewApi.
    intros [data|] w1 Hp Hr.
    + wp_step. wp_step. cbv beta iota zeta. wp_step.
      eapply wp_applySessionPatch; [unfold session; rewrite Hp; reflexivity|].
      wp_page. wp_page.
      split; [reflexivity|]. cbn [page withPage answerInput error].
      rewrite Hp. cbn. split; [reflexivity|]. split; [reflexivity|].
      eexists. split; [reflexivity|]. cbn.
      split; [reflexivity|]. split; [reflexivity|].
      intros Hu. destruct Hr as [Hr|Hr]; [discriminate|contradiction].
    + wp_step.
      eapply wp_applySessionPatch; [unfold session; rewrite Hp; reflexivity|].
      wp_page. wp_page.
      split; [reflexivity|]. cbn [page withPage answerInput error].
      rewrite Hp. cbn. split; [reflexivity|]. split; [reflexivity|].
      eexists. split; [reflexivity|]. cbn. rewrite Hst.
      repeat split; reflexivity.
  - rewrite bool_decide_eq_false_2 by discriminate. cbn [negb].
    wp_page. cbn. split; [reflexivity|]. split; [reflexivity|].
    split; [reflexivity|].
    eexists. split; [reflexivity|]. cbn. rewrite Hst, Hm.
    repeat split; reflexivity.
Qed.

(** X22: out of state the transitions are inert.  On a session that is
    not active, pause changes nothing at all, and advance only sets its
    message: the session, the browser (no request) and the credential stay;
    on a session that is not paused, resume changes nothing at all. *)
Theorem out_of_state_transitions_are_inert w cur :
  session w = Some cur ->
  (status cur <> active ->
   perform OpPause w = (Ok tt, w)
   /\ let w' := after (perform OpAdvance) w in
      session w' = Some cur /\ browser w' = browser w /\ auth w' = auth w
      /\ error (page w') = advanceRejectedMessage)
  /\ (status cur <> paused -> perform OpResume w = (Ok tt, w)).
Proof.
  intros Hs. unfold session in Hs. split.
  - intros Hst. split.
    + unfold perform, pauseSession. cbv [bind get]. rewrite Hs.
      now rewrite bool_decide_eq_false_2 by exact Hst.
    + change (wp (perform OpAdvance) w (fun _ w' =>
        session w' = Some cur /\ browser w' = browser w /\ auth w' = auth w
        /\ error (page w') = advanceRejectedMessage)).
      unfold perform, nextQuestion. wp_step. wp_step. rewrite Hs.
      rewrite bool_decide_eq_false_2 by exact Hst. cbn [negb].
      wp_page. cbn. auto.
  - intros Hst. unfold perform, resumeSession. cbv [bind get]. rewrite Hs.
    now rewrite bool_decide_eq_false_2 by exact Hst.
Qed.

Lemma continues_refl cur : continues cur cur.
Proof. repeat split; auto; try reflexivity. Qed.

Lemma adoptQuestions_prefix prev maybeNext :
  questions prev `prefix_of` adoptQuestions prev maybeNext.
Proof.
  unfold adoptQuestions. destruct maybeNext as [nq|]; [|reflexivity].
  destruct (negb _); [|reflexivity]. now apply prefix_app_r.
Qed.

Lemma Updater_continues cur u nowIso r :
  Updater u -> continues cur r -> continues cur (stamp (u r) nowIso).
Proof.
  intros Hu (H1 & H2 & H3 & H4 & H5 & H6 & H7 & H8 & Hq & Ha & Hc & Hf).
  destruct Hu; unfold continues; cbn [stamp key sessionId createdAt position
    jdText resumeText resumeContextKey remoteNumericId questions answers
    questionCount feedback].
  - cbn. repeat split; auto; try lia.
    rewrite dom_insert. set_solver.
  - cbn. repeat split; auto; try lia.
    etransitivity; [exact Hq|apply adoptQuestions_prefix].
  - cbn. repeat split; auto; try lia.
    etransitivity; [exact Hq|apply adoptQuestions_prefix].
  - cbn. repeat split; auto; try lia.
  - unfold advanceLocally. destruct (_ <=? _); cbn; repeat split; auto; lia.
  - cbn. repeat split; auto; try lia.
  - cbn. repeat split; auto; try lia.
Qed.

(** X23: submitAnswer, advance, pause, resume and finish, whatever the
    remote side does, leave a session with the same key, session id,
    creation time, position, job and resume texts, context and remote id;
    no question is removed or reordered, no answered question loses its
    answer entry, the question count does not shrink and a review is not
    removed. *)
Theorem transitions_continue_the_session op w cur :
  session w = Some cur ->
  exists r, session (after (perform op) w) = Some r /\ continues cur r.
Proof.
  intros Hs.
  destruct (steady_perform op cur w) as [r [Hr Hp]].
  - exists cur. split; [exact Hs|constructor].
  - exists r. split; [exact Hr|].
    clear Hr Hs. induction Hp; [apply continues_refl|].
    now apply Updater_continues.
Qed.

End MoreTransitions.

(** ** Loading a stored record *)

Section Loading.
Context `{Platform}.
Import InterviewStore.

Lemma hydratedFrom_refl record : hydratedFrom record record.
Proof. unfold hydratedFrom. repeat split; auto. Qed.

Lemma keepsPage_hydrateRemoteRecord record :
  keepsPage (hydrateRemoteRecord record).
Proof.
  unfold hydrateRemoteRecord.
  destruct (remoteNumericId record) as [n|]; [|keeps].
  destruct (n =? 0); [keeps|].
  apply keepsPage_bind; [apply keepsPage_pageFetch|]. keeps.
Qed.

Lemma hydrateRemoteRecord_yields record :
  yields (hydratedFrom record) (hydrateRemoteRecord record)
  /\ (remoteFails -> yields (fun h => h = record) (hydrateRemoteRecord record)).
Proof.
  unfold hydrateRemoteRecord.
  destruct (remoteNumericId record) as [n|] eqn:Eid.
  2:{ split; [|intros _]; apply yields_ret;
        [apply hydratedFrom_refl|reflexivity]. }
  destruct (n =? 0).
  { split; [|intros _]; apply yields_ret;
      [apply hydratedFrom_refl|reflexivity]. }
  split.
  - apply yields_then. intros response.
    destruct (negb (rok response));
      apply yields_ret; [apply hydratedFrom_refl|].
    unfold hydratedFrom. cbn. rewrite Eid.
    repeat split; auto.
    + intros Hq. destruct (toInterviewQuestion _ _);
        destruct (questions record); congruence.
    + intros Hf. destruct (toInterviewFeedback _); [discriminate|exact Hf].
    + right. lia.
  - intros Hu.
    eapply yields_bind; [apply (apiFetch_fails _ _ _ _ Hu)|].
    intros response Hr. cbv beta. rewrite Hr. now apply yields_ret.
Qed.

Lemma hydrateRemoteRecord_direct record w :
  ((remoteNumericId record = None \/ remoteNumericId record = Some 0)
   /\ hydrateRemoteRecord record w = (Ok record, w))
  \/ ~ (remoteNumericId record = None \/ remoteNumericId record = Some 0).
Proof.
  unfold hydrateRemoteRecord.
  destruct (remoteNumericId record) as [n|]; [|left; auto].
  destruct (n =? 0) eqn:En.
  - apply Z.eqb_eq in En. subst n. left. auto.
  - apply Z.eqb_neq in En. right. intros [Hx|Hx]; congruence.
Qed.

Lemma wp_hydrateRemoteRecord record w
    (Q : Result InterviewSessionRecord -> World -> Prop) :
  (forall w', page w' = page w -> Q Throw w') ->
  (forall h w', page w' = page w -> hydratedFrom record h ->
                (remoteFails -> h = record) -> Q (Ok h) w') ->
  wp (hydrateRemoteRecord record) w Q.
Proof.
  intros Hthrow Hok. unfold wp.
  pose proof (keepsPage_hydrateRemoteRecord record w) as Hp.
  destruct (hydrateRemoteRecord_yields record) as [Hy Hf].
  specialize (Hy w).
  destruct (hydrateRemoteRecord record w) as [[h|] w'] eqn:E;
    cbn [fst snd] in *; [|now apply Hthrow].
  apply Hok; auto. intros Hu. specialize (Hf Hu w). now rewrite E in Hf.
Qed.


End Loading.

(** ** The session store *)

Section Store.
Context `{Platform}.
Import InterviewStore.

Lemma keptBy_refl r : keptBy r r.
Proof. unfold keptBy. auto. Qed.

Lemma mergeRemoteItem_keeps ctx merged record i old :
  merged !! i = Some old ->
  exists new, mergeRemoteItem ctx merged record !! i = Some new
              /\ keptBy old new.
Proof.
  intros Hi. unfold mergeRemoteItem.
  destruct (findIndex _ merged) as [j|].
  - destruct (merged !! j) as [existing|] eqn:Ej.
    + destruct (decide (i = j)) as [->|Hne].
      * rewrite list_lookup_insert_eq by (now apply lookup_lt_Some in Ej).
        eexists. split; [reflexivity|].
        assert (existing = old) as -> by congruence.
        unfold keptBy. cbn. split; [reflexivity|]. split; [|split].
        -- intros Hq. now destruct (questions old).
        -- intros Hf. now destruct (feedback old).
        -- intros k -> Hk.
           now rewrite (proj2 (isBlank_false k) Hk).
      * rewrite list_lookup_insert_ne by congruence.
        exists old. split; [exact Hi|apply keptBy_refl].
    + exists old. split; [exact Hi|apply keptBy_refl].
  - exists old. split; [|apply keptBy_refl].
    rewrite lookup_app_l; [exact Hi|]. now apply lookup_lt_Some in Hi.
Qed.

Lemma keptBy_trans a b c : keptBy a b -> keptBy b c -> keptBy a c.
Proof.
  intros (K1 & Q1 & F1 & C1) (K2 & Q2 & F2 & C2). unfold keptBy.
  split; [congruence|]. split; [|split].
  - intros Hq. specialize (Q1 Hq). rewrite <- Q1. apply Q2. congruence.
  - intros Hf. specialize (F1 Hf). rewrite <- F1. apply F2. congruence.
  - intros k Hk Hne. apply C2; auto.
Qed.

(** X25: the reconciliation of the store with the remote history keeps
    at most 50 records, and each of the first 50 stored records keeps its
    place and its key, the questions and the review it has, and its context
    key when that is not empty. *)
Theorem mergeRemoteSessions_keeps_records ctx prev items :
  (length (mergeRemoteSessions ctx prev items) <= 50)%nat
  /\ forall i old,
       (i < 50)%nat -> prev !! i = Some old ->
       exists new, mergeRemoteSessions ctx prev items !! i = Some new
                   /\ keptBy old new.
Proof.
  unfold mergeRemoteSessions, cap50. split.
  - rewrite length_take. lia.
  - intros i old Hi Hold. rewrite lookup_take_lt by exact Hi.
    revert prev old Hold.
    induction items as [|record items IH]; intros prev old Hold;
      cbn [foldl].
    + exists old. split; [exact Hold|apply keptBy_refl].
    + destruct (mergeRemoteItem_keeps ctx prev record i old Hold)
        as (mid & Hmid & Hk1).
      destruct (IH _ _ Hmid) as (new & Hnew & Hk2).
      exists new. split; [exact Hnew|]. exact (keptBy_trans _ _ _ Hk1 Hk2).
Qed.

Lemma omap_strings (l : list (string * string)) :
  omap (fun kv : string * jsval =>
          match snd kv with
          | VStr s => Some (fst kv, s)
          | _ => None
          end) (prod_map id VStr <$> l) = l.
Proof.
  induction l as [|[k v] l IH]; [reflexivity|].
  cbn. now rewrite IH.
Qed.

Lemma stringEntries_encode (a : gmap string string) :
  stringEntries (VObj (map_to_list (VStr <$> a))) = a.
Proof.
  unfold stringEntries, entries.
  rewrite map_to_list_fmap, omap_strings. apply list_to_map_to_list.
Qed.

Lemma normalizeRecord_encodeRecord r :
  key r <> "" -> sessionId r <> "" ->
  exists r', normalizeRecord (encodeRecord r) = Some r' /\ sameCore r r'.
Proof.
  intros Hk Hs. unfold normalizeRecord, encodeRecord.
  destruct (resumeContextKey r) as [ctx|] eqn:Ectx;
    destruct (remoteNumericId r) as [n|] eqn:Eid;
    cbn [isRecord negb optField fmap option_fmap option_map app prop assoc
         String.eqb Ascii.eqb Bool.eqb toSafeString toSafeNumber];
    rewrite (proj2 (isBlank_false _) Hk), (proj2 (isBlank_false _) Hs);
    cbn [orb]; rewrite stringEntries_encode;
    (eexists; split; [reflexivity|]);
    unfold sameCore; cbn; rewrite ?Ectx, ?Eid;
    repeat split;
    try (now destruct (mode r)); try (now destruct (status r)).
Qed.


End Store.

(** ** The remote history and the interview API *)

Section History.
Context `{Platform}.

Lemma wp_pageFetch input init w (Q : Result Response -> World -> Prop) :
  (forall w', page w' = page w -> Q Throw w') ->
  (forall response w',
     page w' = page w -> (remoteFails -> rok response = false) ->
     Q (Ok response) w') ->
  wp (pageFetch input init) w Q.
Proof.
  intros Hthrow Hok. unfold wp.
  pose proof (keepsPage_pageFetch input init w) as Hp.
  destruct (pageFetch input init w) as [[response|] w'] eqn:E;
    cbn [fst snd] in *; [|now apply Hthrow].
  apply Hok; [exact Hp|]. intros Hu.
  pose proof (apiFetch_fails (AuthClient.mkOptions (Some true) None)
                API_BASE_URL input init Hu w) as Hr.
  change (match fst (pageFetch input init w) with
          | Ok a => rok a = false
          | Throw => True
          end) in Hr.
  now rewrite E in Hr.
Qed.

(** X27: [syncRemoteSessions] never throws and touches nothing of the
    page but the store and the notice: the current session, the selection,
    the answer box and the error stay; the store afterwards holds what it
    held or at most 50 records; when every remote call fails the page state
    is what it was. *)
Theorem syncRemoteSessions_keeps_session w :
  let w' := after syncRemoteSessions w in
  fst (syncRemoteSessions w) = Ok tt
  /\ session w' = session w
  /\ selectedRecordKey (page w') = selectedRecordKey (page w)
  /\ answerInput (page w') = answerInput (page w)
  /\ error (page w') = error (page w)
  /\ (records (page w') = records (page w)
      \/ (length (records (page w')) <= 50)%nat)
  /\ (remoteFails -> page w' = page w).
Proof.
  change (wp syncRemoteSessions w (fun res w' =>
    res = Ok tt
    /\ session w' = session w
    /\ selectedRecordKey (page w') = selectedRecordKey (page w)
    /\ answerInput (page w') = answerInput (page w)
    /\ error (page w') = error (page w)
    /\ (records (page w') = records (page w)
        \/ (length (records (page w')) <= 50)%nat)
    /\ (remoteFails -> page w' = page w))).
  assert (Hsame : forall w' : World, page w' = page w ->
            session w' = session w
            /\ selectedRecordKey (page w') = selectedRecordKey (page w)
            /\ answerInput (page w') = answerInput (page w)
            /\ error (page w') = error (page w)
            /\ (records (page w') = records (page w)
                \/ (length (records (page w')) <= 50)%nat)
            /\ (remoteFails -> page w' = page w))
    by (intros w' Hp; unfold session; rewrite Hp; auto 10).
  unfold syncRemoteSessions. wp_step. wp_step. apply wp_pageFetch.
  - intros w1 Hp. wp_step. split; [reflexivity|]. now apply Hsame.
  - intros response w1 Hp Hf.
    destruct (negb (rok response)) eqn:Eok.
    + wp_step. split; [reflexivity|]. now apply Hsame.
    + unfold isoNow. do 6 wp_step. cbv beta iota zeta.
      match goal with
      | |- wp (match ?l with [] => _ | _ => _ end) _ _ => destruct l
      end.
      * wp_step. split; [reflexivity|]. now apply Hsame.
      * wp_step. wp_page. wp_page. split; [reflexivity|].
        unfold session. cbn. rewrite Hp.
        repeat split; auto.
        -- right. unfold mergeRemoteSessions, cap50. rewrite length_take. lia.
        -- intros Hu. rewrite (Hf Hu) in Eok. discriminate.
Qed.

(** X28: what [callInterviewApi] returns is the data of a reply that is
    ok, received for one of its candidates; with no candidate it throws. *)
Theorem callInterviewApi_returns_ok_reply fetcher candidates payload :
  (forall w data,
     fst (callInterviewApi fetcher candidates payload w) = Ok data ->
     exists candidate init w0 response,
       In candidate candidates
       /\ AuthClient.imethod init = cmethod candidate
       /\ fst (fetcher (API_BASE_URL +:+ path candidate) (Some init) w0)
          = Ok response
       /\ rok response = true /\ data = rjson response)
  /\ (candidates = [] ->
      forall w, fst (callInterviewApi fetcher candidates payload w) = Throw).
Proof.
  split; [|now intros ->].
  induction candidates as [|c rest IH]; intros w data;
    cbn [callInterviewApi]; [discriminate|].
  assert (Hrest : forall w1,
            fst (callInterviewApi fetcher rest payload w1) = Ok data ->
            exists candidate init w0 response,
              In candidate (c :: rest)
              /\ AuthClient.imethod init = cmethod candidate
              /\ fst (fetcher (API_BASE_URL +:+ path candidate) (Some init) w0)
                 = Ok response
              /\ rok response = true /\ data = rjson response).
  { intros w1 H1. destruct (IH w1 data H1) as (c' & i & w0 & r & Hin & Hrest).
    exists c', i, w0, r. split; [now right|exact Hrest]. }
  cbv [bind attempt].
  match goal with
  | |- context [fetcher ?u (Some ?i) w] =>
      destruct (fetcher u (Some i) w) as [[response|] w1] eqn:E;
      [destruct (rok response) eqn:Eok|]; cbn [fst snd]; try apply Hrest;
      intros [= <-]; exists c, i, w, response
  end.
  rewrite E. repeat split; auto. now left.
Qed.

End History.

(** ** The summary page reads what the interview page stores *)

Section SummaryReads.
Import InterviewStore.

Lemma normalizeSession_encodeRecord r :
  tidy (key r) -> tidy (sessionId r) ->
  exists item,
    SummaryPage.normalizeSession (encodeRecord r) = Some item
    /\ shownAs r item.
Proof.
  intros [Hk1 Hk2] [Hs1 Hs2].
  unfold SummaryPage.normalizeSession, encodeRecord.
  destruct (resumeContextKey r) as [ctx|] eqn:Ectx;
    destruct (remoteNumericId r) as [n|] eqn:Eid;
    destruct (feedback r) as [f|] eqn:Ef;
    cbn [isRecord negb optField fmap option_fmap option_map app prop assoc
         String.eqb Ascii.eqb Bool.eqb toSafeString SummaryPage.toSafeNumber
         encodeFeedback];
    rewrite Hk2, Hs2,
      (proj2 (isBlank_false _) Hk1), (proj2 (isBlank_false _) Hs1);
    cbn [orb]; (eexists; split; [reflexivity|]);
    unfold shownAs; cbn; rewrite ?Ectx, ?Ef; cbn;
    repeat split;
    try (now destruct (mode r)); try (now destruct (status r));
    try (eexists; split; reflexivity);
    intros contextKey; unfold SummaryPage.offered; cbn;
    destruct (isBlank contextKey || _); cbn; try reflexivity;
    now destruct (status r).
Qed.

(** X29: the summary page reads the records that the interview page
    saved, the first 50 of them and in their order, and shows each with the
    key, session id, status, mode, position, times, counts and context it
    was saved with, and with a review of the same summary exactly when the
    record has one; its list for a context offers the record exactly when
    the record is of that context, or no context is given, and has a review
    or is finished; all this provided key and session id are not blank and
    carry no white space around them. *)
Theorem summary_page_reads_stored_records l w :
  Forall (fun r => tidy (key r) /\ tidy (sessionId r)) l ->
  exists items,
    fst (SummaryPage.loadSessionsFromStorage (after (saveSessionRecords l) w))
    = Ok items
    /\ Forall2 shownAs (take 50 l) items.
Proof.
  intros Hl.
  assert (Hall : forall l0,
            Forall (fun r => tidy (key r) /\ tidy (sessionId r)) l0 ->
            Forall2 shownAs l0
              (omap SummaryPage.normalizeSession (encodeRecord <$> l0))).
  { induction 1 as [|r l0 [Hk Hs] _ IH]; [constructor|].
    destruct (normalizeSession_encodeRecord r Hk Hs) as (item & Hi & Hc).
    rewrite fmap_cons. cbn [omap list_omap]. rewrite Hi. now constructor. }
  unfold SummaryPage.loadSessionsFromStorage, saveSessionRecords, after,
    AuthClient.setStorage.
  cbv [bind get modify]. cbn [snd browser withBrowser storage].
  change SummaryPage.STORAGE_KEY with SESSION_STORAGE_KEY.
  rewrite lookup_insert_eq. cbn [fst].
  eexists. split; [reflexivity|].
  specialize (Hall (take 50 l) (Forall_take _ _ _ Hl)).
  unfold cap50 in *.
  set (loaded := omap SummaryPage.normalizeSession
                   (encodeRecord <$> take 50 l)) in *.
  rewrite (take_ge loaded); [exact Hall|].
  apply Forall2_length in Hall. rewrite <- Hall, length_take. lia.
Qed.

End SummaryReads.

(** * Runs of the further properties on the fixtures *)

Section FurtherRuns.
Import Fixtures FurtherFixtures.

Lemma toSafeReturnTo_same_origin_witness :
  sameOriginPath "/interview?sessionId=42"
  /\ AuthClient.toSafeReturnTo "/interview?sessionId=42"
     = "/interview?sessionId=42".
Proof.
  assert (Hp : sameOriginPath "/interview?sessionId=42")
    by (split; reflexivity).
  split; [exact Hp|].
  exact (proj2 (proj2 (toSafeReturnTo_same_origin "/interview?sessionId=42"))
           Hp).
Defined.

Lemma toAbsoluteInput_absolute_witness :
  AuthClient.isHttpUrl "http://127.0.0.1:8000" = true
  /\ AuthClient.isHttpUrl "api/interview/sessions" = false
  /\ String.prefix "/" "api/interview/sessions" = false
  /\ AuthClient.isHttpUrl
       (AuthClient.toAbsoluteInput "http://127.0.0.1:8000"
          "api/interview/sessions") = true
  /\ AuthClient.toAbsoluteInput "http://127.0.0.1:8000"
       ("/" +:+ "api/interview/sessions")
     = AuthClient.toAbsoluteInput "http://127.0.0.1:8000"
         "api/interview/sessions".
Proof.
  assert (Hb : AuthClient.isHttpUrl "http://127.0.0.1:8000" = true)
    by reflexivity.
  split; [exact Hb|]. split; [reflexivity|]. split; [reflexivity|].
  destruct (toAbsoluteInput_absolute "http://127.0.0.1:8000"
              "api/interview/sessions" Hb) as (H1 & _ & H3).
  split; [exact H1|]. exact (H3 eq_refl eq_refl).
Defined.

Lemma toInterviewFeedback_wellFormed_witness :
  exists fb,
    toInterviewFeedback reviewReply = Some fb
    /\ summary fb <> "" /\ Forall tidy (strengths fb).
Proof.
  eexists. split; [vm_compute; reflexivity|].
  destruct (toInterviewFeedback_wellFormed reviewReply _ eq_refl)
    as (Hs & Hst & _).
  split; [exact Hs|exact Hst].
Defined.

Lemma extracted_fields_tidy_witness :
  AuthClient.extractTokenFromPayload tokenReply = Some "fresh"
  /\ tidy "fresh".
Proof.
  assert (He : AuthClient.extractTokenFromPayload tokenReply = Some "fresh")
    by (vm_compute; reflexivity).
  split; [exact He|].
  exact (proj1 (extracted_fields_tidy tokenReply) "fresh" He).
Defined.


Lemma login_authenticates_witness :
  AuthHookOps.trimmedOpt (AuthHookOps.token tokenLogin) = Some "secret"
  /\ AuthHookOps.trimmedOpt (AuthHookOps.expiresAt tokenLogin) = None
  /\ AuthHookOps.expiresInHours tokenLogin = None
  /\ exists s,
       fst (@AuthHookOps.login offline tokenLogin world0) = Ok s
       /\ Auth.accessToken s = "secret" /\ Auth.mode s = Auth.custom.
Proof.
  assert (Ht : AuthHookOps.trimmedOpt (AuthHookOps.token tokenLogin)
               = Some "secret") by (vm_compute; reflexivity).
  split; [exact Ht|]. split; [reflexivity|]. split; [reflexivity|].
  destruct (@login_authenticates offline tokenLogin world0 "secret" Ht
              eq_refl eq_refl) as (s & Hs & Ha & Hm & _).
  exists s. auto.
Defined.

Lemma login_expired_is_guest_witness :
  AuthHookOps.trimmedOpt (AuthHookOps.expiresAt expiredLogin) = Some "500"
  /\ @parseDate offline "500" = Some 500
  /\ 500 <= now (browser world0)
  /\ AuthHookOps.trimmedOpt (AuthHookOps.refreshToken expiredLogin) = None
  /\ exists g,
       fst (@AuthHookOps.login offline expiredLogin world0) = Ok g
       /\ @freshGuest offline g.
Proof.
  assert (He : AuthHookOps.trimmedOpt (AuthHookOps.expiresAt expiredLogin)
               = Some "500") by (vm_compute; reflexivity).
  assert (Hp : @parseDate offline "500" = Some 500)
    by (vm_compute; reflexivity).
  assert (Hn : 500 <= now (browser world0)) by (vm_compute; discriminate).
  split; [exact He|]. split; [exact Hp|]. split; [exact Hn|].
  split; [reflexivity|].
  destruct (@login_expired_is_guest offline expiredLogin world0 "500" 500
              He Hp Hn eq_refl) as (g & Hg & Hf & _).
  exists g. auto.
Defined.

Lemma applyAccessToken_keeps_session_witness :
  authRef (auth wMember) = Some member
  /\ @AuthClient.isAuthExpiredAt offline (now (browser wMember)) member = false
  /\ isBlank (trim " abc ") = false
  /\ exists s,
       fst (@AuthHookOps.applyAccessToken offline " abc " wMember) = Ok s
       /\ Auth.accessToken s = "abc"
       /\ Auth.sessionId s = Auth.sessionId member.
Proof.
  split; [reflexivity|]. split; [reflexivity|]. split; [reflexivity|].
  destruct (@applyAccessToken_keeps_session offline wMember member " abc "
              eq_refl (or_introl eq_refl) eq_refl)
    as (s & Hs & Ha & _ & Hid & _).
  exists s. split; [exact Hs|]. split; [exact Ha|exact Hid].
Defined.

Lemma apiFetch_redirects_safely_witness :
  replacedWith (browser wMember) = None
  /\ exists target reason,
       replacedWith
         (browser (snd (@AuthClient.apiFetch always401 redirecting
                          "http://127.0.0.1:8000" sessionsUrl None wMember)))
       = Some (target, reason)
       /\ sameOriginPath target.
Proof.
  split; [reflexivity|].
  exists "/interview", Auth.refresh_failed.
  assert (Hr : replacedWith
                 (browser (snd (@AuthClient.apiFetch always401 redirecting
                                  "http://127.0.0.1:8000" sessionsUrl None
                                  wMember)))
               = Some ("/interview", Auth.refresh_failed))
    by (vm_compute; reflexivity).
  split; [exact Hr|].
  exact (proj2 (@apiFetch_redirects_safely always401 redirecting
                  "http://127.0.0.1:8000" sessionsUrl None wMember)
           "/interview" Auth.refresh_failed Hr eq_refl).
Defined.


Lemma always404_notFoundEverywhere : @notFoundEverywhere always404.
Proof.
  intros log t rq. eexists. split; [reflexivity|]. now left.
Defined.

Lemma refresh_gives_up_on_missing_endpoints_witness :
  AuthClient.hasRefreshToken member = true
  /\ @notFoundEverywhere always404
  /\ fst (@AuthClient.tryAutoRefreshAuth always404 "http://127.0.0.1:8000"
            member wMember) = Ok None
  /\ length (netlog (browser (snd (@AuthClient.tryAutoRefreshAuth always404
                                     "http://127.0.0.1:8000" member wMember))))
     = 4%nat.
Proof.
  split; [reflexivity|]. split; [exact always404_notFoundEverywhere|].
  destruct (@refresh_gives_up_on_missing_endpoints always404
              "http://127.0.0.1:8000" member wMember eq_refl
              always404_notFoundEverywhere) as [Hr Hl].
  split; [exact Hr|]. now rewrite Hl.
Defined.

Lemma member_wellFormed : wellFormedAuth member.
Proof.
  split; [split; [discriminate|reflexivity]|].
  split; [split; [discriminate|reflexivity]|].
  split; [|split].
  - intros r [= <-]. split; [discriminate|reflexivity].
  - intros u [= <-]. split; [discriminate|reflexivity].
  - intros e He. discriminate He.
Defined.

Lemma saved_credential_is_loaded_back_witness :
  wellFormedAuth member
  /\ Auth.updatedAt member <> ""
  /\ @AuthClient.expiredWithoutRefreshAt offline (now (browser world0)) member
     = false
  /\ fst (@AuthClient.loadClientAuthState offline
            (snd (AuthClient.saveClientAuthState member world0)))
     = Ok (Some member).
Proof.
  assert (Hu : Auth.updatedAt member <> "") by discriminate.
  split; [exact member_wellFormed|]. split; [exact Hu|].
  split; [reflexivity|].
  now rewrite (@saved_credential_is_loaded_back offline member world0
                 member_wellFormed Hu eq_refl).
Defined.

Lemma loaded_credential_is_wellFormed_witness :
  @AuthClient.normalizeClientAuthState offline
    (AuthClient.encodeAuth member) world0 = (Ok (Some member), world0)
  /\ wellFormedAuth member.
Proof.
  assert (Hn : @AuthClient.normalizeClientAuthState offline
                 (AuthClient.encodeAuth member) world0
               = (Ok (Some member), world0)) by (vm_compute; reflexivity).
  split; [exact Hn|].
  exact (proj1 (@loaded_credential_is_wellFormed offline) _ _ _ _ Hn).
Defined.

Lemma startSession_needs_job_witness :
  isBlank (startJob None (page world0)) = true
  /\ error (page (after (@startSession offline None) world0))
     = missingJobMessage
  /\ session (after (@startSession offline None) world0) = None.
Proof.
  split; [reflexivity|].
  destruct (@startSession_needs_job offline None world0 eq_refl)
    as (_ & He & _ & Hs & _).
  split; [exact He|exact Hs].
Defined.

Lemma startSession_always_starts_witness :
  isBlank (startJob startOptions (page world0)) = false
  /\ exists r,
       session (after (@startSession offline startOptions) world0) = Some r
       /\ questions r <> [].
Proof.
  assert (Hj : isBlank (startJob startOptions (page world0)) = false)
    by (vm_compute; reflexivity).
  split; [exact Hj|].
  destruct (@startSession_always_starts offline startOptions world0 Hj)
    as (_ & _ & _ & r & Hr & _ & Hq & _).
  exists r. split; [exact Hr|exact Hq].
Defined.

Lemma pause_then_resume_witness :
  session wLocal = Some (the (session wLocal))
  /\ status (the (session wLocal)) = active
  /\ exists r1 r2,
       session (after (@perform offline OpPause) wLocal) = Some r1
       /\ status r1 = paused
       /\ session (after (@perform offline OpResume)
                     (after (@perform offline OpPause) wLocal)) = Some r2
       /\ status r2 = active
       /\ answers r2 = answers (the (session wLocal)).
Proof.
  split; [exact wLocal_session|]. split; [exact wLocal_status|].
  destruct (@pause_then_resume offline wLocal (the (session wLocal))
              wLocal_session wLocal_status)
    as (r1 & r2 & H1 & H2 & H3 & H4 & _ & _ & _ & H5 & _).
  exists r1, r2. auto.
Defined.

Lemma wFinished_session : session wFinished = Some (the (session wFinished)).
Proof. vm_compute. reflexivity. Defined.

Lemma wFinished_status : status (the (session wFinished)) = finished.
Proof. vm_compute. reflexivity. Defined.


Lemma out_of_state_transitions_are_inert_witness :
  session wPaused = Some (the (session wPaused))
  /\ status (the (session wPaused)) <> active
  /\ @perform offline OpPause wPaused = (Ok tt, wPaused)
  /\ session (after (@perform offline OpAdvance) wPaused)
     = Some (the (session wPaused))
  /\ error (page (after (@perform offline OpAdvance) wPaused))
     = advanceRejectedMessage.
Proof.
  split; [exact wPaused_session|]. split; [exact wPaused_status|].
  destruct (proj1 (@out_of_state_transitions_are_inert offline wPaused
                     (the (session wPaused)) wPaused_session)
              wPaused_status) as (Hp & Hs & _ & _ & He).
  split; [exact Hp|]. split; [exact Hs|exact He].
Defined.

Lemma wLocal_question :
  currentQuestion (Some (the (session wLocal)))
  = Some (theQuestion (currentQuestion (Some (the (session wLocal))))).
Proof. vm_compute. reflexivity. Defined.

Lemma submitAnswer_records_answer_witness :
  session wLocal = Some (the (session wLocal))
  /\ status (the (session wLocal)) = active
  /\ isBlank (trim (ideographicSpace +:+ "hello ")) = false
  /\ exists r,
       session (after (@perform offline
                         (OpSubmitAnswer (ideographicSpace +:+ "hello ")))
                  wLocal)
       = Some r
       /\ answers r !! "q-1" = Some "hello".
Proof.
  split; [exact wLocal_session|]. split; [exact wLocal_status|].
  split; [reflexivity|].
  destruct (@submitAnswer_records_answer offline wLocal (the (session wLocal))
              _ (ideographicSpace +:+ "hello ") wLocal_session wLocal_status
              wLocal_question eq_refl)
    as (_ & _ & _ & r & Hr & Ha & _).
  exists r. split; [exact Hr|]. rewrite Ha. apply lookup_insert_eq.
Defined.

Lemma transitions_continue_the_session_witness :
  session wLocal = Some (the (session wLocal))
  /\ exists r,
       session (after (@perform offline OpFinish) wLocal) = Some r
       /\ key r = key (the (session wLocal))
       /\ questions (the (session wLocal)) `prefix_of` questions r.
Proof.
  split; [exact wLocal_session|].
  destruct (@transitions_continue_the_session offline OpFinish wLocal
              (the (session wLocal)) wLocal_session)
    as (r & Hr & Hk & _ & _ & _ & _ & _ & _ & _ & Hq & _).
  exists r. auto.
Defined.


Lemma mergeRemoteSessions_keeps_records_witness :
  (0 < 50)%nat
  /\ [the (session wFinished)] !! 0%nat = Some (the (session wFinished))
  /\ exists new,
       mergeRemoteSessions "manual" [the (session wFinished)]
         [the (normalizeRemoteSessionAt "1000" historyItem)] !! 0%nat
       = Some new
       /\ key new = key (the (session wFinished))
       /\ feedback new = feedback (the (session wFinished)).
Proof.
  assert (H50 : (0 < 50)%nat) by lia.
  split; [exact H50|]. split; [reflexivity|].
  destruct (proj2 (mergeRemoteSessions_keeps_records "manual"
                     [the (session wFinished)]
                     [the (normalizeRemoteSessionAt "1000" historyItem)])
              0%nat (the (session wFinished)) H50 eq_refl)
    as (new & Hn & Hk & _ & Hf & _).
  exists new. split; [exact Hn|]. split; [exact Hk|].
  apply Hf. vm_compute. discriminate.
Defined.

Lemma wFinished_storable :
  Forall (fun r => key r <> "" /\ sessionId r <> "")
         [the (session wFinished)].
Proof. repeat constructor; vm_compute; discriminate. Defined.


Lemma syncRemoteSessions_keeps_session_witness :
  @remoteFails offline
  /\ fst (@syncRemoteSessions offline wLocal) = Ok tt
  /\ page (after (@syncRemoteSessions offline) wLocal) = page wLocal.
Proof.
  split; [exact offline_remoteFails|].
  destruct (@syncRemoteSessions_keeps_session offline wLocal)
    as (Hr & _ & _ & _ & _ & _ & Hp).
  split; [exact Hr|exact (Hp offline_remoteFails)].
Defined.

Lemma callInterviewApi_returns_ok_reply_witness :
  exists data candidate,
    fst (@callInterviewApi (scripted remoteScript)
           (@pageFetch (scripted remoteScript))
           [mkCandidate "/api/interview/session/create" POST] None world0)
    = Ok data
    /\ In candidate [mkCandidate "/api/interview/session/create" POST]
    /\ extractSessionId data = "42".
Proof.
  eexists. eexists.
  assert (Hd : fst (@callInterviewApi (scripted remoteScript)
                      (@pageFetch (scripted remoteScript))
                      [mkCandidate "/api/interview/session/create" POST] None
                      world0)
               = Ok (VObj [("sessionId", VStr "42");
                           ("questions",
                            VArr [VStr "Q1"; VStr "Q2"; VStr "Q3"])]))
    by (vm_compute; reflexivity).
  split; [exact Hd|].
  destruct (proj1 (@callInterviewApi_returns_ok_reply (scripted remoteScript)
                     (@pageFetch (scripted remoteScript))
                     [mkCandidate "/api/interview/session/create" POST] None)
              world0 _ Hd) as (c & i & w0 & r & Hin & _).
  split; [|reflexivity].
  destruct Hin as [<-|[]]. now left.
Defined.

Lemma wFinished_tidy :
  Forall (fun r => tidy (key r) /\ tidy (sessionId r))
         [the (session wFinished)].
Proof.
  repeat constructor; try (vm_compute; discriminate);
    vm_compute; reflexivity.
Defined.

Lemma summary_page_reads_stored_records_witness :
  Forall (fun r => tidy (key r) /\ tidy (sessionId r))
         [the (session wFinished)]
  /\ exists items,
       fst (SummaryPage.loadSessionsFromStorage
              (after (InterviewStore.saveSessionRecords
                        [the (session wFinished)]) world0)) = Ok items
       /\ Forall2 shownAs [the (session wFinished)] items.
Proof.
  split; [exact wFinished_tidy|].
  exact (summary_page_reads_stored_records [the (session wFinished)] world0
           wFinished_tidy).
Defined.

End FurtherRuns.
